(** * HdfsScanner: row materialization of the HDFS scan operator

    A shallow embedding of [be/src/exec/hdfs-scanner.cc] and the properties
    its specification states about it.

    Conventions of the embedding.
    - A C++ [int] is a [Z]; arithmetic the source performs on [int]s is
      written with its 32-bit wrap-around ([wrap32]).
    - A [uint8_t] flag is a [Z] byte; a [bool] stored into one is 0 or 1.
    - A [Tuple*] is an address ([Z], 0 is NULL) into [TupleMem], a finite map
      from addresses to tuple bytes.  A [TupleRow] is the array of tuple
      pointers it holds, so a row aliases the tuples it references.
    - A [char*] field start is the string of bytes readable at the pointer.
    - A nullable member pointer is an [option].
    - Every operation returns in [Res]: [Ret] for a normal return, [Trap] for
      a failed DCHECK (debug builds only, see [Build]) or for an access the
      C++ leaves undefined (NULL dereference, index out of range).
    - Calls into the expression evaluator and the text converter are
      recorded in a ghost [trace], so that statements about which calls
      are made, and how often, can be written down. *)

From Stdlib Require Import ZArith Lia Bool String Permutation.
From stdpp Require Import base tactics option list gmap strings pretty.

Local Open Scope Z_scope.

Set Primitive Projections.

(** ** Machine integers *)

Definition INT_MAX : Z := 2147483647.
Definition INT_MIN : Z := -2147483648.

Definition wrap32 (z : Z) : Z := (z + 2147483648) mod 4294967296 - 2147483648.

Definition int_add (a b : Z) : Z := wrap32 (a + b).
Definition int_sub (a b : Z) : Z := wrap32 (a - b).
Definition int_mul (a b : Z) : Z := wrap32 (a * b).
Definition int_neg (a : Z) : Z := wrap32 (- a).

Definition is_int (z : Z) : Prop := INT_MIN <= z <= INT_MAX.

(** A [bool] converted to [uint8_t] (also LLVM's [zext i1 to i8]). *)
Definition u8_of_bool (b : bool) : Z := if b then 1 else 0.

(** A [uint8_t] tested as a condition. *)
Definition u8_true (z : Z) : bool := negb (z =? 0).

(** ** Results, faults and DCHECK *)

Inductive Fault := DCheckFailed | NullDeref | OutOfBounds.

Inductive Res (A : Type) : Type :=
| Ret (a : A)
| Trap (f : Fault).
Arguments Ret {A} a.
Arguments Trap {A} f.

Definition Res_bind {A B : Type} (f : A -> Res B) (m : Res A) : Res B :=
  match m with
  | Ret a => f a
  | Trap e => Trap e
  end.

#[global] Instance Res_mret : MRet Res := @Ret.
#[global] Instance Res_mbind : MBind Res := @Res_bind.

(** The build: glog's DCHECK aborts when [dchecks_enabled] and is compiled
    out otherwise (NDEBUG). *)
Class Build := { dchecks_enabled : bool }.

Definition DCHECK `{Build} (c : bool) : Res unit :=
  if dchecks_enabled && negb c then Trap DCheckFailed else Ret tt.

(** Dereference of a member pointer. *)
Definition deref {A : Type} (p : option A) : Res A :=
  match p with
  | Some a => Ret a
  | None => Trap NullDeref
  end.

(** [a[i]] read and written on a C array. *)
Definition array_get {A : Type} (a : list A) (i : nat) : Res A :=
  match a !! i with
  | Some x => Ret x
  | None => Trap OutOfBounds
  end.

Definition array_set {A : Type} (a : list A) (i : nat) (x : A) : Res (list A) :=
  if decide (i < length a)%nat then Ret (<[i := x]> a) else Trap OutOfBounds.

(** ** Status *)

Inductive Status :=
| OK
| CANCELLED
| ERROR (msg : string).

Definition ok (s : Status) : bool :=
  match s with
  | OK => true
  | _ => false
  end.

(** ** Descriptors and fields *)

Inductive PrimitiveType :=
| TYPE_BOOLEAN
| TYPE_TINYINT
| TYPE_SMALLINT
| TYPE_INT
| TYPE_BIGINT
| TYPE_FLOAT
| TYPE_DOUBLE
| TYPE_TIMESTAMP
| TYPE_STRING.

#[global] Instance PrimitiveType_eq_dec : EqDecision PrimitiveType.
Proof. solve_decision. Defined.

(** Modelled from the spec: the printed name of a column type
    ([operator<<] is declared in util/debug-util.h, not part of these
    sources). *)
Definition TypeToString (t : PrimitiveType) : string :=
  match t with
  | TYPE_BOOLEAN => "BOOLEAN"
  | TYPE_TINYINT => "TINYINT"
  | TYPE_SMALLINT => "SMALLINT"
  | TYPE_INT => "INT"
  | TYPE_BIGINT => "BIGINT"
  | TYPE_FLOAT => "FLOAT"
  | TYPE_DOUBLE => "DOUBLE"
  | TYPE_TIMESTAMP => "TIMESTAMP"
  | TYPE_STRING => "STRING"
  end.

Record SlotDescriptor := {
  slot_type : PrimitiveType;
  col_pos : Z;
  tuple_offset : Z
}.

Record TupleDescriptor := {
  byte_size : Z;
  num_null_bytes : Z;
  string_slots : list SlotDescriptor
}.

Record FieldLocation := {
  start : string;
  len : Z
}.

(** ** Tuples, rows and tuple memory *)

(** The bytes of a tuple, and the tuple pointers of a row. *)
Abbreviation Tuple := (list Z) (only parsing).
Abbreviation TupleRow := (list Z) (only parsing).

Record Memory := {
  tuples : gmap Z Tuple;
  brk : Z
}.

(** Modelled from the spec: [MemPool::Allocate] hands out the next free
    region of the arena (runtime/mem-pool.h is not part of these sources). *)
Definition Allocate (m : Memory) (size : Z) : Z * Memory :=
  (brk m, {| tuples := tuples m; brk := brk m + size |}).

Definition load_tuple (m : Memory) (p : Z) : Res Tuple :=
  match tuples m !! p with
  | Some t => Ret t
  | None => Trap NullDeref
  end.

Definition store_tuple (m : Memory) (p : Z) (t : Tuple) : Memory :=
  {| tuples := <[p := t]> (tuples m); brk := brk m |}.

(** [memcpy(dst, src, n)] and [memset(dst, 0, n)] on tuple bytes. *)
Definition memcpy (dst src : Tuple) (n : Z) : Res Tuple :=
  if decide (Z.to_nat n <= length src /\ Z.to_nat n <= length dst)%nat
  then Ret (take (Z.to_nat n) src ++ drop (Z.to_nat n) dst)
  else Trap OutOfBounds.

Definition memset0 (dst : Tuple) (n : Z) : Res Tuple :=
  if decide (Z.to_nat n <= length dst)%nat
  then Ret (replicate (Z.to_nat n) 0 ++ drop (Z.to_nat n) dst)
  else Trap OutOfBounds.

(** [TupleRow::SetTuple(tuple_idx, tuple)]. *)
Definition SetTuple (row : TupleRow) (tuple_idx : nat) (tuple : Z) : Res TupleRow :=
  array_set row tuple_idx tuple.

(** ** Conjuncts *)

(** Modelled from the spec: a conjunct is used only through the compiled
    predicate contract: its verdict on a row ([GetValue]), its compiled form
    when it has one, and the scratch storage it asks for (exprs/expr.h is
    not part of these sources). *)
Record Expr := {
  GetValue : Memory -> TupleRow -> bool;
  codegen_fn : option (Memory -> TupleRow -> bool);
  scratch_buffer_size : Z
}.

(** Modelled from the spec: [ExecNode::EvalConjuncts] accepts a row iff
    every one of the first [num_exprs] conjuncts accepts it
    (exec/exec-node.cc is not part of these sources). *)
Definition EvalConjuncts (exprs : list Expr) (num_exprs : Z) (m : Memory)
    (row : TupleRow) : bool :=
  forallb (fun e => GetValue e m row) (take (Z.to_nat num_exprs) exprs).

(** ** The text converter *)

(** Modelled from the spec: [TextConverter::WriteSlot] converts the field
    bytes [data[0..len)] into the slot described by [desc], writing into the
    tuple, and reports whether the conversion succeeded.  The two flags are
    [copy_string] and [need_escape] (exec/text-converter.inline.h is not
    part of these sources).  The [MemPool*] that [WriteCompleteTuple] hands
    on to it is not modelled: what a copying conversion allocates there is
    outside this development, and nothing below is stated about it. *)
Record TextConverter := {
  WriteSlot : SlotDescriptor -> Tuple -> string -> Z -> bool -> bool -> Tuple * bool
}.

(** A compiled slot converter: [i1 @WriteSlot(tuple, data, len)]. *)
Definition SlotFn := Tuple -> string -> Z -> Tuple * bool.

(** ** Ghost trace of calls into the collaborators *)

Inductive Event :=
| EvalConjunctsCall (row : TupleRow)
| WriteSlotCall (desc : SlotDescriptor) (data : string) (data_len : Z)
    (copy_string need_escape : bool).

(** ** Generated code *)

(** The fused tuple writer is generated as a list of basic blocks, in the
    order the function holds them: the entry block, one parse block per
    conjunct index 0..N, and last the [eval_fail] block, which returns
    false.  [Br] goes to the next block; a conditional branch goes to the
    next block when the conjunct holds and to the [eval_fail] block when it
    does not. *)
Inductive Instr :=
| ZeroNullByte (i : nat)
| MemcpyTemplate (size : Z)
| StoreTupleInRow (tuple_idx : nat)
| CallWriteSlot (slot_idx : nat) (slot_fn : SlotFn)
| StoreErrorInRow.

Inductive Terminator :=
| Br
| CondBrConjunct (conjunct_fn : Memory -> TupleRow -> bool)
| RetTrue
| RetFalse.

Record BasicBlock := {
  body : list Instr;
  term : Terminator
}.

Definition FusedFn := list BasicBlock.

(** A call site of the batch-level driving routine: still a call to a
    named function, or already a call to a generated tuple writer. *)
Inductive CallSite :=
| CallNamed (callee : string)
| CallFused (fn : FusedFn).

(** The IR of the driving routine, as far as splicing looks at it. *)
Record DriverFn := {
  call_sites : list CallSite
}.

(** Modelled from the spec: the compilation backend, used only through
    "compile a slot converter", "splice a call site" and "finalize"
    (codegen/llvm-codegen.h and TextConverter::CodegenWriteSlot are not part
    of these sources). *)
Record LlvmCodeGen := {
  CodegenWriteSlot : SlotDescriptor -> option SlotFn;
  GenerateLlvmStruct : bool;
  verify_fused : FusedFn -> bool;
  HDFS_SCANNER_WRITE_ALIGNED_TUPLES : option DriverFn;
  verify_driver : DriverFn -> bool
}.

(** [LlvmCodeGen::FinalizeFunction]: the function, or NULL when it does not
    verify. *)
Definition FinalizeFunction (codegen : LlvmCodeGen) (fn : FusedFn) : option FusedFn :=
  if verify_fused codegen fn then Some fn else None.





(** Modelled from the spec: [Jit(compiledFunction) -> callableEntryPoint].
    The entry point is the function. *)
Definition JitFunction (codegen : LlvmCodeGen) (fn : DriverFn) : DriverFn := fn.

(** ** Row batches *)

(** Modelled from the spec: a row batch is a capacity-bounded, append-only
    sequence of rows; rows are added in flight and then committed, and the
    batch is full when the committed rows reach its capacity
    (runtime/row-batch.h is not part of these sources).  The resource check
    is kept as its boolean outcome, a given of each batch: how the limit is
    measured from the batch's arena is not modelled, and nothing below is
    stated about the outcome for a batch the scanner has just created. *)
Module RowBatch.

Record t := {
  capacity : Z;
  num_rows : Z;
  has_in_flight_row : bool;
  tuple_ptrs : list TupleRow;
  at_resource_limit : bool
}.

Definition set_num_rows (v : Z) (b : t) : t :=
  Build_t (capacity b) v (has_in_flight_row b) (tuple_ptrs b) (at_resource_limit b).

Definition set_has_in_flight_row (v : bool) (b : t) : t :=
  Build_t (capacity b) (num_rows b) v (tuple_ptrs b) (at_resource_limit b).

Definition set_tuple_ptrs (v : list TupleRow) (b : t) : t :=
  Build_t (capacity b) (num_rows b) (has_in_flight_row b) v (at_resource_limit b).

Definition INVALID_ROW_INDEX : Z := -1.

Definition new (num_tuples_per_row : nat) (cap : Z) : t :=
  {| capacity := cap;
     num_rows := 0;
     has_in_flight_row := false;
     tuple_ptrs := replicate (Z.to_nat cap) (replicate num_tuples_per_row 0);
     at_resource_limit := false |}.

Definition AddRows (b : t) (n : Z) : Z * t :=
  if capacity b <? num_rows b + n then (INVALID_ROW_INDEX, b)
  else (num_rows b, set_has_in_flight_row true b).

Definition AddRow (b : t) : Z * t := AddRows b 1.

Definition CommitRows `{Build} (b : t) (n : Z) : Res t :=
  _ ← DCHECK (0 <=? n);
  _ ← DCHECK (num_rows b + n <=? capacity b);
  Ret (set_has_in_flight_row false (set_num_rows (num_rows b + n) b)).

Definition CommitLastRow `{Build} (b : t) : Res t := CommitRows b 1.

(** [GetRow(row_idx)] computes the address of a row and checks nothing:
    a row pointer is the index of the row in the batch's row memory.
    Reading through the pointer ([LoadRow]) yields the row when the pointer
    is in the row memory, and writing through it ([PutRow]) updates the
    batch. *)
Definition GetRow (b : t) (row_idx : Z) : Z := row_idx.

Definition LoadRow (b : t) (row : Z) : Res TupleRow :=
  if row <? 0 then Trap OutOfBounds
  else array_get (tuple_ptrs b) (Z.to_nat row).

Definition PutRow (b : t) (row : Z) (r : TupleRow) : t :=
  set_tuple_ptrs (<[Z.to_nat row := r]> (tuple_ptrs b)) b.

Definition IsFull (b : t) : bool := num_rows b =? capacity b.

Definition AtResourceLimit (b : t) : bool := at_resource_limit b.

End RowBatch.

(** ** Runtime state, scanner context and scan node *)

(** Modelled from the spec: the query's runtime state offers a
    log-capacity check, log-append, the abort-on-error flag, a health
    check and per-file error registration (runtime/runtime-state.h is not
    part of these sources). *)
Record RuntimeState := {
  batch_size : Z;
  abort_on_error : bool;
  max_errors : Z;
  error_log : list string;
  file_errors : list (string * Z);
  query_state : Status;
  codegen : option LlvmCodeGen
}.

Definition set_error_log (v : _) (s : RuntimeState) : RuntimeState :=
  Build_RuntimeState (batch_size s) (abort_on_error s) (max_errors s) v (file_errors s) (query_state s) (codegen s).

Definition set_file_errors (v : _) (s : RuntimeState) : RuntimeState :=
  Build_RuntimeState (batch_size s) (abort_on_error s) (max_errors s) (error_log s) v (query_state s) (codegen s).


Definition LogHasSpace (st : RuntimeState) : bool :=
  Z.of_nat (length (error_log st)) <? max_errors st.

Definition LogError (st : RuntimeState) (msg : string) : RuntimeState :=
  if LogHasSpace st then set_error_log (error_log st ++ [msg]) st else st.

Definition ReportFileErrors (st : RuntimeState) (file : string) (n : Z) : RuntimeState :=
  set_file_errors (file_errors st ++ [(file, n)]) st.

Definition CheckQueryState (st : RuntimeState) : Status := query_state st.

Record Stream := {
  filename : string;
  stream_compact_data : bool
}.

(** Modelled from the spec: the scanner context carries the cancellation
    flag, the stream of the split, the template tuple built from the
    partition key values (NULL when no partition key is materialized), and
    receives the resources of completed batches together with the [done]
    flag (exec/scanner-context.h is not part of these sources). *)
Record ScannerContext := {
  cancelled : bool;
  GetStream : Stream;
  partition_template_tuple : option Z;
  completed_resources : list bool
}.

Definition AttachCompletedResources (ctx : ScannerContext) (batch : RowBatch.t)
    (done : bool) : ScannerContext :=
  {| cancelled := cancelled ctx;
     GetStream := GetStream ctx;
     partition_template_tuple := partition_template_tuple ctx;
     completed_resources := completed_resources ctx ++ [done] |}.

Record HdfsPartitionDescriptor := {
  escape_char : Z
}.

Inductive THdfsFileFormat :=
| TEXT
| LZO_TEXT
| RC_FILE
| SEQUENCE_FILE.

(** Modelled from the spec: what the scanner consumes from the scan
    coordinator: tuple layout metadata, the materialized slots, the ordered
    conjuncts, the slot materialization order, the codegen-function lookup,
    the counters of specialized and non-specialized scanners and the queue
    of materialized batches (exec/hdfs-scan-node.h is not part of these
    sources). *)
Record HdfsScanNode := {
  tuple_desc : TupleDescriptor;
  materialized_slots : list SlotDescriptor;
  tuple_idx : nat;
  num_tuples_per_row : nat;
  num_partition_keys : Z;
  num_materialized_partition_keys : Z;
  compact_data : bool;
  GetConjuncts : list Expr;
  ComputeSlotMaterializationOrder : list Z;
  GetCodegenFn : THdfsFileFormat -> option DriverFn;
  num_scanners_codegen_enabled : Z;
  num_scanners_codegen_disabled : Z;
  materialized_row_batches : list RowBatch.t;
  released_conjuncts : list (list Expr)
}.

Definition set_num_scanners_codegen_enabled (v : _) (s : HdfsScanNode) : HdfsScanNode :=
  Build_HdfsScanNode (tuple_desc s) (materialized_slots s) (tuple_idx s) (num_tuples_per_row s) (num_partition_keys s) (num_materialized_partition_keys s) (compact_data s) (GetConjuncts s) (ComputeSlotMaterializationOrder s) (GetCodegenFn s) v (num_scanners_codegen_disabled s) (materialized_row_batches s) (released_conjuncts s).

Definition set_num_scanners_codegen_disabled (v : _) (s : HdfsScanNode) : HdfsScanNode :=
  Build_HdfsScanNode (tuple_desc s) (materialized_slots s) (tuple_idx s) (num_tuples_per_row s) (num_partition_keys s) (num_materialized_partition_keys s) (compact_data s) (GetConjuncts s) (ComputeSlotMaterializationOrder s) (GetCodegenFn s) (num_scanners_codegen_enabled s) v (materialized_row_batches s) (released_conjuncts s).

Definition set_materialized_row_batches (v : _) (s : HdfsScanNode) : HdfsScanNode :=
  Build_HdfsScanNode (tuple_desc s) (materialized_slots s) (tuple_idx s) (num_tuples_per_row s) (num_partition_keys s) (num_materialized_partition_keys s) (compact_data s) (GetConjuncts s) (ComputeSlotMaterializationOrder s) (GetCodegenFn s) (num_scanners_codegen_enabled s) (num_scanners_codegen_disabled s) v (released_conjuncts s).

Definition set_released_conjuncts (v : _) (s : HdfsScanNode) : HdfsScanNode :=
  Build_HdfsScanNode (tuple_desc s) (materialized_slots s) (tuple_idx s) (num_tuples_per_row s) (num_partition_keys s) (num_materialized_partition_keys s) (compact_data s) (GetConjuncts s) (ComputeSlotMaterializationOrder s) (GetCodegenFn s) (num_scanners_codegen_enabled s) (num_scanners_codegen_disabled s) (materialized_row_batches s) v.


Definition IncNumScannersCodegenEnabled (n : HdfsScanNode) : HdfsScanNode :=
  set_num_scanners_codegen_enabled (num_scanners_codegen_enabled n + 1) n.

Definition IncNumScannersCodegenDisabled (n : HdfsScanNode) : HdfsScanNode :=
  set_num_scanners_codegen_disabled (num_scanners_codegen_disabled n + 1) n.

Definition AddMaterializedRowBatch (n : HdfsScanNode) (b : RowBatch.t) : HdfsScanNode :=
  set_materialized_row_batches (materialized_row_batches n ++ [b]) n.

Definition ReleaseConjuncts (n : HdfsScanNode) (c : list Expr) : HdfsScanNode :=
  set_released_conjuncts (released_conjuncts n ++ [c]) n.

(** ** The scanner *)

(** The members of [HdfsScanner], with the objects it points to held by
    value (one scanner drives them), the tuple memory, the row-level error
    logger of the format-specific subclass ([None] for the base class) and
    the ghost trace. *)
Record HdfsScanner := {
  scan_node_ : HdfsScanNode;
  state_ : RuntimeState;
  context_ : option ScannerContext;
  stream_ : option Stream;
  conjuncts_ : option (list Expr);
  num_conjuncts_ : Z;
  codegen_fn_ : option DriverFn;
  tuple_byte_size_ : Z;
  tuple_ : option Z;
  batch_ : option RowBatch.t;
  tuple_mem_ : Z;
  template_tuple_ : option Z;
  num_errors_in_file_ : Z;
  has_noncompact_strings_ : bool;
  num_null_bytes_ : Z;
  write_tuples_fn_ : option DriverFn;
  parse_status_ : Status;
  text_converter_ : TextConverter;
  LogRowParseError_override : option (Z -> string);
  mem : Memory;
  trace : list Event
}.

Definition set_scan_node_ (v : _) (s : HdfsScanner) : HdfsScanner :=
  Build_HdfsScanner v (state_ s) (context_ s) (stream_ s) (conjuncts_ s) (num_conjuncts_ s) (codegen_fn_ s) (tuple_byte_size_ s) (tuple_ s) (batch_ s) (tuple_mem_ s) (template_tuple_ s) (num_errors_in_file_ s) (has_noncompact_strings_ s) (num_null_bytes_ s) (write_tuples_fn_ s) (parse_status_ s) (text_converter_ s) (LogRowParseError_override s) (mem s) (trace s).

Definition set_state_ (v : _) (s : HdfsScanner) : HdfsScanner :=
  Build_HdfsScanner (scan_node_ s) v (context_ s) (stream_ s) (conjuncts_ s) (num_conjuncts_ s) (codegen_fn_ s) (tuple_byte_size_ s) (tuple_ s) (batch_ s) (tuple_mem_ s) (template_tuple_ s) (num_errors_in_file_ s) (has_noncompact_strings_ s) (num_null_bytes_ s) (write_tuples_fn_ s) (parse_status_ s) (text_converter_ s) (LogRowParseError_override s) (mem s) (trace s).

Definition set_context_ (v : _) (s : HdfsScanner) : HdfsScanner :=
  Build_HdfsScanner (scan_node_ s) (state_ s) v (stream_ s) (conjuncts_ s) (num_conjuncts_ s) (codegen_fn_ s) (tuple_byte_size_ s) (tuple_ s) (batch_ s) (tuple_mem_ s) (template_tuple_ s) (num_errors_in_file_ s) (has_noncompact_strings_ s) (num_null_bytes_ s) (write_tuples_fn_ s) (parse_status_ s) (text_converter_ s) (LogRowParseError_override s) (mem s) (trace s).

Definition set_stream_ (v : _) (s : HdfsScanner) : HdfsScanner :=
  Build_HdfsScanner (scan_node_ s) (state_ s) (context_ s) v (conjuncts_ s) (num_conjuncts_ s) (codegen_fn_ s) (tuple_byte_size_ s) (tuple_ s) (batch_ s) (tuple_mem_ s) (template_tuple_ s) (num_errors_in_file_ s) (has_noncompact_strings_ s) (num_null_bytes_ s) (write_tuples_fn_ s) (parse_status_ s) (text_converter_ s) (LogRowParseError_override s) (mem s) (trace s).

Definition set_conjuncts_ (v : _) (s : HdfsScanner) : HdfsScanner :=
  Build_HdfsScanner (scan_node_ s) (state_ s) (context_ s) (stream_ s) v (num_conjuncts_ s) (codegen_fn_ s) (tuple_byte_size_ s) (tuple_ s) (batch_ s) (tuple_mem_ s) (template_tuple_ s) (num_errors_in_file_ s) (has_noncompact_strings_ s) (num_null_bytes_ s) (write_tuples_fn_ s) (parse_status_ s) (text_converter_ s) (LogRowParseError_override s) (mem s) (trace s).

Definition set_num_conjuncts_ (v : _) (s : HdfsScanner) : HdfsScanner :=
  Build_HdfsScanner (scan_node_ s) (state_ s) (context_ s) (stream_ s) (conjuncts_ s) v (codegen_fn_ s) (tuple_byte_size_ s) (tuple_ s) (batch_ s) (tuple_mem_ s) (template_tuple_ s) (num_errors_in_file_ s) (has_noncompact_strings_ s) (num_null_bytes_ s) (write_tuples_fn_ s) (parse_status_ s) (text_converter_ s) (LogRowParseError_override s) (mem s) (trace s).

Definition set_codegen_fn_ (v : _) (s : HdfsScanner) : HdfsScanner :=
  Build_HdfsScanner (scan_node_ s) (state_ s) (context_ s) (stream_ s) (conjuncts_ s) (num_conjuncts_ s) v (tuple_byte_size_ s) (tuple_ s) (batch_ s) (tuple_mem_ s) (template_tuple_ s) (num_errors_in_file_ s) (has_noncompact_strings_ s) (num_null_bytes_ s) (write_tuples_fn_ s) (parse_status_ s) (text_converter_ s) (LogRowParseError_override s) (mem s) (trace s).

Definition set_batch_ (v : _) (s : HdfsScanner) : HdfsScanner :=
  Build_HdfsScanner (scan_node_ s) (state_ s) (context_ s) (stream_ s) (conjuncts_ s) (num_conjuncts_ s) (codegen_fn_ s) (tuple_byte_size_ s) (tuple_ s) v (tuple_mem_ s) (template_tuple_ s) (num_errors_in_file_ s) (has_noncompact_strings_ s) (num_null_bytes_ s) (write_tuples_fn_ s) (parse_status_ s) (text_converter_ s) (LogRowParseError_override s) (mem s) (trace s).

Definition set_tuple_mem_ (v : _) (s : HdfsScanner) : HdfsScanner :=
  Build_HdfsScanner (scan_node_ s) (state_ s) (context_ s) (stream_ s) (conjuncts_ s) (num_conjuncts_ s) (codegen_fn_ s) (tuple_byte_size_ s) (tuple_ s) (batch_ s) v (template_tuple_ s) (num_errors_in_file_ s) (has_noncompact_strings_ s) (num_null_bytes_ s) (write_tuples_fn_ s) (parse_status_ s) (text_converter_ s) (LogRowParseError_override s) (mem s) (trace s).

Definition set_template_tuple_ (v : _) (s : HdfsScanner) : HdfsScanner :=
  Build_HdfsScanner (scan_node_ s) (state_ s) (context_ s) (stream_ s) (conjuncts_ s) (num_conjuncts_ s) (codegen_fn_ s) (tuple_byte_size_ s) (tuple_ s) (batch_ s) (tuple_mem_ s) v (num_errors_in_file_ s) (has_noncompact_strings_ s) (num_null_bytes_ s) (write_tuples_fn_ s) (parse_status_ s) (text_converter_ s) (LogRowParseError_override s) (mem s) (trace s).

Definition set_num_errors_in_file_ (v : _) (s : HdfsScanner) : HdfsScanner :=
  Build_HdfsScanner (scan_node_ s) (state_ s) (context_ s) (stream_ s) (conjuncts_ s) (num_conjuncts_ s) (codegen_fn_ s) (tuple_byte_size_ s) (tuple_ s) (batch_ s) (tuple_mem_ s) (template_tuple_ s) v (has_noncompact_strings_ s) (num_null_bytes_ s) (write_tuples_fn_ s) (parse_status_ s) (text_converter_ s) (LogRowParseError_override s) (mem s) (trace s).

Definition set_write_tuples_fn_ (v : _) (s : HdfsScanner) : HdfsScanner :=
  Build_HdfsScanner (scan_node_ s) (state_ s) (context_ s) (stream_ s) (conjuncts_ s) (num_conjuncts_ s) (codegen_fn_ s) (tuple_byte_size_ s) (tuple_ s) (batch_ s) (tuple_mem_ s) (template_tuple_ s) (num_errors_in_file_ s) (has_noncompact_strings_ s) (num_null_bytes_ s) v (parse_status_ s) (text_converter_ s) (LogRowParseError_override s) (mem s) (trace s).

Definition set_parse_status_ (v : _) (s : HdfsScanner) : HdfsScanner :=
  Build_HdfsScanner (scan_node_ s) (state_ s) (context_ s) (stream_ s) (conjuncts_ s) (num_conjuncts_ s) (codegen_fn_ s) (tuple_byte_size_ s) (tuple_ s) (batch_ s) (tuple_mem_ s) (template_tuple_ s) (num_errors_in_file_ s) (has_noncompact_strings_ s) (num_null_bytes_ s) (write_tuples_fn_ s) v (text_converter_ s) (LogRowParseError_override s) (mem s) (trace s).

Definition set_mem (v : _) (s : HdfsScanner) : HdfsScanner :=
  Build_HdfsScanner (scan_node_ s) (state_ s) (context_ s) (stream_ s) (conjuncts_ s) (num_conjuncts_ s) (codegen_fn_ s) (tuple_byte_size_ s) (tuple_ s) (batch_ s) (tuple_mem_ s) (template_tuple_ s) (num_errors_in_file_ s) (has_noncompact_strings_ s) (num_null_bytes_ s) (write_tuples_fn_ s) (parse_status_ s) (text_converter_ s) (LogRowParseError_override s) v (trace s).

Definition set_trace (v : _) (s : HdfsScanner) : HdfsScanner :=
  Build_HdfsScanner (scan_node_ s) (state_ s) (context_ s) (stream_ s) (conjuncts_ s) (num_conjuncts_ s) (codegen_fn_ s) (tuple_byte_size_ s) (tuple_ s) (batch_ s) (tuple_mem_ s) (template_tuple_ s) (num_errors_in_file_ s) (has_noncompact_strings_ s) (num_null_bytes_ s) (write_tuples_fn_ s) (parse_status_ s) (text_converter_ s) (LogRowParseError_override s) (mem s) v.


Section Scanner.
Context `{Build}.

(** ** Construction and set-up *)

Definition HdfsScanner_new (scan_node : HdfsScanNode) (state : RuntimeState)
    (converter : TextConverter) (log_row : option (Z -> string)) (m : Memory)
    : HdfsScanner :=
  {| scan_node_ := scan_node;
     state_ := state;
     context_ := None;
     stream_ := None;
     conjuncts_ := None;
     num_conjuncts_ := 0;
     codegen_fn_ := None;
     tuple_byte_size_ := byte_size (tuple_desc scan_node);
     tuple_ := None;
     batch_ := None;
     tuple_mem_ := 0;
     template_tuple_ := None;
     num_errors_in_file_ := 0;
     has_noncompact_strings_ :=
       negb (compact_data scan_node)
       && negb (bool_decide (string_slots (tuple_desc scan_node) = []));
     num_null_bytes_ := num_null_bytes (tuple_desc scan_node);
     write_tuples_fn_ := None;
     parse_status_ := OK;
     text_converter_ := converter;
     LogRowParseError_override := log_row;
     mem := m;
     trace := [] |}.

Definition StartNewRowBatch (s : HdfsScanner) : HdfsScanner :=
  let b := RowBatch.new (num_tuples_per_row (scan_node_ s)) (batch_size (state_ s)) in
  let '(p, m) :=
    Allocate (mem s) (int_mul (batch_size (state_ s)) (tuple_byte_size_ s)) in
  set_tuple_mem_ p (set_mem m (set_batch_ (Some b) s)).

Definition Prepare (s : HdfsScanner) (context : ScannerContext)
    : HdfsScanner * Status :=
  let s := set_context_ (Some context) s in
  let s := set_stream_ (Some (GetStream context)) s in
  let s := set_template_tuple_ (partition_template_tuple context) s in
  let s := set_conjuncts_ (Some (GetConjuncts (scan_node_ s))) s in
  let s := set_num_conjuncts_ (Z.of_nat (length (GetConjuncts (scan_node_ s)))) s in
  (StartNewRowBatch s, OK).

Definition Close (s : HdfsScanner) : HdfsScanner :=
  match conjuncts_ s with
  | Some c =>
      set_conjuncts_ None (set_scan_node_ (ReleaseConjuncts (scan_node_ s) c) s)
  | None => s
  end.

(** The destructor: what it asserts of the scanner it destroys. *)
Definition HdfsScanner_delete (s : HdfsScanner) : Res unit :=
  _ ← DCHECK (bool_decide (codegen_fn_ s = None));
  _ ← DCHECK (bool_decide (batch_ s = None));
  _ ← DCHECK (bool_decide (conjuncts_ s = None));
  Ret tt.

Definition InitializeWriteTuplesFn (s : HdfsScanner)
    (partition : HdfsPartitionDescriptor) (type : THdfsFileFormat)
    (scanner_name : string) : Res (HdfsScanner * Status) :=
  let s := set_codegen_fn_ (GetCodegenFn (scan_node_ s) type) s in
  match codegen_fn_ s with
  | None =>
      Ret (set_scan_node_ (IncNumScannersCodegenDisabled (scan_node_ s)) s, OK)
  | Some fn =>
      needs_copy ←
        (if bool_decide (string_slots (tuple_desc (scan_node_ s)) = []) then Ret false
         else if negb (escape_char partition =? 0) then Ret true
         else st ← deref (stream_ s); Ret (stream_compact_data st));
      if (needs_copy : bool)
      then Ret (set_scan_node_ (IncNumScannersCodegenDisabled (scan_node_ s)) s, OK)
      else
        jit ← deref (codegen (state_ s));
        let s := set_write_tuples_fn_ (Some (JitFunction jit fn)) s in
        Ret (set_scan_node_ (IncNumScannersCodegenEnabled (scan_node_ s)) s, OK)
  end.

(** ** Batch assembly *)

(** Returns the tuple memory cursor, the pointer to the row handed out and
    the number of rows the batch can still take. *)
Definition GetMemory (s : HdfsScanner) : Res (HdfsScanner * Z * Z * Z) :=
  _ ← DCHECK (bool_decide (batch_ s <> None));
  b ← deref (batch_ s);
  _ ← DCHECK (negb (RowBatch.IsFull b));
  let '(row_idx, b) := RowBatch.AddRow b in
  let tuple_row_mem := RowBatch.GetRow b row_idx in
  Ret (set_batch_ (Some b) s, tuple_mem_ s, tuple_row_mem,
       int_sub (RowBatch.capacity b) (RowBatch.num_rows b)).

Definition CommitRows (s : HdfsScanner) (num_rows : Z) : Res (HdfsScanner * Status) :=
  _ ← DCHECK (bool_decide (batch_ s <> None));
  b ← deref (batch_ s);
  _ ← DCHECK (num_rows <=? int_sub (RowBatch.capacity b) (RowBatch.num_rows b));
  b ← RowBatch.CommitRows b num_rows;
  let s := set_batch_ (Some b) s in
  let s :=
    set_tuple_mem_
      (tuple_mem_ s + int_mul (byte_size (tuple_desc (scan_node_ s))) num_rows) s in
  s ← (if RowBatch.IsFull b || RowBatch.AtResourceLimit b then
         ctx ← deref (context_ s);
         let s := set_context_ (Some (AttachCompletedResources ctx b false)) s in
         let s := set_scan_node_ (AddMaterializedRowBatch (scan_node_ s) b) s in
         Ret (StartNewRowBatch s)
       else Ret s);
  ctx ← deref (context_ s);
  if cancelled ctx then Ret (s, CANCELLED)
  else if negb (ok (CheckQueryState (state_ s))) then Ret (s, CheckQueryState (state_ s))
  else Ret (s, OK).

(** The context and the scan node are modelled as receiving the batch, not
    a pointer to one: what they do with a NULL batch is not part of these
    sources, and nothing below is stated about a release build that gets
    here without a batch. *)
Definition AddFinalRowBatch (s : HdfsScanner) : Res HdfsScanner :=
  _ ← DCHECK (bool_decide (batch_ s <> None));
  b ← deref (batch_ s);
  ctx ← deref (context_ s);
  let s := set_context_ (Some (AttachCompletedResources ctx b true)) s in
  let s := set_scan_node_ (AddMaterializedRowBatch (scan_node_ s) b) s in
  Ret (set_batch_ None s).

(** ** Conjunct evaluation as the scanner calls it *)

(** [ExecNode::EvalConjuncts] on the scanner's conjuncts and [row]. *)
Definition eval_conjuncts (s : HdfsScanner) (row : TupleRow) : Res (HdfsScanner * bool) :=
  exprs ← deref (conjuncts_ s);
  Ret (set_trace (trace s ++ [EvalConjunctsCall row]) s,
       EvalConjuncts exprs (num_conjuncts_ s) (mem s) row).

(** ** Empty tuples *)

(** [row_batch->GetRow(row_idx)->SetTuple(tuple_idx, tuple)]. *)
Definition set_row_tuple (b : RowBatch.t) (row_idx : Z) (tuple_idx : nat) (tuple : Z)
    : Res (RowBatch.t * TupleRow) :=
  let current_row := RowBatch.GetRow b row_idx in
  row ← RowBatch.LoadRow b current_row;
  row ← SetTuple row tuple_idx tuple;
  Ret (RowBatch.PutRow b current_row row, row).

(** The stamping loop of the batch-level variant, [count] iterations. *)
Fixpoint stamp_batch (count : nat) (b : RowBatch.t) (tuple_idx : nat) (tuple : Z)
    : Res RowBatch.t :=
  match count with
  | O => Ret b
  | S count =>
      _ ← DCHECK (negb (RowBatch.IsFull b));
      let '(row_idx, b) := RowBatch.AddRow b in
      _ ← DCHECK (negb (row_idx =? RowBatch.INVALID_ROW_INDEX));
      '(b, _) ← set_row_tuple b row_idx tuple_idx tuple;
      b ← RowBatch.CommitLastRow b;
      stamp_batch count b tuple_idx tuple
  end.

(** [int WriteEmptyTuples(RowBatch* row_batch, int num_tuples)]. *)
Definition WriteEmptyTuples_batch (s : HdfsScanner) (row_batch : RowBatch.t)
    (num_tuples : Z) : Res (HdfsScanner * RowBatch.t * Z) :=
  _ ← DCHECK (0 <? num_tuples);
  match template_tuple_ s with
  | None =>
      let '(_, b) := RowBatch.AddRows row_batch num_tuples in
      b ← RowBatch.CommitRows b num_tuples;
      Ret (s, b, num_tuples)
  | Some template =>
      let '(row_idx, b) := RowBatch.AddRow row_batch in
      '(b, current_row) ← set_row_tuple b row_idx (tuple_idx (scan_node_ s)) template;
      '(s, pass) ← eval_conjuncts s current_row;
      if negb pass then Ret (s, b, 0)
      else
        b ← RowBatch.CommitLastRow b;
        let num_tuples := int_sub num_tuples 1 in
        _ ← DCHECK (num_tuples <=? int_sub (RowBatch.capacity b) (RowBatch.num_rows b));
        b ← stamp_batch (Z.to_nat num_tuples) b (tuple_idx (scan_node_ s)) template;
        Ret (s, b, num_tuples)
  end.

(** The stamping loop of the row-cursor variant: [row] is the cursor into
    the row memory [rows], and [next_row] moves it by one row. *)
Fixpoint stamp_rows (count : nat) (rows : list TupleRow) (row : nat)
    (tuple_idx : nat) (tuple : Z) : Res (list TupleRow) :=
  match count with
  | O => Ret rows
  | S count =>
      r ← array_get rows row;
      r ← SetTuple r tuple_idx tuple;
      stamp_rows count (<[row := r]> rows) (S row) tuple_idx tuple
  end.

(** [int WriteEmptyTuples(ScannerContext* context, TupleRow* row, int num_tuples)]. *)
Definition WriteEmptyTuples_rows (s : HdfsScanner) (context : ScannerContext)
    (rows : list TupleRow) (row : nat) (num_tuples : Z)
    : Res (HdfsScanner * list TupleRow * Z) :=
  _ ← DCHECK (0 <=? num_tuples);
  if num_tuples =? 0 then Ret (s, rows, 0)
  else
    match template_tuple_ s with
    | None =>
        r ← array_get rows row;
        '(s, pass) ← eval_conjuncts s r;
        if negb pass then Ret (s, rows, 0) else Ret (s, rows, num_tuples)
    | Some template =>
        r ← array_get rows row;
        r ← SetTuple r (tuple_idx (scan_node_ s)) template;
        let rows := <[row := r]> rows in
        '(s, pass) ← eval_conjuncts s r;
        if negb pass then Ret (s, rows, 0)
        else
          rows ← stamp_rows (Z.to_nat (num_tuples - 1)) rows (S row)
                   (tuple_idx (scan_node_ s)) template;
          Ret (s, rows, num_tuples)
    end.

(** ** The interpreted tuple writer *)

(** Modelled from the spec: [InitTuple] (declared in exec/hdfs-scanner.h)
    initializes the tuple from the template tuple: a copy of the template's
    bytes, or zeroed null-indicator bytes when there is no template. *)
Definition InitTuple (s : HdfsScanner) (template_tuple : option Z) (tuple : Z)
    : Res HdfsScanner :=
  match template_tuple with
  | Some template =>
      dst ← load_tuple (mem s) tuple;
      src ← load_tuple (mem s) template;
      t ← memcpy dst src (tuple_byte_size_ s);
      Ret (set_mem (store_tuple (mem s) tuple t) s)
  | None =>
      dst ← load_tuple (mem s) tuple;
      t ← memset0 dst (num_null_bytes_ s);
      Ret (set_mem (store_tuple (mem s) tuple t) s)
  end.

(** The length and the escape flag [WriteCompleteTuple] passes on for a
    field length [len]. *)
Definition decode_len (len : Z) : Z * bool :=
  if len <? 0 then (int_neg len, true) else (len, false).

(** The slot loop of [WriteCompleteTuple], from slot index [i] on. *)
Fixpoint write_slots (s : HdfsScanner) (slots : list SlotDescriptor) (i : nat)
    (fields : list FieldLocation) (tuple : Z) (error_fields : list Z)
    (error_in_row : Z) : Res (HdfsScanner * list Z * Z) :=
  match slots with
  | [] => Ret (s, error_fields, error_in_row)
  | desc :: rest =>
      f ← array_get fields i;
      let '(len, need_escape) := decode_len (len f) in
      st ← deref (stream_ s);
      t ← load_tuple (mem s) tuple;
      let '(t, parsed) :=
        WriteSlot (text_converter_ s) desc t (start f) len
          (stream_compact_data st) need_escape in
      let s :=
        set_trace (trace s ++ [WriteSlotCall desc (start f) len
                                 (stream_compact_data st) need_escape]) s in
      let s := set_mem (store_tuple (mem s) tuple t) s in
      let error := negb parsed in
      error_fields ← array_set error_fields i (u8_of_bool error);
      write_slots s rest (S i) fields tuple error_fields
        (Z.lor error_in_row (u8_of_bool error))
  end.

(** The outputs of a tuple writer besides the scanner state. *)
Record TupleWriterResult := {
  accepted : bool;
  row_out : TupleRow;
  error_fields_out : list Z;
  error_in_row_out : Z
}.

Definition WriteCompleteTuple (s : HdfsScanner) (fields : list FieldLocation)
    (tuple : Z) (tuple_row : TupleRow) (template_tuple : option Z)
    (error_fields : list Z) (error_in_row : Z)
    : Res (HdfsScanner * TupleWriterResult) :=
  let error_in_row := u8_of_bool false in
  s ← InitTuple s template_tuple tuple;
  '(s, error_fields, error_in_row) ←
    write_slots s (materialized_slots (scan_node_ s)) 0 fields tuple
      error_fields error_in_row;
  tuple_row ← SetTuple tuple_row (tuple_idx (scan_node_ s)) tuple;
  '(s, pass) ← eval_conjuncts s tuple_row;
  Ret (s, {| accepted := pass;
             row_out := tuple_row;
             error_fields_out := error_fields;
             error_in_row_out := error_in_row |}).

(** ** The generated tuple writer *)







(** ** Code generation *)

(** The loop that compiles one converter per materialized slot. *)
Fixpoint codegen_slot_fns (codegen : LlvmCodeGen) (slots : list SlotDescriptor)
    : option (list SlotFn) :=
  match slots with
  | [] => Some []
  | slot_desc :: rest =>
      match CodegenWriteSlot codegen slot_desc with
      | None => None
      | Some fn =>
          match codegen_slot_fns codegen rest with
          | None => None
          | Some fns => Some (fn :: fns)
          end
      end
  end.

(** The loop over the conjuncts that looks for a missing compiled form. *)
Fixpoint conjuncts_compiled (conjuncts : list Expr) : Res bool :=
  match conjuncts with
  | [] => Ret true
  | c :: rest =>
      match codegen_fn c with
      | None => Ret false
      | Some _ =>
          _ ← DCHECK (scratch_buffer_size c =? 0);
          conjuncts_compiled rest
      end
  end.

(** The inner loop: the slots whose materialization order is
    [conjunct_idx], from slot index [slot_idx] on. *)
Fixpoint codegen_slots (materialize_order : list Z) (slot_fns : list SlotFn)
    (conjunct_idx : Z) (slot_idx : nat) : Res (list Instr) :=
  match materialize_order with
  | [] => Ret []
  | order :: rest =>
      if negb (order =? conjunct_idx)
      then codegen_slots rest slot_fns conjunct_idx (S slot_idx)
      else
        slot_fn ← array_get slot_fns slot_idx;
        instrs ← codegen_slots rest slot_fns conjunct_idx (S slot_idx);
        Ret (CallWriteSlot slot_idx slot_fn :: instrs)
  end.

(** The outer loop: one parse block per conjunct index, and the last one
    for the slots no conjunct references.  Each parse block but the last
    ends in the branch on its conjunct, to the parse block created next or
    to the [eval_fail] block. *)
Fixpoint codegen_conjuncts (materialize_order : list Z) (slot_fns : list SlotFn)
    (conjuncts : list Expr) (conjunct_idx : Z) : Res (list BasicBlock) :=
  match conjuncts with
  | [] =>
      instrs ← codegen_slots materialize_order slot_fns conjunct_idx 0;
      Ret [{| body := instrs ++ [StoreErrorInRow]; term := RetTrue |}]
  | c :: rest =>
      instrs ← codegen_slots materialize_order slot_fns conjunct_idx 0;
      conjunct_fn ← deref (codegen_fn c);
      blocks ← codegen_conjuncts materialize_order slot_fns rest (conjunct_idx + 1);
      Ret ({| body := instrs; term := CondBrConjunct conjunct_fn |} :: blocks)
  end.

Definition has_timestamp_slot (slots : list SlotDescriptor) : bool :=
  existsb (fun slot_desc => bool_decide (slot_type slot_desc = TYPE_TIMESTAMP)) slots.

Definition CodegenWriteCompleteTuple (node : HdfsScanNode) (codegen : LlvmCodeGen)
    (conjuncts : list Expr) : Res (option FusedFn) :=
  if has_timestamp_slot (materialized_slots node) then Ret None
  else if compact_data node && negb (bool_decide (string_slots (tuple_desc node) = []))
  then Ret None
  else
    compiled ← conjuncts_compiled conjuncts;
    if negb compiled then Ret None
    else
      match codegen_slot_fns codegen (materialized_slots node) with
      | None => Ret None
      | Some slot_fns =>
          let materialize_order := ComputeSlotMaterializationOrder node in
          if negb (GenerateLlvmStruct codegen) then Ret None
          else
            let init :=
              if num_materialized_partition_keys node =? 0
              then map ZeroNullByte (seq 0 (Z.to_nat (num_null_bytes (tuple_desc node))))
              else [MemcpyTemplate (byte_size (tuple_desc node))] in
            let entry :=
              {| body := init ++ [StoreTupleInRow (tuple_idx node)]; term := Br |} in
            blocks ← codegen_conjuncts materialize_order slot_fns conjuncts 0;
            let eval_fail := {| body := []; term := RetFalse |} in
            Ret (FinalizeFunction codegen (entry :: blocks ++ [eval_fail]))
      end.


(** ** Parse error reporting *)

(** [string(data, len)]. *)
Definition string_of_data (data : string) (len : Z) : string :=
  substring 0 (Z.to_nat len) data.

Definition column_error_message (s : HdfsScanner) (desc : SlotDescriptor)
    (data : string) (len : Z) : string :=
  "Error converting column: "
  +:+ pretty (int_sub (col_pos desc) (num_partition_keys (scan_node_ s)))
  +:+ " TO " +:+ TypeToString (slot_type desc)
  +:+ " (Data is: " +:+ string_of_data data len +:+ ")".

Definition ReportColumnParseError (s : HdfsScanner) (desc : SlotDescriptor)
    (data : string) (len : Z) : HdfsScanner :=
  let len := if len <? 0 then int_neg len else len in
  if LogHasSpace (state_ s) || abort_on_error (state_ s) then
    let ss := column_error_message s desc data len in
    let s :=
      if LogHasSpace (state_ s) then set_state_ (LogError (state_ s) ss) s else s in
    if abort_on_error (state_ s) && ok (parse_status_ s)
    then set_parse_status_ (ERROR ss) s
    else s
  else s.

(** [LogRowParseError] is virtual: the text and sequence file scanners
    override it, and the base class asserts that it is never reached. *)
Definition LogRowParseError (s : HdfsScanner) (row_idx : Z) (ss : string) : Res string :=
  match LogRowParseError_override s with
  | Some describe => Ret (ss +:+ describe row_idx)
  | None => _ ← DCHECK false; Ret ss
  end.

(** The slot loop of [ReportTupleParseError], from slot index [i] on. *)
Fixpoint report_slots (s : HdfsScanner) (slots : list SlotDescriptor) (i : nat)
    (fields : list FieldLocation) (errors : list Z) : Res (HdfsScanner * list Z) :=
  match slots with
  | [] => Ret (s, errors)
  | desc :: rest =>
      e ← array_get errors i;
      if u8_true e then
        f ← array_get fields i;
        let s := ReportColumnParseError s desc (start f) (len f) in
        errors ← array_set errors i (u8_of_bool false);
        report_slots s rest (S i) fields errors
      else report_slots s rest (S i) fields errors
  end.

Definition endl : string := String (Ascii.ascii_of_nat 10) EmptyString.

Definition ReportTupleParseError (s : HdfsScanner) (fields : list FieldLocation)
    (errors : list Z) (row_idx : Z) : Res (HdfsScanner * list Z * bool) :=
  '(s, errors) ← report_slots s (materialized_slots (scan_node_ s)) 0 fields errors;
  s ← (if LogHasSpace (state_ s) then
         st ← deref (stream_ s);
         ss ← LogRowParseError s row_idx
                ("file: " +:+ filename st +:+ endl +:+ "record: ");
         Ret (set_state_ (LogError (state_ s) ss) s)
       else Ret s);
  let s := set_num_errors_in_file_ (int_add (num_errors_in_file_ s) 1) s in
  s ← (if abort_on_error (state_ s) then
         st ← deref (stream_ s);
         let s := set_state_ (ReportFileErrors (state_ s) (filename st) 1) s in
         _ ← DCHECK (negb (ok (parse_status_ s)));
         Ret s
       else Ret s);
  Ret (s, errors, ok (parse_status_ s)).

End Scanner.

(** * Definitions used to state the properties *)


(** One row stamped and committed: the step of the batch-level loop. *)
Definition stamp_one (b : RowBatch.t) (idx : nat) (tuple : Z) (r : TupleRow) : RowBatch.t :=
  RowBatch.set_has_in_flight_row false
    (RowBatch.set_num_rows (RowBatch.num_rows b + 1)
       (RowBatch.PutRow (RowBatch.set_has_in_flight_row true b) (RowBatch.num_rows b)
          (<[idx := tuple]> r))).

Definition rows_wide (idx : nat) (rows : list TupleRow) : Prop :=
  Forall (fun r : TupleRow => (idx < length r)%nat) rows.

(** The conversions [WriteCompleteTuple] performs, as a function of the
    tuple bytes alone: the slots are converted in order, each on the bytes
    the previous conversions left, and every conversion reports its
    success.  Yields the final bytes and the success flag of each slot. *)
Fixpoint convert_slots (conv : TextConverter) (compact : bool)
    (slots : list SlotDescriptor) (fields : list FieldLocation) (t : Tuple)
    : Tuple * list bool :=
  match slots, fields with
  | desc :: slots, f :: fields =>
      let r := WriteSlot conv desc t (start f) (fst (decode_len (len f))) compact
                 (snd (decode_len (len f))) in
      let rest := convert_slots conv compact slots fields (fst r) in
      (fst rest, snd r :: snd rest)
  | _, _ => (t, [])
  end.

(** The calls of the text converter these conversions make. *)
Fixpoint slot_calls (compact : bool) (slots : list SlotDescriptor)
    (fields : list FieldLocation) : list Event :=
  match slots, fields with
  | desc :: slots, f :: fields =>
      WriteSlotCall desc (start f) (fst (decode_len (len f))) compact
        (snd (decode_len (len f)))
      :: slot_calls compact slots fields
  | _, _ => []
  end.

(** The flag array after the success flags of the slots [i], [i+1], ...
    have been stored as error flags. *)
Fixpoint store_flags (i : nat) (flags : list bool) (error_fields : list Z) : list Z :=
  match flags with
  | [] => error_fields
  | parsed :: rest =>
      store_flags (S i) rest (<[i := u8_of_bool (negb parsed)]> error_fields)
  end.

(** The bytes [InitTuple] leaves in a tuple holding [t]. *)
Definition init_bytes (s : HdfsScanner) (template_tuple : option Z) (t : Tuple) : Tuple :=
  match template_tuple with
  | Some template =>
      match tuples (mem s) !! template with
      | Some src =>
          take (Z.to_nat (tuple_byte_size_ s)) src ++ drop (Z.to_nat (tuple_byte_size_ s)) t
      | None => t
      end
  | None =>
      replicate (Z.to_nat (num_null_bytes_ s)) 0 ++ drop (Z.to_nat (num_null_bytes_ s)) t
  end.

(** What [WriteCompleteTuple] needs of its arguments: a readable tuple
    (and template) of the layout size, the stream, one field and one flag
    per materialized slot, a row wide enough for the tuple index, and the
    conjuncts. *)
Record WriteCompleteTuple_ready (s : HdfsScanner) (fields : list FieldLocation)
    (tuple : Z) (tuple_row : TupleRow) (template_tuple : option Z)
    (error_fields : list Z) (t : Tuple) (st : Stream) (exprs : list Expr) : Prop := {
  ready_tuple : tuples (mem s) !! tuple = Some t;
  ready_template :
    match template_tuple with
    | Some template =>
        exists src, tuples (mem s) !! template = Some src /\
          (Z.to_nat (tuple_byte_size_ s) <= length src)%nat /\
          (Z.to_nat (tuple_byte_size_ s) <= length t)%nat
    | None => (Z.to_nat (num_null_bytes_ s) <= length t)%nat
    end;
  ready_stream : stream_ s = Some st;
  ready_fields : (length (materialized_slots (scan_node_ s)) <= length fields)%nat;
  ready_flags : (length (materialized_slots (scan_node_ s)) <= length error_fields)%nat;
  ready_row : (tuple_idx (scan_node_ s) < length tuple_row)%nat;
  ready_conjuncts : conjuncts_ s = Some exprs
}.

(** The scanner as a state machine: one constructor per member function
    that can change the scanner, with the arguments of the call. *)
Inductive Operation :=
| OpPrepare (context : ScannerContext)
| OpClose
| OpInitializeWriteTuplesFn (partition : HdfsPartitionDescriptor)
    (type : THdfsFileFormat) (scanner_name : string)
| OpStartNewRowBatch
| OpGetMemory
| OpCommitRows (num_rows : Z)
| OpAddFinalRowBatch
| OpWriteEmptyTuples_batch (row_batch : RowBatch.t) (num_tuples : Z)
| OpWriteEmptyTuples_rows (context : ScannerContext) (rows : list TupleRow)
    (row : nat) (num_tuples : Z)
| OpWriteCompleteTuple (fields : list FieldLocation) (tuple : Z)
    (tuple_row : TupleRow) (template_tuple : option Z) (error_fields : list Z)
    (error_in_row : Z)
| OpReportTupleParseError (fields : list FieldLocation) (errors : list Z)
    (row_idx : Z)
| OpReportColumnParseError (desc : SlotDescriptor) (data : string) (len : Z).

Section StateMachine.
Context `{Build}.

(** The scanner after an operation; what the call returns besides is
    dropped. *)
Definition perform (op : Operation) (s : HdfsScanner) : Res HdfsScanner :=
  match op with
  | OpPrepare context => Ret (fst (Prepare s context))
  | OpClose => Ret (Close s)
  | OpInitializeWriteTuplesFn partition type scanner_name =>
      r ← InitializeWriteTuplesFn s partition type scanner_name; Ret (fst r)
  | OpStartNewRowBatch => Ret (StartNewRowBatch s)
  | OpGetMemory => r ← GetMemory s; Ret (fst (fst (fst r)))
  | OpCommitRows num_rows => r ← CommitRows s num_rows; Ret (fst r)
  | OpAddFinalRowBatch => AddFinalRowBatch s
  | OpWriteEmptyTuples_batch row_batch num_tuples =>
      r ← WriteEmptyTuples_batch s row_batch num_tuples; Ret (fst (fst r))
  | OpWriteEmptyTuples_rows context rows row num_tuples =>
      r ← WriteEmptyTuples_rows s context rows row num_tuples; Ret (fst (fst r))
  | OpWriteCompleteTuple fields tuple tuple_row template_tuple error_fields error_in_row =>
      r ← WriteCompleteTuple s fields tuple tuple_row template_tuple error_fields
            error_in_row;
      Ret (fst r)
  | OpReportTupleParseError fields errors row_idx =>
      r ← ReportTupleParseError s fields errors row_idx; Ret (fst (fst r))
  | OpReportColumnParseError desc data len =>
      Ret (ReportColumnParseError s desc data len)
  end.

Fixpoint perform_all (ops : list Operation) (s : HdfsScanner) : Res HdfsScanner :=
  match ops with
  | [] => Ret s
  | op :: rest => s ← perform op s; perform_all rest s
  end.

End StateMachine.

(** The row-level message of [ReportTupleParseError]. *)
Definition row_error_message (st : Stream) (describe : Z -> string) (row_idx : Z)
    : string :=
  ("file: " +:+ filename st +:+ endl +:+ "record: ") +:+ describe row_idx.

(** ** The two tuple writers on a common footing *)

(** What the conversions of a row act on: the tuple bytes, the flag array
    and the accumulated error flag. *)
Record Conversion := {
  c_bytes : Tuple;
  c_flags : list Z;
  c_error : bool
}.

Section Conversions.
Variables (conv : TextConverter) (compact : bool).
Variables (slots : list SlotDescriptor) (fields : list FieldLocation).

(** The interpreted conversion of slot [i] on the bytes [t]. *)
Definition convert_slot (i : nat) (t : Tuple) : Tuple * bool :=
  match slots !! i, fields !! i with
  | Some desc, Some f =>
      WriteSlot conv desc t (start f) (fst (decode_len (len f))) compact
        (snd (decode_len (len f)))
  | _, _ => (t, true)
  end.

Definition convert_step (a : Conversion) (i : nat) : Conversion :=
  {| c_bytes := fst (convert_slot i (c_bytes a));
     c_flags := <[i := u8_of_bool (negb (snd (convert_slot i (c_bytes a))))]> (c_flags a);
     c_error := c_error a || negb (snd (convert_slot i (c_bytes a))) |}.

Definition convert_list (l : list nat) (a : Conversion) : Conversion :=
  fold_left convert_step l a.

End Conversions.

(** The slots the generated code converts before conjunct [conjunct_idx],
    in the order of the inner loop (from slot index [slot_idx] on). *)
Fixpoint scheduled (materialize_order : list Z) (conjunct_idx : Z) (slot_idx : nat)
    : list nat :=
  match materialize_order with
  | [] => []
  | order :: rest =>
      if order =? conjunct_idx
      then slot_idx :: scheduled rest conjunct_idx (S slot_idx)
      else scheduled rest conjunct_idx (S slot_idx)
  end.




(** The slots whose materialization order lies in [lo, hi), in slot
    order. *)
Fixpoint scheduled_range (materialize_order : list Z) (lo hi : Z) (slot_idx : nat)
    : list nat :=
  match materialize_order with
  | [] => []
  | order :: rest =>
      if (lo <=? order) && (order <? hi)
      then slot_idx :: scheduled_range rest lo hi (S slot_idx)
      else scheduled_range rest lo hi (S slot_idx)
  end.

(** The slots the generated code converts in [groups] consecutive parse
    blocks, from conjunct index [conjunct_idx] on, in the order it
    converts them. *)
Fixpoint schedule (materialize_order : list Z) (conjunct_idx : Z) (groups : nat)
    : list nat :=
  match groups with
  | O => []
  | S groups =>
      scheduled materialize_order conjunct_idx 0
      ++ schedule materialize_order (conjunct_idx + 1) groups
  end.


(** The instructions generated for the slots [l]. *)
Definition slot_instrs (slot_fns : list SlotFn) (l : list nat) : list Instr :=
  flat_map (fun j => match slot_fns !! j with
                     | Some fn => [CallWriteSlot j fn]
                     | None => []
                     end) l.

(** The slots the generated function converts, in the order of its blocks
    and instructions. *)
Definition converted_slots (fn : FusedFn) : list nat :=
  flat_map (fun b => flat_map (fun i => match i with
                                        | CallWriteSlot slot_idx _ => [slot_idx]
                                        | _ => []
                                        end) (body b)) fn.

(** The conjunct branches of the generated function, in block order. *)
Definition conjunct_branches (fn : FusedFn) : list (Memory -> TupleRow -> bool) :=
  flat_map (fun b => match term b with
                     | CondBrConjunct conjunct_fn => [conjunct_fn]
                     | _ => []
                     end) fn.

(** The indices of the slots whose error flag is set, from slot index [i]
    on. *)
Fixpoint flagged (slots : list SlotDescriptor) (i : nat) (errors : list Z) : list nat :=
  match slots with
  | [] => []
  | _ :: rest =>
      match errors !! i with
      | Some e => if u8_true e then i :: flagged rest (S i) errors
                  else flagged rest (S i) errors
      | None => flagged rest (S i) errors
      end
  end.

(** * Example configurations

    A three-column table (an integer, a string, an integer) with the single
    conjunct "first column > 5", a text converter that reads one decimal
    digit, and the objects a scanner over it needs.  The closed examples
    further down evaluate the scanner on them. *)

Definition debug_build : Build := {| dchecks_enabled := true |}.

Definition int_col0 : SlotDescriptor :=
  {| slot_type := TYPE_INT; col_pos := 0; tuple_offset := 1 |}.
Definition string_col1 : SlotDescriptor :=
  {| slot_type := TYPE_STRING; col_pos := 1; tuple_offset := 2 |}.
Definition int_col2 : SlotDescriptor :=
  {| slot_type := TYPE_INT; col_pos := 2; tuple_offset := 3 |}.

Definition digit_value (data : string) : option Z :=
  match data with
  | String c _ =>
      let n := Z.of_nat (Ascii.nat_of_ascii c) in
      if (48 <=? n) && (n <=? 57) then Some (n - 48) else None
  | EmptyString => None
  end.

Definition toy_parse (ty : PrimitiveType) (data : string) (len : Z) : option Z :=
  match ty with
  | TYPE_STRING => Some len
  | _ => if 0 <? len then digit_value data else None
  end.

Definition toy_WriteSlot (desc : SlotDescriptor) (t : Tuple) (data : string)
    (len : Z) (copy_string need_escape : bool) : Tuple * bool :=
  match toy_parse (slot_type desc) data len with
  | Some v => (<[Z.to_nat (tuple_offset desc) := v]> t, true)
  | None => (t, false)
  end.

Definition toy_converter : TextConverter := {| WriteSlot := toy_WriteSlot |}.

Definition toy_slot_fn (desc : SlotDescriptor) : SlotFn :=
  fun t data len =>
    toy_WriteSlot desc t data (fst (decode_len len)) false (snd (decode_len len)).

Definition int_col0_gt_5 (m : Memory) (row : TupleRow) : bool :=
  match row !! 0%nat with
  | Some p =>
      match tuples m !! p with
      | Some t =>
          match t !! 1%nat with
          | Some v => 5 <? v
          | None => false
          end
      | None => false
      end
  | None => false
  end.

Definition toy_conjunct : Expr :=
  {| GetValue := int_col0_gt_5;
     codegen_fn := Some int_col0_gt_5;
     scratch_buffer_size := 0 |}.


Definition toy_driver : DriverFn :=
  {| call_sites := [CallNamed "GetMemory"; CallNamed "WriteCompleteTuple";
                    CallNamed "ReportTupleParseError"] |}.


Definition toy_codegen : LlvmCodeGen :=
  {| CodegenWriteSlot := fun desc => Some (toy_slot_fn desc);
     GenerateLlvmStruct := true;
     verify_fused := fun _ => true;
     HDFS_SCANNER_WRITE_ALIGNED_TUPLES := Some toy_driver;
     verify_driver := fun _ => true |}.


Definition toy_tuple_desc : TupleDescriptor :=
  {| byte_size := 4; num_null_bytes := 1; string_slots := [string_col1] |}.

Definition toy_node_with (slots : list SlotDescriptor) (conjuncts : list Expr)
    (compact : bool) (fn : option DriverFn) : HdfsScanNode :=
  {| tuple_desc := toy_tuple_desc;
     materialized_slots := slots;
     tuple_idx := 0;
     num_tuples_per_row := 1;
     num_partition_keys := 0;
     num_materialized_partition_keys := 0;
     compact_data := compact;
     GetConjuncts := conjuncts;
     ComputeSlotMaterializationOrder := [0; 1; 1];
     GetCodegenFn := fun _ => fn;
     num_scanners_codegen_enabled := 0;
     num_scanners_codegen_disabled := 0;
     materialized_row_batches := [];
     released_conjuncts := [] |}.

Definition toy_node : HdfsScanNode :=
  toy_node_with [int_col0; string_col1; int_col2] [toy_conjunct] false None.

Definition toy_state_with (abort : bool) (limit : Z) : RuntimeState :=
  {| batch_size := 4;
     abort_on_error := abort;
     max_errors := limit;
     error_log := [];
     file_errors := [];
     query_state := OK;
     codegen := Some toy_codegen |}.

Definition toy_stream : Stream :=
  {| filename := "part-00000"; stream_compact_data := false |}.

Definition toy_context_with (cancel : bool) (template : option Z) : ScannerContext :=
  {| cancelled := cancel;
     GetStream := toy_stream;
     partition_template_tuple := template;
     completed_resources := [] |}.

(** Tuple memory: the tuple under construction at address 100 and a
    partition template at address 200. *)
Definition toy_memory : Memory :=
  {| tuples := <[100 := [0; 0; 0; 0]]> (<[200 := [0; 9; 0; 0]]> ∅); brk := 1000 |}.

Definition toy_log_row (row_idx : Z) : string := "row " +:+ pretty row_idx.

Definition toy_scanner_with (node : HdfsScanNode) (state : RuntimeState)
    (context : ScannerContext) : HdfsScanner :=
  fst (Prepare (HdfsScanner_new node state toy_converter (Some toy_log_row) toy_memory)
         context).

Definition toy_scanner : HdfsScanner :=
  toy_scanner_with toy_node (toy_state_with false 10) (toy_context_with false None).

(** A scanner whose error log is full. *)
Definition full_log_scanner : HdfsScanner :=
  toy_scanner_with toy_node (toy_state_with false 0) (toy_context_with false None).

(** A scanner that aborts on the first parse error. *)
Definition aborting_scanner : HdfsScanner :=
  toy_scanner_with toy_node (toy_state_with true 10) (toy_context_with false None).

(** A scanner of a split whose rows are the partition template alone. *)
Definition template_scanner : HdfsScanner :=
  toy_scanner_with toy_node (toy_state_with false 10) (toy_context_with false (Some 200)).

Definition toy_partition : HdfsPartitionDescriptor := {| escape_char := 0 |}.

Definition toy_fields_accepted : list FieldLocation :=
  [{| start := "7"; len := 1 |}; {| start := "abc"; len := 3 |};
   {| start := "4"; len := 1 |}].

Definition toy_fields_rejected : list FieldLocation :=
  [{| start := "3"; len := 1 |}; {| start := "abc"; len := 3 |};
   {| start := "x"; len := 1 |}].

Definition toy_fields_escaped : list FieldLocation :=
  [{| start := "7"; len := 1 |}; {| start := "a\bc"; len := -4 |};
   {| start := "x"; len := 1 |}].

(** The tuple writer generated for [toy_node]. *)
Definition toy_fused : FusedFn :=
  [ {| body := [ZeroNullByte 0; StoreTupleInRow 0]; term := Br |};
    {| body := [CallWriteSlot 0 (toy_slot_fn int_col0)];
       term := CondBrConjunct int_col0_gt_5 |};
    {| body := [CallWriteSlot 1 (toy_slot_fn string_col1);
                CallWriteSlot 2 (toy_slot_fn int_col2);
                StoreErrorInRow];
       term := RetTrue |};
    {| body := []; term := RetFalse |} ].

(** A scanner whose parse status has been set by a column error under
    abort-on-error. *)
Definition failed_scanner : HdfsScanner :=
  ReportColumnParseError aborting_scanner int_col2 "x" 1.

(** A scan node that holds a generated driving routine for every format. *)
Definition codegen_node : HdfsScanNode :=
  toy_node_with [int_col0; string_col1; int_col2] [toy_conjunct] false (Some toy_driver).

Definition codegen_scanner : HdfsScanner :=
  toy_scanner_with codegen_node (toy_state_with false 10) (toy_context_with false None).

(** A scanner that aborts on error and whose error log is full. *)
Definition aborting_full_log_scanner : HdfsScanner :=
  toy_scanner_with toy_node (toy_state_with true 0) (toy_context_with false None).

(** A scanner of the base class: [LogRowParseError] is not overridden. *)
Definition base_class_scanner : HdfsScanner :=
  fst (Prepare (HdfsScanner_new toy_node (toy_state_with false 10) toy_converter None
                  toy_memory)
         (toy_context_with false None)).

(** The example scanner after four rows have been committed. *)
Definition committed_scanner : HdfsScanner :=
  match @CommitRows debug_build toy_scanner 4 with
  | Ret (s, _) => s
  | Trap _ => toy_scanner
  end.



(** * Basic facts *)

Arguments wrap32 : simpl never.
Arguments int_add : simpl never.
Arguments int_sub : simpl never.
Arguments int_mul : simpl never.
Arguments int_neg : simpl never.

Lemma wrap32_id (z : Z) : is_int z -> wrap32 z = z.
Proof.
  unfold is_int, INT_MIN, INT_MAX, wrap32. intros Hz.
  rewrite Z.mod_small by lia. lia.
Qed.

Lemma int_mul_id (a b : Z) : is_int (a * b) -> int_mul a b = a * b.
Proof. apply wrap32_id. Qed.

Lemma int_sub_id (a b : Z) : is_int (a - b) -> int_sub a b = a - b.
Proof. apply wrap32_id. Qed.

Lemma int_add_id (a b : Z) : is_int (a + b) -> int_add a b = a + b.
Proof. apply wrap32_id. Qed.

Lemma int_neg_abs (z : Z) : INT_MIN < z -> z < 0 -> int_neg z = Z.abs z.
Proof.
  intros Hlo Hneg. unfold int_neg. rewrite wrap32_id.
  - lia.
  - unfold is_int, INT_MIN, INT_MAX in *. lia.
Qed.

Lemma u8_of_bool_true_iff (b : bool) : u8_true (u8_of_bool b) = b.
Proof. destruct b; reflexivity. Qed.

Lemma lor_u8_of_bool (a b : bool) :
  Z.lor (u8_of_bool a) (u8_of_bool b) = u8_of_bool (a || b).
Proof. destruct a, b; reflexivity. Qed.

Section BasicFacts.
Context `{Build}.

Lemma DCHECK_ok (c : bool) : c = true -> DCHECK c = Ret tt.
Proof. intros ->. unfold DCHECK. rewrite andb_false_r. reflexivity. Qed.

Lemma DCHECK_release (c : bool) : dchecks_enabled = false -> DCHECK c = Ret tt.
Proof. intros Hr. unfold DCHECK. rewrite Hr. reflexivity. Qed.

Lemma DCHECK_fails (c : bool) :
  dchecks_enabled = true -> c = false -> DCHECK c = Trap DCheckFailed.
Proof. intros Hd ->. unfold DCHECK. rewrite Hd. reflexivity. Qed.

End BasicFacts.

(** Discharges the DCHECKs whose condition follows by arithmetic. *)
Ltac dcheck_holds :=
  first
    [ reflexivity
    | apply Z.leb_le; lia
    | apply Z.ltb_lt; lia
    | apply Z.eqb_eq; lia
    | apply negb_true_iff, Z.eqb_neq; lia ].

(** Reduction of the monadic skeleton only: the states bound along the way
    are left as they are. *)
Ltac bind_step := cbn [mbind Res_mbind Res_bind deref].

Ltac pass_dchecks := repeat (rewrite DCHECK_ok by dcheck_holds; bind_step).

Lemma array_get_Some {A : Type} (a : list A) (i : nat) (x : A) :
  a !! i = Some x -> array_get a i = Ret x.
Proof. intros Hx. unfold array_get. rewrite Hx. reflexivity. Qed.

Lemma array_set_lt {A : Type} (a : list A) (i : nat) (x : A) :
  (i < length a)%nat -> array_set a i x = Ret (<[i := x]> a).
Proof. intros Hi. unfold array_set. rewrite decide_True by assumption. reflexivity. Qed.


Lemma store_store (m : Memory) (p : Z) (t1 t2 : Tuple) :
  store_tuple (store_tuple m p t1) p t2 = store_tuple m p t2.
Proof. unfold store_tuple. simpl. rewrite insert_insert_eq. reflexivity. Qed.
(** * Specialization eligibility (C8, C9) *)

Section Eligibility.
Context `{Build}.









End Eligibility.

(** * Batch assembly (C3) *)

Section BatchAssembly.
Context `{Build}.

(** C3. [CommitRows(n)] commits [n] rows to the current batch and moves the
    tuple cursor by [n] tuple widths.  When the batch is then full or at
    its resource limit, it is attached to the context as not final, queued
    at the scan node, and a fresh batch with a fresh tuple buffer takes its
    place.  The returned status is CANCELLED when the context is
    cancelled, otherwise the query state when that is an error, otherwise
    OK. *)
Theorem CommitRows_commits_hands_off_and_checks
    (s : HdfsScanner) (b : RowBatch.t) (ctx : ScannerContext) (n : Z) :
  batch_ s = Some b ->
  context_ s = Some ctx ->
  0 <= RowBatch.num_rows b ->
  RowBatch.capacity b <= INT_MAX ->
  0 <= n <= RowBatch.capacity b - RowBatch.num_rows b ->
  is_int (byte_size (tuple_desc (scan_node_ s)) * n) ->
  let committed :=
    RowBatch.set_has_in_flight_row false
      (RowBatch.set_num_rows (RowBatch.num_rows b + n) b) in
  let status :=
    if cancelled ctx then CANCELLED
    else if ok (CheckQueryState (state_ s)) then OK
    else CheckQueryState (state_ s) in
  exists s',
    CommitRows s n = Ret (s', status) /\
    (if RowBatch.IsFull committed || RowBatch.AtResourceLimit committed
     then
       materialized_row_batches (scan_node_ s')
         = materialized_row_batches (scan_node_ s) ++ [committed] /\
       context_ s' = Some (AttachCompletedResources ctx committed false) /\
       batch_ s'
         = Some (RowBatch.new (num_tuples_per_row (scan_node_ s))
                   (batch_size (state_ s))) /\
       tuple_mem_ s' = brk (mem s)
     else
       materialized_row_batches (scan_node_ s')
         = materialized_row_batches (scan_node_ s) /\
       context_ s' = Some ctx /\
       batch_ s' = Some committed /\
       tuple_mem_ s'
         = tuple_mem_ s + byte_size (tuple_desc (scan_node_ s)) * n).
Proof.
  intros Hbatch Hctx Hrows Hcap Hn Hbytes committed status.
  assert (Hstatus :
    forall s0 : HdfsScanner,
      (if cancelled ctx then Ret (s0, CANCELLED)
       else if negb (ok (CheckQueryState (state_ s)))
            then Ret (s0, CheckQueryState (state_ s))
            else Ret (s0, OK)) = Ret (s0, status)).
  { intros s0. unfold status. destruct (cancelled ctx); [reflexivity |].
    destruct (ok (CheckQueryState (state_ s))); reflexivity. }
  unfold CommitRows. rewrite Hbatch. pass_dchecks.
  rewrite DCHECK_ok.
  2:{ apply Z.leb_le. unfold int_sub. rewrite wrap32_id; [lia |].
      unfold is_int, INT_MIN, INT_MAX in *. lia. }
  bind_step. unfold RowBatch.CommitRows. pass_dchecks.
  fold committed.
  destruct (RowBatch.IsFull committed || RowBatch.AtResourceLimit committed);
    simpl; rewrite Hctx; simpl;
    rewrite (int_mul_id (byte_size (tuple_desc (scan_node_ s))) n Hbytes).
  - eexists. split; [apply Hstatus |].
    split; [reflexivity |]. split; [reflexivity |]. split; reflexivity.
  - eexists. split; [apply Hstatus |].
    split; [reflexivity |]. split; [exact Hctx |]. split; reflexivity.
Qed.

End BatchAssembly.

(** * Empty tuples (C4, C10) *)

Section EmptyTuples.
Context `{Build}.

Lemma AddRow_room (b : RowBatch.t) :
  RowBatch.num_rows b + 1 <= RowBatch.capacity b ->
  RowBatch.AddRow b = (RowBatch.num_rows b, RowBatch.set_has_in_flight_row true b).
Proof.
  intros Hroom. unfold RowBatch.AddRow, RowBatch.AddRows.
  replace (RowBatch.capacity b <? RowBatch.num_rows b + 1) with false
    by (symmetry; apply Z.ltb_ge; lia).
  reflexivity.
Qed.

Lemma set_row_tuple_in_flight (b : RowBatch.t) (r : TupleRow) (idx : nat) (tuple : Z) :
  0 <= RowBatch.num_rows b ->
  RowBatch.tuple_ptrs b !! Z.to_nat (RowBatch.num_rows b) = Some r ->
  (idx < length r)%nat ->
  set_row_tuple (RowBatch.set_has_in_flight_row true b) (RowBatch.num_rows b) idx tuple
  = Ret (RowBatch.PutRow (RowBatch.set_has_in_flight_row true b) (RowBatch.num_rows b)
           (<[idx := tuple]> r),
         <[idx := tuple]> r).
Proof.
  intros Hrows Hr Hidx. unfold set_row_tuple, RowBatch.GetRow, RowBatch.LoadRow.
  cbv zeta.
  replace (RowBatch.num_rows b <? 0) with false by (symmetry; apply Z.ltb_ge; lia).
  change (RowBatch.tuple_ptrs (RowBatch.set_has_in_flight_row true b))
    with (RowBatch.tuple_ptrs b).
  rewrite (array_get_Some _ _ _ Hr). simpl.
  unfold SetTuple. rewrite array_set_lt by assumption. reflexivity.
Qed.

Lemma CommitLastRow_room (b : RowBatch.t) :
  RowBatch.num_rows b + 1 <= RowBatch.capacity b ->
  RowBatch.CommitLastRow b
  = Ret (RowBatch.set_has_in_flight_row false
           (RowBatch.set_num_rows (RowBatch.num_rows b + 1) b)).
Proof.
  intros Hroom. unfold RowBatch.CommitLastRow, RowBatch.CommitRows.
  pass_dchecks. reflexivity.
Qed.

Lemma rows_wide_insert (idx : nat) (rows : list TupleRow) (k : nat) (r : TupleRow) (p : Z) :
  rows_wide idx rows -> rows !! k = Some r -> rows_wide idx (<[k := <[idx := p]> r]> rows).
Proof.
  intros Hwide Hr. unfold rows_wide in *. apply Forall_insert; [assumption |].
  cbv beta. rewrite length_insert. exact (proj1 (Forall_lookup _ _) Hwide k r Hr).
Qed.

Lemma stamp_batch_spec (idx : nat) (tuple : Z) (count : nat) :
  forall b : RowBatch.t,
    0 <= RowBatch.num_rows b ->
    RowBatch.num_rows b + Z.of_nat count <= RowBatch.capacity b ->
    RowBatch.capacity b <= Z.of_nat (length (RowBatch.tuple_ptrs b)) ->
    rows_wide idx (RowBatch.tuple_ptrs b) ->
    exists b',
      stamp_batch count b idx tuple = Ret b' /\
      RowBatch.num_rows b' = RowBatch.num_rows b + Z.of_nat count /\
      RowBatch.capacity b' = RowBatch.capacity b /\
      (forall k : nat,
         (k < Z.to_nat (RowBatch.num_rows b))%nat ->
         RowBatch.tuple_ptrs b' !! k = RowBatch.tuple_ptrs b !! k) /\
      (forall k : nat,
         (Z.to_nat (RowBatch.num_rows b) <= k < Z.to_nat (RowBatch.num_rows b) + count)%nat ->
         exists r, RowBatch.tuple_ptrs b' !! k = Some r /\ r !! idx = Some tuple).
Proof.
  induction count as [| count IH]; intros b Hrows Hroom Hlen Hwide.
  - exists b. simpl. repeat split; try lia; intros k Hk; lia.
  - simpl stamp_batch.
    unfold RowBatch.IsFull. pass_dchecks. rewrite AddRow_room by lia.
    unfold RowBatch.INVALID_ROW_INDEX. pass_dchecks.
    destruct (lookup_lt_is_Some_2 (RowBatch.tuple_ptrs b)
                (Z.to_nat (RowBatch.num_rows b))) as [r Hr]; [lia |].
    assert (Hidx : (idx < length r)%nat)
      by exact (proj1 (Forall_lookup _ _) Hwide _ _ Hr).
    rewrite (set_row_tuple_in_flight b r idx tuple Hrows Hr Hidx). simpl.
    rewrite CommitLastRow_room by (simpl; lia). simpl.
    fold (stamp_one b idx tuple r).
    destruct (IH (stamp_one b idx tuple r)) as (b' & Hrun & Hnum & Hcap & Hold & Hnew).
    + simpl. lia.
    + simpl. lia.
    + simpl. rewrite length_insert. lia.
    + simpl. apply rows_wide_insert; assumption.
    + exists b'. split; [exact Hrun |]. simpl in Hnum, Hcap, Hold, Hnew.
      repeat split.
      * lia.
      * exact Hcap.
      * intros k Hk. rewrite Hold by lia.
        apply list_lookup_insert_ne. lia.
      * intros k Hk.
        destruct (decide (k = Z.to_nat (RowBatch.num_rows b))) as [-> | Hne].
        -- exists (<[idx := tuple]> r). split.
           ++ rewrite Hold by lia. apply list_lookup_insert_eq.
              apply lookup_lt_Some in Hr. exact Hr.
           ++ apply list_lookup_insert_eq. exact Hidx.
        -- apply Hnew. lia.
Qed.

Lemma stamp_rows_spec (idx : nat) (tuple : Z) (count : nat) :
  forall (rows : list TupleRow) (row : nat),
    (row + count <= length rows)%nat ->
    rows_wide idx rows ->
    exists rows',
      stamp_rows count rows row idx tuple = Ret rows' /\
      length rows' = length rows /\
      (forall k : nat, (k < row)%nat -> rows' !! k = rows !! k) /\
      (forall k : nat,
         (row <= k < row + count)%nat ->
         exists r, rows' !! k = Some r /\ r !! idx = Some tuple).
Proof.
  induction count as [| count IH]; intros rows row Hroom Hwide.
  - exists rows. simpl. repeat split; intros k Hk; lia.
  - simpl stamp_rows.
    destruct (lookup_lt_is_Some_2 rows row) as [r Hr]; [lia |].
    assert (Hidx : (idx < length r)%nat)
      by exact (proj1 (Forall_lookup _ _) Hwide _ _ Hr).
    rewrite (array_get_Some _ _ _ Hr). simpl.
    unfold SetTuple. rewrite array_set_lt by assumption. simpl.
    destruct (IH (<[row := <[idx := tuple]> r]> rows) (S row))
      as (rows' & Hrun & Hlen & Hold & Hnew).
    + rewrite length_insert. lia.
    + apply rows_wide_insert; assumption.
    + exists rows'. split; [exact Hrun |]. rewrite length_insert in Hlen.
      repeat split.
      * exact Hlen.
      * intros k Hk. rewrite Hold by lia. apply list_lookup_insert_ne. lia.
      * intros k Hk. destruct (decide (k = row)) as [-> | Hne].
        -- exists (<[idx := tuple]> r). split.
           ++ rewrite Hold by lia. apply list_lookup_insert_eq.
              apply lookup_lt_Some in Hr. exact Hr.
           ++ apply list_lookup_insert_eq. exact Hidx.
        -- apply Hnew. lia.
Qed.

(** C4. With a template tuple and [n >= 1], both [WriteEmptyTuples]
    variants set the template in the first row and evaluate the conjuncts
    on that row, once.  When the conjuncts reject it, the batch-level
    variant commits no row and both variants report 0.  When they accept
    it, the batch-level variant has committed exactly [n] rows and the
    row-cursor variant has stamped exactly [n] rows and reports [n]; each
    of these rows references the template tuple. *)
Theorem WriteEmptyTuples_replicates_template
    (s : HdfsScanner) (template : Z) (exprs : list Expr)
    (row_batch : RowBatch.t) (batch_row : TupleRow)
    (context : ScannerContext) (rows : list TupleRow) (row : nat)
    (cursor_row : TupleRow) (n : Z) :
  1 <= n ->
  template_tuple_ s = Some template ->
  conjuncts_ s = Some exprs ->
  0 <= RowBatch.num_rows row_batch ->
  RowBatch.num_rows row_batch + n <= RowBatch.capacity row_batch ->
  RowBatch.capacity row_batch <= INT_MAX ->
  RowBatch.capacity row_batch <= Z.of_nat (length (RowBatch.tuple_ptrs row_batch)) ->
  rows_wide (tuple_idx (scan_node_ s)) (RowBatch.tuple_ptrs row_batch) ->
  RowBatch.tuple_ptrs row_batch !! Z.to_nat (RowBatch.num_rows row_batch)
    = Some batch_row ->
  (row + Z.to_nat n <= length rows)%nat ->
  rows_wide (tuple_idx (scan_node_ s)) rows ->
  rows !! row = Some cursor_row ->
  let idx := tuple_idx (scan_node_ s) in
  let first_batch_row := <[idx := template]> batch_row in
  let first_cursor_row := <[idx := template]> cursor_row in
  (exists s' b' reported,
     WriteEmptyTuples_batch s row_batch n = Ret (s', b', reported) /\
     trace s' = trace s ++ [EvalConjunctsCall first_batch_row] /\
     if EvalConjuncts exprs (num_conjuncts_ s) (mem s) first_batch_row
     then
       RowBatch.num_rows b' = RowBatch.num_rows row_batch + n /\
       forall k : nat,
         (Z.to_nat (RowBatch.num_rows row_batch) <= k
          < Z.to_nat (RowBatch.num_rows row_batch) + Z.to_nat n)%nat ->
         exists r, RowBatch.tuple_ptrs b' !! k = Some r /\ r !! idx = Some template
     else
       RowBatch.num_rows b' = RowBatch.num_rows row_batch /\ reported = 0) /\
  (exists s' rows' reported,
     WriteEmptyTuples_rows s context rows row n = Ret (s', rows', reported) /\
     trace s' = trace s ++ [EvalConjunctsCall first_cursor_row] /\
     if EvalConjuncts exprs (num_conjuncts_ s) (mem s) first_cursor_row
     then
       reported = n /\
       forall k : nat,
         (row <= k < row + Z.to_nat n)%nat ->
         exists r, rows' !! k = Some r /\ r !! idx = Some template
     else reported = 0).
Proof.
  intros Hn Htemplate Hexprs Hrows Hroom Hcap Hlen Hwide Hbatch_row
    Hcursor_room Hcursor_wide Hcursor_row idx first_batch_row first_cursor_row.
  assert (Hidx_b : (idx < length batch_row)%nat)
    by exact (proj1 (Forall_lookup _ _) Hwide _ _ Hbatch_row).
  assert (Hidx_c : (idx < length cursor_row)%nat)
    by exact (proj1 (Forall_lookup _ _) Hcursor_wide _ _ Hcursor_row).
  split.
  - unfold WriteEmptyTuples_batch. pass_dchecks. rewrite Htemplate.
    rewrite AddRow_room by lia. fold idx.
    rewrite (set_row_tuple_in_flight row_batch batch_row idx template Hrows
               Hbatch_row Hidx_b).
    bind_step. unfold eval_conjuncts. rewrite Hexprs. bind_step.
    fold first_batch_row.
    change (mem (set_trace _ s)) with (mem s).
    change (num_conjuncts_ (set_trace _ s)) with (num_conjuncts_ s).
    destruct (EvalConjuncts exprs (num_conjuncts_ s) (mem s) first_batch_row);
      cbn [negb].
    + rewrite CommitLastRow_room by (simpl; lia). bind_step.
      fold (stamp_one row_batch idx template batch_row).
      assert (Hpred : int_sub n 1 = n - 1).
      { apply int_sub_id. unfold is_int, INT_MIN, INT_MAX in *. lia. }
      rewrite Hpred.
      rewrite DCHECK_ok.
      2:{ apply Z.leb_le. rewrite int_sub_id.
          - simpl. lia.
          - simpl. unfold is_int, INT_MIN, INT_MAX in *. lia. }
      bind_step.
      destruct (stamp_batch_spec idx template (Z.to_nat (n - 1))
                  (stamp_one row_batch idx template batch_row))
        as (b' & Hrun & Hnum & _ & Hold & Hnew).
      * simpl. lia.
      * simpl. lia.
      * simpl. rewrite length_insert. lia.
      * simpl. apply rows_wide_insert; assumption.
      * change (stamp_batch (Z.to_nat (n - 1)) _ _ template)
          with (stamp_batch (Z.to_nat (n - 1))
                  (stamp_one row_batch idx template batch_row) idx template).
        rewrite Hrun. bind_step.
        eexists _, b', (n - 1). split; [reflexivity |]. split; [reflexivity |].
        simpl in Hnum, Hold, Hnew. split; [lia |].
        intros k Hk.
        destruct (decide (k = Z.to_nat (RowBatch.num_rows row_batch))) as [-> | Hne].
        -- exists first_batch_row. split.
           ++ rewrite Hold by lia. apply list_lookup_insert_eq.
              apply lookup_lt_Some in Hbatch_row. exact Hbatch_row.
           ++ apply list_lookup_insert_eq. exact Hidx_b.
        -- apply Hnew. lia.
    + eexists _, _, 0. split; [reflexivity |]. split; [reflexivity |].
      split; reflexivity.
  - unfold WriteEmptyTuples_rows. pass_dchecks.
    replace (n =? 0) with false by (symmetry; apply Z.eqb_neq; lia).
    rewrite Htemplate. rewrite (array_get_Some _ _ _ Hcursor_row). bind_step.
    unfold SetTuple. fold idx. rewrite array_set_lt by assumption. bind_step.
    unfold eval_conjuncts. rewrite Hexprs. bind_step. fold first_cursor_row.
    change (mem (set_trace _ s)) with (mem s).
    change (num_conjuncts_ (set_trace _ s)) with (num_conjuncts_ s).
    destruct (EvalConjuncts exprs (num_conjuncts_ s) (mem s) first_cursor_row);
      cbn [negb].
    + destruct (stamp_rows_spec idx template (Z.to_nat (n - 1))
                  (<[row := first_cursor_row]> rows) (S row))
        as (rows' & Hrun & _ & Hold & Hnew).
      * rewrite length_insert. lia.
      * apply rows_wide_insert; assumption.
      * change (stamp_rows (Z.to_nat (n - 1)) _ _ _ template)
          with (stamp_rows (Z.to_nat (n - 1)) (<[row := first_cursor_row]> rows)
                  (S row) idx template).
        rewrite Hrun. bind_step.
        eexists _, rows', n. split; [reflexivity |]. split; [reflexivity |].
        split; [reflexivity |].
        intros k Hk. destruct (decide (k = row)) as [-> | Hne].
        -- exists first_cursor_row. split.
           ++ rewrite Hold by lia. apply list_lookup_insert_eq.
              apply lookup_lt_Some in Hcursor_row. exact Hcursor_row.
           ++ apply list_lookup_insert_eq. exact Hidx_c.
        -- apply Hnew. lia.
    + eexists _, _, 0. split; [reflexivity |]. split; reflexivity.
Qed.

(** X1. What the batch-level variant returns when the template passes: it
    has committed [n] rows and returns [n - 1], the count after the
    decrement that follows the first committed row. *)
Lemma WriteEmptyTuples_batch_reports_predecessor
    (s : HdfsScanner) (template : Z) (exprs : list Expr)
    (row_batch : RowBatch.t) (batch_row : TupleRow) (n : Z) :
  1 <= n ->
  template_tuple_ s = Some template ->
  conjuncts_ s = Some exprs ->
  0 <= RowBatch.num_rows row_batch ->
  RowBatch.num_rows row_batch + n <= RowBatch.capacity row_batch ->
  RowBatch.capacity row_batch <= INT_MAX ->
  RowBatch.capacity row_batch <= Z.of_nat (length (RowBatch.tuple_ptrs row_batch)) ->
  rows_wide (tuple_idx (scan_node_ s)) (RowBatch.tuple_ptrs row_batch) ->
  RowBatch.tuple_ptrs row_batch !! Z.to_nat (RowBatch.num_rows row_batch)
    = Some batch_row ->
  EvalConjuncts exprs (num_conjuncts_ s) (mem s)
    (<[tuple_idx (scan_node_ s) := template]> batch_row) = true ->
  exists s' b',
    WriteEmptyTuples_batch s row_batch n = Ret (s', b', n - 1) /\
    RowBatch.num_rows b' = RowBatch.num_rows row_batch + n.
Proof.
  intros Hn Htemplate Hexprs Hrows Hroom Hcap Hlen Hwide Hbatch_row Hpass.
  set (idx := tuple_idx (scan_node_ s)) in *.
  assert (Hidx_b : (idx < length batch_row)%nat)
    by exact (proj1 (Forall_lookup _ _) Hwide _ _ Hbatch_row).
  unfold WriteEmptyTuples_batch. pass_dchecks. rewrite Htemplate.
  rewrite AddRow_room by lia. fold idx.
  rewrite (set_row_tuple_in_flight row_batch batch_row idx template Hrows
             Hbatch_row Hidx_b).
  bind_step. unfold eval_conjuncts. rewrite Hexprs. bind_step.
  change (mem (set_trace _ s)) with (mem s).
  change (num_conjuncts_ (set_trace _ s)) with (num_conjuncts_ s).
  rewrite Hpass. cbn [negb].
  rewrite CommitLastRow_room by (simpl; lia). bind_step.
  fold (stamp_one row_batch idx template batch_row).
  assert (Hpred : int_sub n 1 = n - 1).
  { apply int_sub_id. unfold is_int, INT_MIN, INT_MAX in *. lia. }
  rewrite Hpred.
  rewrite DCHECK_ok.
  2:{ apply Z.leb_le. rewrite int_sub_id.
      - simpl. lia.
      - simpl. unfold is_int, INT_MIN, INT_MAX in *. lia. }
  bind_step.
  destruct (stamp_batch_spec idx template (Z.to_nat (n - 1))
              (stamp_one row_batch idx template batch_row))
    as (b' & Hrun & Hnum & _).
  - simpl. lia.
  - simpl. lia.
  - simpl. rewrite length_insert. lia.
  - simpl. apply rows_wide_insert; assumption.
  - change (stamp_batch (Z.to_nat (n - 1)) _ _ template)
      with (stamp_batch (Z.to_nat (n - 1))
              (stamp_one row_batch idx template batch_row) idx template).
    rewrite Hrun. bind_step. eexists _, b'. split; [reflexivity |].
    simpl in Hnum. lia.
Qed.

(** C10. The two variants differ at [n = 0].  The row-cursor variant
    returns 0 at once: no row is touched and no conjunct is evaluated.  The
    batch-level variant asserts [n > 0]: with DCHECKs enabled a call with
    [n <= 0] fails that assertion. *)
Theorem WriteEmptyTuples_zero_is_asymmetric
    (s : HdfsScanner) (context : ScannerContext) (rows : list TupleRow) (row : nat)
    (row_batch : RowBatch.t) (n : Z) :
  WriteEmptyTuples_rows s context rows row 0 = Ret (s, rows, 0) /\
  (dchecks_enabled = true -> n <= 0 ->
   WriteEmptyTuples_batch s row_batch n = Trap DCheckFailed).
Proof.
  split.
  - unfold WriteEmptyTuples_rows. pass_dchecks. reflexivity.
  - intros Hdebug Hn. unfold WriteEmptyTuples_batch.
    rewrite DCHECK_fails; [reflexivity | assumption |].
    apply Z.ltb_ge. lia.
Qed.

End EmptyTuples.

(** * The interpreted tuple writer (C2, C5) *)

Lemma store_tuple_same (m : Memory) (p : Z) (t : Tuple) :
  tuples m !! p = Some t -> store_tuple m p t = m.
Proof. intros Ht. unfold store_tuple. rewrite insert_id by exact Ht. reflexivity. Qed.

Lemma load_tuple_Some (m : Memory) (p : Z) (t : Tuple) :
  tuples m !! p = Some t -> load_tuple m p = Ret t.
Proof. intros Ht. unfold load_tuple. rewrite Ht. reflexivity. Qed.


Lemma decode_len_nonnegative (len : Z) : 0 <= len -> decode_len len = (len, false).
Proof.
  intros Hpos. unfold decode_len.
  replace (len <? 0) with false by (symmetry; apply Z.ltb_ge; assumption).
  reflexivity.
Qed.

Lemma length_convert_slots (conv : TextConverter) (compact : bool)
    (slots : list SlotDescriptor) :
  forall (fields : list FieldLocation) (t : list Z),
    (length slots <= length fields)%nat ->
    length (snd (convert_slots conv compact slots fields t)) = length slots.
Proof.
  induction slots as [| desc slots IH]; intros fields t Hlen; [reflexivity |].
  destruct fields as [| f fields]; simpl in Hlen; [lia |].
  simpl. f_equal. apply IH. lia.
Qed.

Lemma length_store_flags (flags : list bool) :
  forall (i : nat) (ef : list Z), length (store_flags i flags ef) = length ef.
Proof.
  induction flags as [| parsed flags IH]; intros i ef; [reflexivity |].
  simpl. rewrite IH. apply length_insert.
Qed.

Lemma store_flags_before (flags : list bool) :
  forall (i k : nat) (ef : list Z),
    (k < i)%nat -> store_flags i flags ef !! k = ef !! k.
Proof.
  induction flags as [| parsed flags IH]; intros i k ef Hk; [reflexivity |].
  simpl. rewrite IH by lia. apply list_lookup_insert_ne. lia.
Qed.

Lemma store_flags_lookup (flags : list bool) :
  forall (i k : nat) (ef : list Z) (parsed : bool),
    (i + length flags <= length ef)%nat ->
    flags !! k = Some parsed ->
    store_flags i flags ef !! (i + k)%nat = Some (u8_of_bool (negb parsed)).
Proof.
  induction flags as [| p flags IH]; intros i k ef parsed Hlen Hk; [discriminate |].
  simpl in Hlen. destruct k as [| k]; simpl in Hk.
  - injection Hk as ->. simpl. rewrite Nat.add_0_r.
    rewrite store_flags_before by lia. apply list_lookup_insert_eq. lia.
  - simpl. replace (i + S k)%nat with (S i + k)%nat by lia.
    apply IH; [rewrite length_insert; lia | exact Hk].
Qed.

Lemma store_flags_after (flags : list bool) :
  forall (i k : nat) (ef : list Z),
    (i + length flags <= k)%nat -> store_flags i flags ef !! k = ef !! k.
Proof.
  induction flags as [| parsed flags IH]; intros i k ef Hk; [reflexivity |].
  simpl in *. rewrite IH by lia. apply list_lookup_insert_ne. lia.
Qed.

Lemma fold_lor_flags (flags : list bool) :
  forall b : bool,
    fold_left (fun e parsed => Z.lor e (u8_of_bool (negb parsed))) flags (u8_of_bool b)
    = u8_of_bool (b || existsb negb flags).
Proof.
  induction flags as [| parsed flags IH]; intros b.
  - simpl. rewrite orb_false_r. reflexivity.
  - simpl. rewrite lor_u8_of_bool, IH, orb_assoc. reflexivity.
Qed.

(** The slot loop computes [convert_slots]: all slots are converted, each
    flag is stored, and the call of every conversion is recorded. *)
Lemma write_slots_spec (tuple : Z) (st : Stream) (slots : list SlotDescriptor) :
  forall (i : nat) (s : HdfsScanner) (fields : list FieldLocation)
         (error_fields : list Z) (error_in_row : Z) (t : list Z),
    stream_ s = Some st ->
    tuples (mem s) !! tuple = Some t ->
    (length slots <= length (drop i fields))%nat ->
    (i + length slots <= length error_fields)%nat ->
    let r := convert_slots (text_converter_ s) (stream_compact_data st) slots
               (drop i fields) t in
    write_slots s slots i fields tuple error_fields error_in_row
    = Ret (set_mem (store_tuple (mem s) tuple (fst r))
             (set_trace (trace s ++ slot_calls (stream_compact_data st) slots
                                      (drop i fields)) s),
           store_flags i (snd r) error_fields,
           fold_left (fun e parsed => Z.lor e (u8_of_bool (negb parsed))) (snd r)
             error_in_row).
Proof.
  induction slots as [| desc slots IH];
    intros i s fields error_fields error_in_row t Hstream Ht Hfields Hflags r.
  - subst r. simpl. rewrite app_nil_r.
    rewrite store_tuple_same by exact Ht. reflexivity.
  - destruct (drop i fields) as [| f rest] eqn:Hdrop; simpl in Hfields; [lia |].
    assert (Hf : fields !! i = Some f).
    { rewrite <- (Nat.add_0_r i), <- lookup_drop, Hdrop. reflexivity. }
    assert (Hrest : drop (S i) fields = rest).
    { replace (S i) with (i + 1)%nat by lia. rewrite <- drop_drop, Hdrop. reflexivity. }
    simpl in Hflags. subst r. simpl write_slots.
    rewrite (array_get_Some _ _ _ Hf). bind_step.
    rewrite (surjective_pairing (decode_len (len f))).
    rewrite Hstream. bind_step.
    rewrite (load_tuple_Some _ _ _ Ht). bind_step.
    rewrite (surjective_pairing
               (WriteSlot (text_converter_ s) desc t (start f)
                  (fst (decode_len (len f))) (stream_compact_data st)
                  (snd (decode_len (len f))))).
    rewrite array_set_lt by lia. bind_step.
    rewrite IH with (t := fst (WriteSlot (text_converter_ s) desc t (start f)
                                 (fst (decode_len (len f))) (stream_compact_data st)
                                 (snd (decode_len (len f))))).
    + rewrite Hrest. simpl. rewrite store_store, <- app_assoc. reflexivity.
    + exact Hstream.
    + simpl. apply lookup_insert_eq.
    + rewrite Hrest. lia.
    + rewrite length_insert. lia.
Qed.

Section InterpretedWriter.
Context `{Build}.

Lemma InitTuple_spec (s : HdfsScanner) (fields : list FieldLocation) (tuple : Z)
    (tuple_row : TupleRow) (template_tuple : option Z) (error_fields : list Z)
    (t : list Z) (st : Stream) (exprs : list Expr) :
  WriteCompleteTuple_ready s fields tuple tuple_row template_tuple error_fields t st exprs ->
  InitTuple s template_tuple tuple
  = Ret (set_mem (store_tuple (mem s) tuple (init_bytes s template_tuple t)) s).
Proof.
  intros [Ht Htemplate _ _ _ _ _]. unfold InitTuple, init_bytes.
  destruct template_tuple as [template |].
  - destruct Htemplate as (src & Hsrc & Hlen_src & Hlen_t).
    rewrite (load_tuple_Some _ _ _ Ht), (load_tuple_Some _ _ _ Hsrc), Hsrc. bind_step.
    unfold memcpy. rewrite decide_True by (split; assumption). reflexivity.
  - rewrite (load_tuple_Some _ _ _ Ht). bind_step.
    unfold memset0. rewrite decide_True by assumption. reflexivity.
Qed.

(** [WriteCompleteTuple] as a function of its inputs. *)
Lemma WriteCompleteTuple_spec (s : HdfsScanner) (fields : list FieldLocation)
    (tuple : Z) (tuple_row : TupleRow) (template_tuple : option Z)
    (error_fields : list Z) (error_in_row : Z)
    (t : list Z) (st : Stream) (exprs : list Expr) :
  WriteCompleteTuple_ready s fields tuple tuple_row template_tuple error_fields t st exprs ->
  let r := convert_slots (text_converter_ s) (stream_compact_data st)
             (materialized_slots (scan_node_ s)) fields
             (init_bytes s template_tuple t) in
  let row := <[tuple_idx (scan_node_ s) := tuple]> tuple_row in
  let m := store_tuple (mem s) tuple (fst r) in
  WriteCompleteTuple s fields tuple tuple_row template_tuple error_fields error_in_row
  = Ret (set_mem m
           (set_trace (trace s
                       ++ slot_calls (stream_compact_data st)
                            (materialized_slots (scan_node_ s)) fields
                       ++ [EvalConjunctsCall row]) s),
         {| accepted := EvalConjuncts exprs (num_conjuncts_ s) m row;
            row_out := row;
            error_fields_out := store_flags 0 (snd r) error_fields;
            error_in_row_out := u8_of_bool (existsb negb (snd r)) |}).
Proof.
  intros Hready r row m. unfold WriteCompleteTuple.
  rewrite (InitTuple_spec _ _ _ _ _ _ _ _ _ Hready). bind_step.
  destruct Hready as [Ht Htemplate Hstream Hfields Hflags Hrow Hexprs].
  pose proof (write_slots_spec tuple st (materialized_slots (scan_node_ s)) 0
                (set_mem (store_tuple (mem s) tuple (init_bytes s template_tuple t)) s)
                fields error_fields (u8_of_bool false)
                (init_bytes s template_tuple t)) as Hrun.
  rewrite drop_0 in Hrun. cbv zeta in Hrun.
  change (write_slots _ _ 0 fields tuple error_fields (u8_of_bool false))
    with (write_slots
            (set_mem (store_tuple (mem s) tuple (init_bytes s template_tuple t)) s)
            (materialized_slots (scan_node_ s)) 0 fields tuple error_fields
            (u8_of_bool false)).
  rewrite Hrun; clear Hrun.
  2: exact Hstream.
  2: apply lookup_insert_eq.
  2: exact Hfields.
  2: simpl; exact Hflags.
  bind_step. unfold SetTuple.
  change (tuple_idx (scan_node_ (set_mem _ _))) with (tuple_idx (scan_node_ s)).
  rewrite array_set_lt by exact Hrow. bind_step.
  unfold eval_conjuncts.
  change (conjuncts_ (set_mem _ _)) with (conjuncts_ s).
  rewrite Hexprs. bind_step.
  rewrite fold_lor_flags. simpl orb.
  unfold m, r, row. simpl. rewrite store_store, <- app_assoc. reflexivity.
Qed.

Lemma EvalConjuncts_all (exprs : list Expr) (m : Memory) (row : list Z) :
  EvalConjuncts exprs (Z.of_nat (length exprs)) m row = true
  <-> Forall (fun c => GetValue c m row = true) exprs.
Proof.
  unfold EvalConjuncts. rewrite Nat2Z.id, firstn_all.
  induction exprs as [| c exprs IH]; simpl.
  - split; [constructor | reflexivity].
  - rewrite andb_true_iff, IH. split.
    + intros [Hc Hrest]. constructor; assumption.
    + intros Hall. inversion Hall; subst. split; assumption.
Qed.

Lemma existsb_negb_lookup (flags : list bool) :
  existsb negb flags = true <-> exists i : nat, flags !! i = Some false.
Proof.
  induction flags as [| parsed flags IH]; simpl.
  - split; [discriminate | intros [i Hi]; discriminate].
  - rewrite orb_true_iff, IH. split.
    + intros [Hp | [i Hi]].
      * exists 0%nat. destruct parsed; [discriminate | reflexivity].
      * exists (S i). exact Hi.
    + intros [[| i] Hi]; simpl in Hi.
      * left. injection Hi as ->. reflexivity.
      * right. exists i. exact Hi.
Qed.

Lemma length_slot_calls (compact : bool) (slots : list SlotDescriptor) :
  forall fields : list FieldLocation,
    (length slots <= length fields)%nat ->
    length (slot_calls compact slots fields) = length slots.
Proof.
  induction slots as [| desc slots IH]; intros fields Hlen; [reflexivity |].
  destruct fields as [| f fields]; simpl in Hlen; [lia |].
  simpl. f_equal. apply IH. lia.
Qed.


(** C2. [WriteCompleteTuple] returns true iff every conjunct accepts the
    row.  It converts every materialized slot, one call of the converter
    per slot, whatever the earlier conversions returned, and stores each
    slot's failure in [error_fields].  [*error_in_row] ends up true iff
    some conversion failed, whatever the conjuncts say. *)
Theorem WriteCompleteTuple_converts_all_and_filters
    (s : HdfsScanner) (fields : list FieldLocation)
    (tuple : Z) (tuple_row : TupleRow) (template_tuple : option Z)
    (error_fields : list Z) (error_in_row : Z)
    (t : list Z) (st : Stream) (exprs : list Expr) :
  WriteCompleteTuple_ready s fields tuple tuple_row template_tuple error_fields t st exprs ->
  num_conjuncts_ s = Z.of_nat (length exprs) ->
  let slots := materialized_slots (scan_node_ s) in
  let converted :=
    convert_slots (text_converter_ s) (stream_compact_data st) slots fields
      (init_bytes s template_tuple t) in
  exists s' r,
    WriteCompleteTuple s fields tuple tuple_row template_tuple error_fields error_in_row
    = Ret (s', r) /\
    (accepted r = true
     <-> Forall (fun c => GetValue c (mem s') (row_out r) = true) exprs) /\
    trace s'
    = trace s ++ slot_calls (stream_compact_data st) slots fields
      ++ [EvalConjunctsCall (row_out r)] /\
    length (slot_calls (stream_compact_data st) slots fields) = length slots /\
    tuples (mem s') !! tuple = Some (fst converted) /\
    length (snd converted) = length slots /\
    (forall (i : nat) (parsed : bool),
       snd converted !! i = Some parsed ->
       error_fields_out r !! i = Some (u8_of_bool (negb parsed))) /\
    (u8_true (error_in_row_out r) = true
     <-> exists i : nat, snd converted !! i = Some false).
Proof.
  intros Hready Hnum slots converted.
  eexists _, _. split; [apply WriteCompleteTuple_spec; exact Hready |].
  destruct Hready as [Ht Htemplate Hstream Hfields Hflags Hrow Hexprs].
  cbn [accepted row_out error_fields_out error_in_row_out].
  split.
  { rewrite Hnum. apply EvalConjuncts_all. }
  split; [reflexivity |].
  split; [apply length_slot_calls; exact Hfields |].
  split; [apply lookup_insert_eq |].
  split; [apply length_convert_slots; exact Hfields |].
  split.
  - intros i parsed Hparsed.
    apply (store_flags_lookup _ 0 i); [| exact Hparsed].
    fold slots. fold converted.
    unfold converted. rewrite length_convert_slots by exact Hfields. exact Hflags.
  - rewrite u8_of_bool_true_iff. apply existsb_negb_lookup.
Qed.

Lemma ReportColumnParseError_abs (s : HdfsScanner) (desc : SlotDescriptor)
    (data : string) (len : Z) :
  INT_MIN < len ->
  ReportColumnParseError s desc data len
  = ReportColumnParseError s desc data (Z.abs len).
Proof.
  intros Hlo. unfold ReportColumnParseError.
  replace (Z.abs len <? 0) with false by (symmetry; apply Z.ltb_ge; lia).
  destruct (len <? 0) eqn:Hneg.
  - apply Z.ltb_lt in Hneg. rewrite int_neg_abs by assumption. reflexivity.
  - apply Z.ltb_ge in Hneg. rewrite Z.abs_eq by assumption. reflexivity.
Qed.

Lemma ReportColumnParseError_logs (s : HdfsScanner) (desc : SlotDescriptor)
    (data : string) (len : Z) :
  0 <= len ->
  LogHasSpace (state_ s) = true ->
  error_log (state_ (ReportColumnParseError s desc data len))
  = error_log (state_ s) ++ [column_error_message s desc data len].
Proof.
  intros Hlen Hspace. unfold ReportColumnParseError.
  replace (len <? 0) with false by (symmetry; apply Z.ltb_ge; assumption).
  rewrite Hspace. cbn [orb]. unfold LogError. rewrite Hspace.
  destruct (abort_on_error _ && ok _); reflexivity.
Qed.


End InterpretedWriter.

(** * Parse error reporting (C6, C7) *)

Lemma bind_Ret_inv {A B : Type} (m : Res A) (k : A -> Res B) (b : B) :
  m ≫= k = Ret b -> exists a, m = Ret a /\ k a = Ret b.
Proof. destruct m as [a | e]; simpl; [eauto | discriminate]. Qed.

(** Splits a hypothesis [m >>= k = Ret b] into the two runs it stands for. *)
Ltac ret_inv H :=
  let a := fresh "a" in
  let Ha := fresh "Hrun" in
  apply bind_Ret_inv in H; destruct H as (a & Ha & H); cbv beta in H.

Lemma ReportColumnParseError_frame (s : HdfsScanner) (desc : SlotDescriptor)
    (data : string) (len : Z) :
  let s' := ReportColumnParseError s desc data len in
  stream_ s' = stream_ s /\
  LogRowParseError_override s' = LogRowParseError_override s /\
  num_errors_in_file_ s' = num_errors_in_file_ s /\
  abort_on_error (state_ s') = abort_on_error (state_ s) /\
  max_errors (state_ s') = max_errors (state_ s) /\
  file_errors (state_ s') = file_errors (state_ s) /\
  scan_node_ s' = scan_node_ s.
Proof.
  cbv zeta. unfold ReportColumnParseError, LogError.
  destruct (LogHasSpace (state_ s)) eqn:Hspace; simpl;
    destruct (abort_on_error (state_ s)) eqn:Habort; simpl;
    destruct (ok (parse_status_ s)) eqn:Hok; simpl; repeat split;
    simpl; congruence.
Qed.

Lemma ReportColumnParseError_log (s : HdfsScanner) (desc : SlotDescriptor)
    (data : string) (len : Z) :
  INT_MIN < len ->
  error_log (state_ (ReportColumnParseError s desc data len))
  = error_log (state_ s)
    ++ (if LogHasSpace (state_ s)
        then [column_error_message s desc data (Z.abs len)] else []).
Proof.
  intros Hlo. rewrite ReportColumnParseError_abs by exact Hlo.
  destruct (LogHasSpace (state_ s)) eqn:Hspace.
  - apply ReportColumnParseError_logs; [lia | exact Hspace].
  - unfold ReportColumnParseError. rewrite Hspace. rewrite app_nil_r.
    destruct (Z.abs len <? 0); simpl;
      destruct (abort_on_error (state_ s)); simpl; try reflexivity;
      destruct (ok (parse_status_ s)); reflexivity.
Qed.

(** The parse status is set only when it is OK and the query aborts on
    error; it is never set back. *)
Lemma ReportColumnParseError_status (s : HdfsScanner) (desc : SlotDescriptor)
    (data : string) (len : Z) :
  let s' := ReportColumnParseError s desc data len in
  (ok (parse_status_ s) = false -> parse_status_ s' = parse_status_ s) /\
  (abort_on_error (state_ s) = false -> parse_status_ s' = parse_status_ s) /\
  (abort_on_error (state_ s) = true -> ok (parse_status_ s') = false).
Proof.
  cbv zeta. unfold ReportColumnParseError, LogError.
  destruct (LogHasSpace (state_ s)) eqn:Hspace; simpl;
    destruct (abort_on_error (state_ s)) eqn:Habort; simpl;
    destruct (ok (parse_status_ s)) eqn:Hok; simpl; repeat split;
    intros; simpl; congruence.
Qed.

Lemma ReportColumnParseError_keeps_failure (s : HdfsScanner) (desc : SlotDescriptor)
    (data : string) (len : Z) :
  ok (parse_status_ s) = false ->
  parse_status_ (ReportColumnParseError s desc data len) = parse_status_ s.
Proof. apply (ReportColumnParseError_status s desc data len). Qed.

Section Reporting.
Context `{Build}.

Lemma report_slots_none (slots : list SlotDescriptor) :
  forall (i : nat) (s : HdfsScanner) (fields : list FieldLocation) (errors : list Z),
    (forall k : nat, (i <= k < i + length slots)%nat -> errors !! k = Some 0) ->
    report_slots s slots i fields errors = Ret (s, errors).
Proof.
  induction slots as [| desc slots IH]; intros i s fields errors Hzero; [reflexivity |].
  simpl in *. rewrite (array_get_Some _ _ _ (Hzero i ltac:(lia))). bind_step.
  cbn [u8_true Z.eqb negb]. apply IH. intros k Hk. apply Hzero. lia.
Qed.

Lemma report_slots_one (slots : list SlotDescriptor) :
  forall (i i0 : nat) (s : HdfsScanner) (fields : list FieldLocation)
         (errors : list Z) (desc : SlotDescriptor) (f : FieldLocation) (e : Z),
    (i <= i0)%nat ->
    slots !! (i0 - i)%nat = Some desc ->
    fields !! i0 = Some f ->
    errors !! i0 = Some e ->
    e <> 0 ->
    (forall k : nat, (i <= k < i + length slots)%nat -> k <> i0 -> errors !! k = Some 0) ->
    report_slots s slots i fields errors
    = Ret (ReportColumnParseError s desc (start f) (len f),
           <[i0 := u8_of_bool false]> errors).
Proof.
  induction slots as [| d slots IH];
    intros i i0 s fields errors desc f e Hle Hdesc Hf He Hne Hzero; [discriminate |].
  simpl report_slots. destruct (decide (i = i0)) as [-> | Hlt].
  - rewrite Nat.sub_diag in Hdesc. injection Hdesc as ->.
    rewrite (array_get_Some _ _ _ He). bind_step.
    replace (u8_true e) with true
      by (symmetry; unfold u8_true; apply negb_true_iff, Z.eqb_neq; exact Hne).
    rewrite (array_get_Some _ _ _ Hf). bind_step.
    rewrite array_set_lt by (apply lookup_lt_Some in He; exact He). bind_step.
    apply report_slots_none. intros k Hk.
    rewrite list_lookup_insert_ne by lia. apply Hzero; simpl; lia.
  - rewrite (array_get_Some _ _ _ (Hzero i ltac:(simpl; lia) Hlt)). bind_step.
    cbn [u8_true Z.eqb negb].
    apply IH with (e := e); try assumption.
    + lia.
    + replace (i0 - i)%nat with (S (i0 - S i)) in Hdesc by lia. exact Hdesc.
    + intros k Hk Hk0. apply Hzero; simpl; [lia | exact Hk0].
Qed.

(** C6, as amended.  For a row with exactly one flagged slot among the
    materialized slots, [ReportTupleParseError] reports that one column:
    when the error log has space it appends exactly one column-level
    message (followed by the row-level message if the log still has
    space), and when the log is full it appends nothing.  The per-file
    error counter goes up by exactly 1, every flag is false afterwards,
    and the value returned is whether the parse status is OK. *)
Theorem one_flagged_slot_is_reported_once
    (s : HdfsScanner) (fields : list FieldLocation) (errors : list Z) (row_idx : Z)
    (i0 : nat) (desc : SlotDescriptor) (f : FieldLocation) (e : Z)
    (st : Stream) (describe : Z -> string) :
  length errors = length (materialized_slots (scan_node_ s)) ->
  materialized_slots (scan_node_ s) !! i0 = Some desc ->
  fields !! i0 = Some f ->
  errors !! i0 = Some e ->
  e <> 0 ->
  (forall k : nat, (k < length errors)%nat -> k <> i0 -> errors !! k = Some 0) ->
  stream_ s = Some st ->
  LogRowParseError_override s = Some describe ->
  0 <= num_errors_in_file_ s < INT_MAX ->
  INT_MIN < len f ->
  let reported := ReportColumnParseError s desc (start f) (len f) in
  exists s' errors' healthy,
    ReportTupleParseError s fields errors row_idx = Ret (s', errors', healthy) /\
    error_log (state_ s')
    = error_log (state_ s)
      ++ (if LogHasSpace (state_ s)
          then [column_error_message s desc (start f) (Z.abs (len f))] else [])
      ++ (if LogHasSpace (state_ reported)
          then [row_error_message st describe row_idx] else []) /\
    num_errors_in_file_ s' = num_errors_in_file_ s + 1 /\
    length errors' = length errors /\
    (forall k : nat, (k < length errors)%nat -> errors' !! k = Some 0) /\
    healthy = ok (parse_status_ s').
Proof.
  intros Hlen Hdesc Hf He Hne Hzero Hstream Hdescribe Hcount Hlo reported.
  destruct (ReportColumnParseError_frame s desc (start f) (len f))
    as (Hstream1 & Hdescribe1 & Hcount1 & Habort1 & _ & _ & _).
  destruct (ReportColumnParseError_status s desc (start f) (len f))
    as (_ & _ & Hfatal).
  pose proof (ReportColumnParseError_log s desc (start f) (len f) Hlo) as Hlog.
  fold reported in Hstream1, Hdescribe1, Hcount1, Habort1, Hfatal, Hlog.
  unfold ReportTupleParseError.
  rewrite (report_slots_one _ 0 i0 s fields errors desc f e); try assumption;
    [| lia | rewrite Nat.sub_0_r; exact Hdesc
     | intros k Hk Hk0; apply Hzero; [rewrite Hlen; lia | exact Hk0] ].
  bind_step. fold reported.
  assert (Hnext : int_add (num_errors_in_file_ s) 1 = num_errors_in_file_ s + 1).
  { apply int_add_id. unfold is_int, INT_MIN, INT_MAX in *. lia. }
  assert (Hflags : forall k : nat,
            (k < length errors)%nat ->
            <[i0 := u8_of_bool false]> errors !! k = Some 0).
  { intros k Hk. destruct (decide (k = i0)) as [-> | Hk0].
    - apply list_lookup_insert_eq. exact Hk.
    - rewrite list_lookup_insert_ne by congruence. apply Hzero; assumption. }
  destruct (LogHasSpace (state_ reported)) eqn:Hspace.
  - rewrite Hstream1, Hstream. bind_step.
    unfold LogRowParseError. rewrite Hdescribe1, Hdescribe. bind_step.
    fold (row_error_message st describe row_idx).
    cbn [state_ set_state_ set_num_errors_in_file_ abort_on_error].
    assert (Habort2 :
      abort_on_error (LogError (state_ reported) (row_error_message st describe row_idx))
      = abort_on_error (state_ s)).
    { unfold LogError. rewrite Hspace. exact Habort1. }
    rewrite Habort2.
    destruct (abort_on_error (state_ s)) eqn:Habort.
    + cbn [stream_ set_state_ set_num_errors_in_file_]. rewrite Hstream1, Hstream.
      bind_step. cbn [parse_status_ set_state_ set_num_errors_in_file_].
      rewrite (Hfatal eq_refl). pass_dchecks.
      eexists _, _, _. split; [reflexivity |].
      cbn [state_ set_state_ set_num_errors_in_file_ num_errors_in_file_
           parse_status_ ReportFileErrors set_file_errors error_log].
      unfold LogError. rewrite Hspace. cbn [error_log set_error_log].
      rewrite Hlog, Hcount1, Hnext, length_insert, (Hfatal eq_refl), <- app_assoc.
      repeat split; try reflexivity. exact Hflags.
    + bind_step.
      eexists _, _, _. split; [reflexivity |].
      cbn [state_ set_state_ set_num_errors_in_file_ num_errors_in_file_
           parse_status_].
      unfold LogError. rewrite Hspace. cbn [error_log set_error_log].
      rewrite Hlog, Hcount1, Hnext, length_insert, <- app_assoc.
      repeat split; try reflexivity. exact Hflags.
  - bind_step. cbn [state_ set_num_errors_in_file_]. rewrite Habort1.
    destruct (abort_on_error (state_ s)) eqn:Habort.
    + cbn [stream_ set_num_errors_in_file_]. rewrite Hstream1, Hstream.
      bind_step. cbn [parse_status_ set_state_ set_num_errors_in_file_].
      rewrite (Hfatal eq_refl). pass_dchecks.
      eexists _, _, _. split; [reflexivity |].
      cbn [state_ set_state_ set_num_errors_in_file_ num_errors_in_file_
           parse_status_ ReportFileErrors set_file_errors error_log].
      rewrite Hlog, Hcount1, Hnext, length_insert, (Hfatal eq_refl), app_nil_r.
      repeat split; try reflexivity. exact Hflags.
    + bind_step.
      eexists _, _, _. split; [reflexivity |].
      cbn [state_ set_num_errors_in_file_ num_errors_in_file_ parse_status_].
      rewrite Hlog, Hcount1, Hnext, length_insert, app_nil_r.
      repeat split; try reflexivity. exact Hflags.
Qed.

End Reporting.

(** * The sticky parse status (C7) *)

(** Breaks the runs among the hypotheses down to the runs of their steps. *)
Ltac inv_runs :=
  repeat
    match goal with
    | H : Trap _ = Ret _ |- _ => discriminate H
    | H : Ret _ = Ret _ |- _ => injection H as H; try subst
    | H : (_ ≫= _) = Ret _ |- _ =>
        let a := fresh "a" in
        let Ha := fresh "Hstep" in
        apply bind_Ret_inv in H; destruct H as (a & Ha & H); cbv beta zeta in H
    | H : (if ?c then _ else _) = Ret _ |- _ => destruct c eqn:?
    | H : (match ?x with _ => _ end) = Ret _ |- _ => destruct x eqn:?
    | H : (_, _) = (_, _) |- _ => injection H as ? ?; try subst
    end.

Section Sticky.
Context `{Build}.

Lemma deref_Ret {A : Type} (p : option A) (a : A) : deref p = Ret a -> p = Some a.
Proof. destruct p; simpl; congruence. Qed.

Lemma write_slots_parse_status (tuple : Z) (slots : list SlotDescriptor) :
  forall (i : nat) (s : HdfsScanner) (fields : list FieldLocation)
         (error_fields : list Z) (error_in_row : Z) (r : HdfsScanner * list Z * Z),
    write_slots s slots i fields tuple error_fields error_in_row = Ret r ->
    parse_status_ (fst (fst r)) = parse_status_ s.
Proof.
  induction slots as [| desc slots IH];
    intros i s fields error_fields error_in_row r Hrun; simpl in Hrun.
  - injection Hrun as <-. reflexivity.
  - inv_runs.
    match goal with
    | Hw : write_slots _ _ _ _ _ _ _ = Ret _ |- _ => apply IH in Hw; rewrite Hw
    end.
    reflexivity.
Qed.

Lemma report_slots_parse_status (slots : list SlotDescriptor) :
  forall (i : nat) (s : HdfsScanner) (fields : list FieldLocation)
         (errors : list Z) (r : HdfsScanner * list Z),
    report_slots s slots i fields errors = Ret r ->
    ok (parse_status_ s) = false ->
    parse_status_ (fst r) = parse_status_ s.
Proof.
  induction slots as [| desc slots IH]; intros i s fields errors r Hrun Hbad;
    simpl in Hrun.
  - injection Hrun as <-. reflexivity.
  - inv_runs;
      match goal with
      | Hr : report_slots _ _ _ _ _ = Ret _ |- _ => apply IH in Hr
      end.
    + rewrite Hrun. apply ReportColumnParseError_keeps_failure. exact Hbad.
    + rewrite ReportColumnParseError_keeps_failure by exact Hbad. exact Hbad.
    + assumption.
    + assumption.
Qed.

Lemma ReportTupleParseError_parse_status (s : HdfsScanner)
    (fields : list FieldLocation) (errors : list Z) (row_idx : Z)
    (s' : HdfsScanner) (errors' : list Z) (healthy : bool) :
  ReportTupleParseError s fields errors row_idx = Ret (s', errors', healthy) ->
  healthy = ok (parse_status_ s') /\
  (ok (parse_status_ s) = false -> parse_status_ s' = parse_status_ s).
Proof.
  intros Hrun. unfold ReportTupleParseError in Hrun.
  apply bind_Ret_inv in Hrun. destruct Hrun as ([s1 errors1] & Hslots & Hrun).
  cbv beta iota in Hrun.
  apply bind_Ret_inv in Hrun. destruct Hrun as (s2 & Hlog & Hrun).
  cbv beta zeta in Hrun.
  apply bind_Ret_inv in Hrun. destruct Hrun as (s3 & Hfile & Hrun).
  injection Hrun as <- <- <-.
  assert (H2 : parse_status_ s2 = parse_status_ s1).
  { clear Hfile Hslots. inv_runs; reflexivity. }
  assert (H3 : parse_status_ s3 = parse_status_ s2).
  { clear Hlog Hslots. inv_runs; reflexivity. }
  split; [reflexivity |].
  intros Hbad. rewrite H3, H2.
  exact (report_slots_parse_status _ _ _ _ _ _ Hslots Hbad).
Qed.

(** No operation other than the two reporting functions writes the parse
    status. *)
Lemma perform_parse_status (op : Operation) (s s' : HdfsScanner) :
  perform op s = Ret s' ->
  ok (parse_status_ s) = false ->
  parse_status_ s' = parse_status_ s.
Proof.
  intros Hrun Hbad.
  destruct op; simpl in Hrun;
    unfold Prepare, Close, InitializeWriteTuplesFn, GetMemory, CommitRows,
      AddFinalRowBatch, WriteEmptyTuples_batch, WriteEmptyTuples_rows,
      WriteCompleteTuple, InitTuple, eval_conjuncts in Hrun;
    inv_runs;
    try match goal with
      | Hw : write_slots _ _ _ _ _ _ _ = Ret _ |- _ =>
          apply write_slots_parse_status in Hw; simpl in Hw |- *; rewrite Hw
      end;
    try reflexivity.
  - destruct (conjuncts_ s); reflexivity.
  - match goal with
    | Hr : ReportTupleParseError _ _ _ _ = Ret ?r |- _ =>
        destruct r as [[s1 errors1] healthy];
        apply ReportTupleParseError_parse_status in Hr; apply Hr; exact Hbad
    end.
  - apply ReportColumnParseError_keeps_failure. exact Hbad.
Qed.

(** C7. The parse status is sticky.  Whatever operations the scanner
    performs from a state whose parse status is not OK, the status they
    leave is the one they found.  [ReportColumnParseError] leaves a status
    that is not OK alone, and never touches the status when the query does
    not abort on error; [ReportTupleParseError] returns whether the status
    it leaves is OK. *)
Theorem parse_status_is_sticky (ops : list Operation) (s s' : HdfsScanner) :
  perform_all ops s = Ret s' ->
  ok (parse_status_ s) = false ->
  parse_status_ s' = parse_status_ s /\
  (forall desc data len,
     parse_status_ (ReportColumnParseError s desc data len) = parse_status_ s) /\
  (forall s0 desc data len,
     abort_on_error (state_ s0) = false ->
     parse_status_ (ReportColumnParseError s0 desc data len) = parse_status_ s0) /\
  (forall s0 fields errors row_idx s1 errors1 healthy,
     ReportTupleParseError s0 fields errors row_idx = Ret (s1, errors1, healthy) ->
     healthy = ok (parse_status_ s1)).
Proof.
  intros Hrun Hbad. split; [| split; [| split]].
  - revert s Hrun Hbad. induction ops as [| op ops IH]; intros s Hrun Hbad.
    + injection Hrun as <-. reflexivity.
    + simpl in Hrun. apply bind_Ret_inv in Hrun. destruct Hrun as (s1 & Hop & Hrun).
      pose proof (perform_parse_status op s s1 Hop Hbad) as Hkeep.
      rewrite <- Hkeep. apply IH; [exact Hrun |]. rewrite Hkeep. exact Hbad.
  - intros desc data len.
    apply ReportColumnParseError_keeps_failure. exact Hbad.
  - intros s0 desc data len Habort.
    exact (proj1 (proj2 (ReportColumnParseError_status s0 desc data len)) Habort).
  - intros s0 fields errors row_idx s1 errors1 healthy Hreport.
    apply (ReportTupleParseError_parse_status _ _ _ _ _ _ _ Hreport).
Qed.

End Sticky.

(** * The generated tuple writer against the interpreted one (C1) *)

Section CommutingConversions.
Variables (conv : TextConverter) (compact : bool).
Variables (slots : list SlotDescriptor) (fields : list FieldLocation).

Local Abbreviation W := (convert_slot conv compact slots fields).
Local Abbreviation step := (convert_step conv compact slots fields).
Local Abbreviation run := (convert_list conv compact slots fields).

Hypothesis independent :
  forall (i j : nat) (t : list Z),
    i <> j ->
    fst (W j (fst (W i t))) = fst (W i (fst (W j t))) /\
    snd (W j (fst (W i t))) = snd (W j t).

Lemma convert_step_comm (i j : nat) (a : Conversion) :
  step (step a i) j = step (step a j) i.
Proof.
  destruct (decide (i = j)) as [-> | Hne]; [reflexivity |].
  destruct (independent i j (c_bytes a) Hne) as [Hb Hs].
  destruct (independent j i (c_bytes a) (not_eq_sym Hne)) as [_ Hs'].
  unfold convert_step. cbn [c_bytes c_flags c_error].
  rewrite Hb, Hs, Hs'. f_equal.
  - apply list_insert_insert_ne. congruence.
  - rewrite <- !orb_assoc. f_equal. apply orb_comm.
Qed.

Lemma convert_list_step (l : list nat) :
  forall (a : Conversion) (i : nat), run l (step a i) = step (run l a) i.
Proof.
  induction l as [| j l IH]; intros a i; [reflexivity |].
  unfold convert_list in *. simpl.
  rewrite <- IH. f_equal. apply convert_step_comm.
Qed.



End CommutingConversions.

(** ** The schedule of the generated code *)

Lemma scheduled_range_empty (order : list Z) (k : Z) :
  forall i : nat, scheduled_range order k k i = [].
Proof.
  induction order as [| o order IH]; intros i; [reflexivity |].
  simpl. replace ((k <=? o) && (o <? k)) with false; [apply IH |].
  symmetry. apply andb_false_iff.
  destruct (Z.leb_spec k o); [right; apply Z.ltb_ge; lia | left; reflexivity].
Qed.

Lemma scheduled_range_split (order : list Z) (k hi : Z) :
  k < hi ->
  forall i : nat,
    Permutation (scheduled order k i ++ scheduled_range order (k + 1) hi i)
      (scheduled_range order k hi i).
Proof.
  intros Hk. induction order as [| o order IH]; intros i; [constructor |].
  simpl. destruct (Z.eqb_spec o k) as [-> | Hne].
  - replace ((k <=? k) && (k <? hi)) with true
      by (symmetry; apply andb_true_iff; split; [apply Z.leb_le | apply Z.ltb_lt]; lia).
    replace ((k + 1 <=? k) && (k <? hi)) with false
      by (symmetry; apply andb_false_iff; left; apply Z.leb_gt; lia).
    simpl. constructor. apply IH.
  - destruct ((k <=? o) && (o <? hi)) eqn:Hin.
    + apply andb_true_iff in Hin. destruct Hin as [Hlo Hhi].
      apply Z.leb_le in Hlo. apply Z.ltb_lt in Hhi.
      replace ((k + 1 <=? o) && (o <? hi)) with true
        by (symmetry; apply andb_true_iff; split;
            [apply Z.leb_le | apply Z.ltb_lt]; lia).
      etransitivity; [symmetry; apply Permutation_middle |].
      constructor. apply IH.
    + replace ((k + 1 <=? o) && (o <? hi)) with false; [apply IH |].
      symmetry. apply andb_false_iff. apply andb_false_iff in Hin.
      destruct Hin as [Hlo | Hhi]; [left | right; exact Hhi].
      apply Z.leb_gt in Hlo. apply Z.leb_gt. lia.
Qed.

Lemma schedule_range (order : list Z) (groups : nat) :
  forall k : Z,
    Permutation (schedule order k groups)
      (scheduled_range order k (k + Z.of_nat groups) 0).
Proof.
  induction groups as [| groups IH]; intros k.
  - simpl. rewrite Z.add_0_r, scheduled_range_empty. constructor.
  - simpl schedule.
    etransitivity; [apply Permutation_app_head, IH |].
    replace (k + 1 + Z.of_nat groups) with (k + Z.of_nat (S groups)) by lia.
    apply scheduled_range_split. lia.
Qed.

Lemma scheduled_range_all (order : list Z) (hi : Z) :
  (forall (j : nat) (o : Z), order !! j = Some o -> 0 <= o < hi) ->
  forall i : nat, scheduled_range order 0 hi i = seq i (length order).
Proof.
  induction order as [| o order IH]; intros Hrange i; [reflexivity |].
  simpl. pose proof (Hrange 0%nat o eq_refl) as Ho.
  replace ((0 <=? o) && (o <? hi)) with true
    by (symmetry; apply andb_true_iff; split; [apply Z.leb_le | apply Z.ltb_lt]; lia).
  f_equal. apply IH. intros j o' Hj. apply (Hrange (S j)). exact Hj.
Qed.

(** Every slot is scheduled exactly once. *)
Lemma schedule_complete (order : list Z) (conjuncts : nat) :
  (forall (j : nat) (o : Z), order !! j = Some o -> 0 <= o <= Z.of_nat conjuncts) ->
  Permutation (schedule order 0 (S conjuncts)) (seq 0 (length order)).
Proof.
  intros Hrange. etransitivity; [apply schedule_range |].
  rewrite (scheduled_range_all order (0 + Z.of_nat (S conjuncts))); [reflexivity |].
  intros j o Hj. specialize (Hrange j o Hj). lia.
Qed.

Lemma scheduled_elem (order : list Z) (k : Z) :
  forall (i j : nat),
    j ∈ scheduled order k i -> (i <= j)%nat /\ order !! (j - i)%nat = Some k.
Proof.
  induction order as [| o order IH]; intros i j Hj; simpl in Hj.
  - apply elem_of_nil in Hj. contradiction.
  - destruct (Z.eqb_spec o k) as [-> | Hne].
    + apply elem_of_cons in Hj. destruct Hj as [-> | Hj].
      * split; [lia |]. rewrite Nat.sub_diag. reflexivity.
      * apply IH in Hj. destruct Hj as [Hle Hlook]. split; [lia |].
        replace (j - i)%nat with (S (j - S i)) by lia. exact Hlook.
    + apply IH in Hj. destruct Hj as [Hle Hlook]. split; [lia |].
      replace (j - i)%nat with (S (j - S i)) by lia. exact Hlook.
Qed.


(** ** The generated code as a function of the conversions *)

Section FusedRun.
Variables (conv : TextConverter) (compact : bool).
Variables (slots : list SlotDescriptor) (fields : list FieldLocation).
Variables (order : list Z) (m : Memory) (tuple : Z) (row : list Z).
Variable exprs : list Expr.

Local Abbreviation W := (convert_slot conv compact slots fields).
Local Abbreviation run := (convert_list conv compact slots fields).
Local Abbreviation verdict :=
  (fun (c : Expr) (a : Conversion) => GetValue c (store_tuple m tuple (c_bytes a)) row).

Hypothesis independent :
  forall (i j : nat) (t : list Z),
    i <> j ->
    fst (W j (fst (W i t))) = fst (W i (fst (W j t))) /\
    snd (W j (fst (W i t))) = snd (W j t).

Hypothesis order_sound :
  forall (k j : nat) (c : Expr) (o : Z) (t : list Z),
    exprs !! k = Some c ->
    order !! j = Some o ->
    Z.of_nat k < o ->
    GetValue c (store_tuple m tuple (fst (W j t))) row
    = GetValue c (store_tuple m tuple t) row.




End FusedRun.

(** ** What the generator emits *)

Lemma codegen_slot_fns_spec (codegen : LlvmCodeGen) (slots : list SlotDescriptor) :
  forall fns : list SlotFn,
    codegen_slot_fns codegen slots = Some fns ->
    length fns = length slots /\
    forall (i : nat) (desc : SlotDescriptor),
      slots !! i = Some desc ->
      exists fn, fns !! i = Some fn /\ CodegenWriteSlot codegen desc = Some fn.
Proof.
  induction slots as [| d slots IH]; intros fns Hfns; simpl in Hfns.
  - injection Hfns as <-. split; [reflexivity | intros i desc Hi; discriminate].
  - destruct (CodegenWriteSlot codegen d) as [fn |] eqn:Hfn; [| discriminate].
    destruct (codegen_slot_fns codegen slots) as [rest |]; [| discriminate].
    injection Hfns as <-. destruct (IH rest eq_refl) as [Hlen Hall].
    split; [simpl; congruence |].
    intros [| i] desc Hi; simpl in Hi.
    + injection Hi as <-. exists fn. split; [reflexivity | exact Hfn].
    + apply Hall. exact Hi.
Qed.

Section Generated.
Context `{Build}.

Lemma conjuncts_compiled_all (conjuncts : list Expr) :
  conjuncts_compiled conjuncts = Ret true ->
  forall (k : nat) (c : Expr), conjuncts !! k = Some c -> exists fn, codegen_fn c = Some fn.
Proof.
  induction conjuncts as [| c0 conjuncts IH]; intros Hrun k c Hk; [discriminate |].
  simpl in Hrun. destruct (codegen_fn c0) as [fn |] eqn:Hfn; [| discriminate].
  apply bind_Ret_inv in Hrun. destruct Hrun as (_ & _ & Hrun).
  destruct k as [| k]; simpl in Hk.
  - injection Hk as <-. exists fn. exact Hfn.
  - exact (IH Hrun k c Hk).
Qed.

Lemma codegen_slots_spec (fns : list SlotFn) (k : Z) (order : list Z) :
  forall i : nat,
    (i + length order <= length fns)%nat ->
    codegen_slots order fns k i = Ret (slot_instrs fns (scheduled order k i)).
Proof.
  induction order as [| o order IH]; intros i Hlen; [reflexivity |].
  simpl in *. destruct (o =? k); simpl.
  - destruct (lookup_lt_is_Some_2 fns i) as [fn Hfn]; [lia |].
    rewrite (array_get_Some _ _ _ Hfn). bind_step. rewrite IH by lia. bind_step.
    unfold slot_instrs at 2. simpl. rewrite Hfn. reflexivity.
  - apply IH. lia.
Qed.

End Generated.

(** ** Running the generated code *)


Section RunGenerated.
Variables (conv : TextConverter) (compact : bool).
Variables (slots : list SlotDescriptor) (fields : list FieldLocation).
Variables (fns : list SlotFn) (m : Memory) (tuple : Z) (template_tuple : option Z).
Variables (row : list Z) (error_in_row : Z).

Local Abbreviation W := (convert_slot conv compact slots fields).
Local Abbreviation run := (convert_list conv compact slots fields).

Hypothesis fields_cover : (length slots <= length fields)%nat.
Hypothesis fns_cover : length fns = length slots.
Hypothesis fns_agree :
  forall (j : nat) (desc : SlotDescriptor) (f : FieldLocation) (fn : SlotFn),
    slots !! j = Some desc -> fields !! j = Some f -> fns !! j = Some fn ->
    forall t : list Z, fn t (start f) (len f) = W j t.




Variables (order : list Z) (exprs : list Expr).
Hypothesis order_length : length order = length slots.
Hypothesis conjuncts_agree :
  forall (k : nat) (c : Expr) (fn : Memory -> list Z -> bool),
    exprs !! k = Some c -> codegen_fn c = Some fn ->
    forall (m' : Memory) (r : list Z), fn m' r = GetValue c m' r.



End RunGenerated.

(** ** The entry block *)


(** ** Rows a conjunct rejects *)






(** ** The entry block of the generated function *)


(** ** What a successful construction returns *)

Lemma CodegenWriteCompleteTuple_Some `{Build} (node : HdfsScanNode)
    (codegen : LlvmCodeGen) (conjuncts : list Expr) (fn : FusedFn) :
  CodegenWriteCompleteTuple node codegen conjuncts = Ret (Some fn) ->
  exists (fns : list SlotFn) (blocks : list BasicBlock),
    conjuncts_compiled conjuncts = Ret true /\
    codegen_slot_fns codegen (materialized_slots node) = Some fns /\
    codegen_conjuncts (ComputeSlotMaterializationOrder node) fns conjuncts 0
    = Ret blocks /\
    fn = {| body :=
              (if num_materialized_partition_keys node =? 0
               then map ZeroNullByte
                      (seq 0 (Z.to_nat (num_null_bytes (tuple_desc node))))
               else [MemcpyTemplate (byte_size (tuple_desc node))])
              ++ [StoreTupleInRow (tuple_idx node)];
            term := Br |} :: blocks ++ [{| body := []; term := RetFalse |}].
Proof.
  unfold CodegenWriteCompleteTuple. intros Hgen.
  destruct (has_timestamp_slot (materialized_slots node)); [discriminate |].
  destruct (compact_data node
            && negb (bool_decide (string_slots (tuple_desc node) = [])));
    [discriminate |].
  destruct (conjuncts_compiled conjuncts) as [[|] | e] eqn:Hcompiled; try discriminate.
  cbn [mbind Res_mbind Res_bind negb] in Hgen.
  destruct (codegen_slot_fns codegen (materialized_slots node)) as [fns |] eqn:Hfns;
    [| discriminate].
  cbv zeta in Hgen.
  destruct (GenerateLlvmStruct codegen); [| discriminate].
  cbn [negb] in Hgen.
  destruct (codegen_conjuncts (ComputeSlotMaterializationOrder node) fns conjuncts 0)
    as [blocks | e] eqn:Hblocks; [| discriminate].
  cbn [mbind Res_mbind Res_bind] in Hgen. unfold FinalizeFunction in Hgen.
  destruct (verify_fused codegen _); [| discriminate].
  injection Hgen as <-. exists fns, blocks. repeat split; assumption || reflexivity.
Qed.


(** * Closed examples

    The theorems above applied to the example configurations, and the
    inputs on which the statements that had to be amended differ from the
    scanner. *)


Lemma toy_ready (fields : list FieldLocation) :
  length fields = 3%nat ->
  WriteCompleteTuple_ready toy_scanner fields 100 [0] None [0; 0; 0]
    [0; 0; 0; 0] toy_stream [toy_conjunct].
Proof.
  intros Hfields. constructor; try reflexivity; try rewrite Hfields; vm_compute; lia.
Qed.






(** C2: a row whose second field is escaped and whose third field does not
    parse. *)
Lemma WriteCompleteTuple_converts_all_and_filters_witness :
  let slots := [int_col0; string_col1; int_col2] in
  let converted :=
    convert_slots toy_converter false slots toy_fields_escaped [0; 0; 0; 0] in
  exists s' r,
    WriteCompleteTuple toy_scanner toy_fields_escaped 100 [0] None [0; 0; 0] 0
    = Ret (s', r) /\
    (accepted r = true
     <-> Forall (fun c => GetValue c (mem s') (row_out r) = true) [toy_conjunct]) /\
    trace s'
    = trace toy_scanner ++ slot_calls false slots toy_fields_escaped
      ++ [EvalConjunctsCall (row_out r)] /\
    length (slot_calls false slots toy_fields_escaped) = length slots /\
    tuples (mem s') !! 100 = Some (fst converted) /\
    length (snd converted) = length slots /\
    (forall (i : nat) (parsed : bool),
       snd converted !! i = Some parsed ->
       error_fields_out r !! i = Some (u8_of_bool (negb parsed))) /\
    (u8_true (error_in_row_out r) = true
     <-> exists i : nat, snd converted !! i = Some false).
Proof.
  exact (WriteCompleteTuple_converts_all_and_filters toy_scanner toy_fields_escaped
           100 [0] None [0; 0; 0] 0 [0; 0; 0; 0] toy_stream [toy_conjunct]
           (toy_ready toy_fields_escaped eq_refl) eq_refl).
Defined.

(** C3: committing four rows fills the batch of capacity four. *)
Lemma CommitRows_commits_hands_off_and_checks_witness :
  let committed :=
    RowBatch.set_has_in_flight_row false
      (RowBatch.set_num_rows 4 (RowBatch.new 1 4)) in
  exists s',
    @CommitRows debug_build toy_scanner 4 = Ret (s', OK) /\
    materialized_row_batches (scan_node_ s') = [committed] /\
    context_ s'
    = Some (AttachCompletedResources (toy_context_with false None) committed false) /\
    batch_ s' = Some (RowBatch.new 1 4) /\
    tuple_mem_ s' = 1016.
Proof.
  refine (@CommitRows_commits_hands_off_and_checks debug_build toy_scanner
            (RowBatch.new 1 4) (toy_context_with false None) 4
            eq_refl eq_refl _ _ _ _).
  - simpl. lia.
  - vm_compute. discriminate.
  - simpl. lia.
  - vm_compute. split; discriminate.
Defined.

(** C4: three rows of a split whose template tuple passes the conjunct. *)
Lemma WriteEmptyTuples_replicates_template_witness :
  let rows := [[0]; [0]; [0]; [0]] in
  (exists s' b' reported,
     @WriteEmptyTuples_batch debug_build template_scanner (RowBatch.new 1 4) 3
     = Ret (s', b', reported) /\
     trace s' = trace template_scanner ++ [EvalConjunctsCall [200]] /\
     if EvalConjuncts [toy_conjunct] 1 (mem template_scanner) [200]
     then
       RowBatch.num_rows b' = 0 + 3 /\
       forall k : nat,
         (0 <= k < 0 + 3)%nat ->
         exists r, RowBatch.tuple_ptrs b' !! k = Some r /\ r !! 0%nat = Some 200
     else
       RowBatch.num_rows b' = 0 /\ reported = 0) /\
  (exists s' rows' reported,
     @WriteEmptyTuples_rows debug_build template_scanner
       (toy_context_with false (Some 200)) rows 1 3
     = Ret (s', rows', reported) /\
     trace s' = trace template_scanner ++ [EvalConjunctsCall [200]] /\
     if EvalConjuncts [toy_conjunct] 1 (mem template_scanner) [200]
     then
       reported = 3 /\
       forall k : nat,
         (1 <= k < 1 + 3)%nat ->
         exists r, rows' !! k = Some r /\ r !! 0%nat = Some 200
     else reported = 0).
Proof.
  refine (@WriteEmptyTuples_replicates_template debug_build template_scanner 200
            [toy_conjunct] (RowBatch.new 1 4) [0]
            (toy_context_with false (Some 200)) [[0]; [0]; [0]; [0]] 1%nat [0] 3
            _ eq_refl eq_refl _ _ _ _ _ eq_refl _ _ eq_refl).
  - lia.
  - simpl. lia.
  - simpl. lia.
  - vm_compute. discriminate.
  - vm_compute. discriminate.
  - vm_compute. repeat constructor.
  - vm_compute. lia.
  - vm_compute. repeat constructor.
Defined.


(** C6: the third slot of a row is flagged and the log has space. *)
Lemma one_flagged_slot_is_reported_once_witness :
  exists s' errors' healthy,
    @ReportTupleParseError debug_build toy_scanner toy_fields_rejected [0; 0; 1] 7
    = Ret (s', errors', healthy) /\
    error_log (state_ s')
    = error_log (state_ toy_scanner)
      ++ [column_error_message toy_scanner int_col2 "x" 1]
      ++ [row_error_message toy_stream toy_log_row 7] /\
    num_errors_in_file_ s' = 0 + 1 /\
    length errors' = 3%nat /\
    (forall k : nat, (k < 3)%nat -> errors' !! k = Some 0) /\
    healthy = ok (parse_status_ s').
Proof.
  refine (@one_flagged_slot_is_reported_once debug_build toy_scanner
            toy_fields_rejected [0; 0; 1] 7 2 int_col2
            {| start := "x"; len := 1 |} 1 toy_stream toy_log_row
            eq_refl eq_refl eq_refl eq_refl _ _ eq_refl eq_refl _ _).
  - discriminate.
  - intros [| [| [| k]]] Hk Hne; simpl in *; try reflexivity; lia.
  - vm_compute. split; [discriminate | reflexivity].
  - vm_compute. reflexivity.
Defined.

(** C6: the same row when the error log is full.  One slot is flagged, the
    call returns, the error is counted, and no message is logged: not the
    one column-level message of the claim. *)
Lemma full_log_reports_no_column :
  LogHasSpace (state_ full_log_scanner) = false /\
  exists s' errors' healthy,
    @ReportTupleParseError debug_build full_log_scanner toy_fields_rejected [0; 0; 1] 7
    = Ret (s', errors', healthy) /\
    error_log (state_ full_log_scanner) = [] /\
    error_log (state_ s') = [] /\
    num_errors_in_file_ s' = 1 /\
    errors' = [0; 0; 0].
Proof.
  split; [reflexivity |].
  eexists _, _, _. split; [reflexivity |]. repeat split; vm_compute; reflexivity.
Qed.

(** C7: three operations on a scanner whose parse status is an error. *)
Lemma parse_status_is_sticky_witness :
  let s' := Close (ReportColumnParseError (StartNewRowBatch failed_scanner)
                     int_col0 "y" 1) in
  parse_status_ s' = parse_status_ failed_scanner /\
  (forall desc data len,
     parse_status_ (ReportColumnParseError failed_scanner desc data len)
     = parse_status_ failed_scanner) /\
  (forall s0 desc data len,
     abort_on_error (state_ s0) = false ->
     parse_status_ (ReportColumnParseError s0 desc data len) = parse_status_ s0) /\
  (forall s0 fields errors row_idx s1 errors1 healthy,
     @ReportTupleParseError debug_build s0 fields errors row_idx
     = Ret (s1, errors1, healthy) ->
     healthy = ok (parse_status_ s1)).
Proof.
  exact (@parse_status_is_sticky debug_build
           [OpStartNewRowBatch; OpReportColumnParseError int_col0 "y" 1; OpClose]
           failed_scanner
           (Close (ReportColumnParseError (StartNewRowBatch failed_scanner)
                     int_col0 "y" 1))
           eq_refl eq_refl).
Defined.



(** * Further properties of the scanner

    Facts the code shows besides the ones its specification states: the
    rest of the batch life cycle, the paths of the tuple writers and of the
    error reporting that the statements above leave out. *)

(** ** Empty tuples without a template *)

(** X2. Without a template tuple no row is written.  The batch-level
    variant adds [n] rows to the batch and commits them without looking at
    a conjunct; the row-cursor variant evaluates the conjuncts once, on the
    row as it is, and reports [n] or 0. *)
Theorem WriteEmptyTuples_without_template `{Build}
    (s : HdfsScanner) (exprs : list Expr) (row_batch : RowBatch.t)
    (context : ScannerContext) (rows : list TupleRow) (row : nat)
    (cursor_row : TupleRow) (n : Z) :
  1 <= n ->
  template_tuple_ s = None ->
  conjuncts_ s = Some exprs ->
  RowBatch.num_rows row_batch + n <= RowBatch.capacity row_batch ->
  rows !! row = Some cursor_row ->
  (exists b',
     WriteEmptyTuples_batch s row_batch n = Ret (s, b', n) /\
     RowBatch.num_rows b' = RowBatch.num_rows row_batch + n /\
     RowBatch.has_in_flight_row b' = false /\
     RowBatch.tuple_ptrs b' = RowBatch.tuple_ptrs row_batch) /\
  WriteEmptyTuples_rows s context rows row n
  = Ret (set_trace (trace s ++ [EvalConjunctsCall cursor_row]) s, rows,
         if EvalConjuncts exprs (num_conjuncts_ s) (mem s) cursor_row then n else 0).
Proof.
  intros Hn Htemplate Hexprs Hroom Hcursor. split.
  - unfold WriteEmptyTuples_batch. pass_dchecks. rewrite Htemplate.
    unfold RowBatch.AddRows.
    replace (RowBatch.capacity row_batch <? RowBatch.num_rows row_batch + n)
      with false by (symmetry; apply Z.ltb_ge; lia).
    unfold RowBatch.CommitRows.
    rewrite 2!DCHECK_ok by (apply Z.leb_le; cbn; lia). bind_step.
    eexists. split; [reflexivity |]. repeat split.
  - unfold WriteEmptyTuples_rows. pass_dchecks.
    replace (n =? 0) with false by (symmetry; apply Z.eqb_neq; lia).
    rewrite Htemplate, (array_get_Some _ _ _ Hcursor). bind_step.
    unfold eval_conjuncts. rewrite Hexprs. bind_step.
    destruct (EvalConjuncts exprs (num_conjuncts_ s) (mem s) cursor_row); reflexivity.
Qed.

(** ** Batch assembly *)

(** [GetMemory] on a batch with room. *)
Lemma GetMemory_spec_room `{Build} (s : HdfsScanner) (b : RowBatch.t) :
  batch_ s = Some b ->
  0 <= RowBatch.num_rows b < RowBatch.capacity b ->
  RowBatch.capacity b <= INT_MAX ->
  GetMemory s
  = Ret (set_batch_ (Some (RowBatch.set_has_in_flight_row true b)) s,
         tuple_mem_ s, RowBatch.num_rows b,
         RowBatch.capacity b - RowBatch.num_rows b).
Proof.
  intros Hbatch Hrows Hcap. unfold GetMemory.
  rewrite DCHECK_ok by (rewrite Hbatch; reflexivity). bind_step.
  rewrite Hbatch. bind_step. unfold RowBatch.IsFull.
  rewrite DCHECK_ok by (apply negb_true_iff, Z.eqb_neq; lia). bind_step.
  rewrite AddRow_room by lia. cbv zeta. unfold RowBatch.GetRow.
  change (RowBatch.capacity (RowBatch.set_has_in_flight_row true b))
    with (RowBatch.capacity b).
  change (RowBatch.num_rows (RowBatch.set_has_in_flight_row true b))
    with (RowBatch.num_rows b).
  rewrite int_sub_id by (unfold is_int, INT_MIN, INT_MAX in *; lia).
  reflexivity.
Qed.

(** X3. On a batch with room, [GetMemory] hands out the tuple cursor and
    the row after the committed ones, marks that row in flight without
    committing it, and returns the number of rows the batch can still
    take, which is at least one.  On a full batch its assertion fails in a
    debug build. *)
Theorem GetMemory_hands_out_next_row `{Build} (s : HdfsScanner) (b : RowBatch.t) :
  batch_ s = Some b ->
  0 <= RowBatch.num_rows b <= RowBatch.capacity b ->
  RowBatch.capacity b <= INT_MAX ->
  if RowBatch.IsFull b
  then dchecks_enabled = true -> GetMemory s = Trap DCheckFailed
  else
    GetMemory s
    = Ret (set_batch_ (Some (RowBatch.set_has_in_flight_row true b)) s,
           tuple_mem_ s, RowBatch.num_rows b,
           RowBatch.capacity b - RowBatch.num_rows b) /\
    1 <= RowBatch.capacity b - RowBatch.num_rows b.
Proof.
  intros Hbatch Hrows Hcap.
  destruct (RowBatch.IsFull b) eqn:Hfull.
  - intros Hd. unfold GetMemory.
    rewrite DCHECK_ok by (rewrite Hbatch; reflexivity). bind_step.
    rewrite Hbatch. bind_step. rewrite Hfull.
    rewrite DCHECK_fails by (exact Hd || reflexivity). reflexivity.
  - unfold RowBatch.IsFull in Hfull. apply Z.eqb_neq in Hfull. split; [| lia].
    apply GetMemory_spec_room; try assumption. lia.
Qed.

(** X4. Whenever [CommitRows] returns, the scanner holds a batch that is
    not full (a full batch has been handed off and replaced by an empty
    one), so [GetMemory]'s assertion holds for the next row. *)
Theorem CommitRows_leaves_room `{Build} (s s' : HdfsScanner) (n : Z) (status : Status) :
  CommitRows s n = Ret (s', status) ->
  batch_size (state_ s) <> 0 ->
  exists b',
    batch_ s' = Some b' /\
    RowBatch.IsFull b' = false.
Proof.
  intros Hrun Hsize. unfold CommitRows in Hrun.
  apply bind_Ret_inv in Hrun. destruct Hrun as (_ & _ & Hrun).
  apply bind_Ret_inv in Hrun. destruct Hrun as (b & Hb & Hrun).
  apply bind_Ret_inv in Hrun. destruct Hrun as (_ & _ & Hrun).
  apply bind_Ret_inv in Hrun. destruct Hrun as (b1 & Hb1 & Hrun).
  cbv zeta in Hrun.
  apply bind_Ret_inv in Hrun. destruct Hrun as (s1 & Hs1 & Hrun).
  assert (Hroom : exists b', batch_ s1 = Some b' /\ RowBatch.IsFull b' = false).
  { destruct (RowBatch.IsFull b1 || RowBatch.AtResourceLimit b1) eqn:Hfull.
    - apply bind_Ret_inv in Hs1. destruct Hs1 as (ctx & _ & Hs1).
      injection Hs1 as <-. eexists. split; [reflexivity |].
      apply Z.eqb_neq. simpl. congruence.
    - injection Hs1 as <-. apply orb_false_elim in Hfull. exists b1.
      split; [reflexivity | exact (proj1 Hfull)]. }
  apply bind_Ret_inv in Hrun. destruct Hrun as (ctx & _ & Hrun).
  destruct (cancelled ctx); [injection Hrun as <- _; exact Hroom |].
  destruct (negb (ok (CheckQueryState (state_ s1))));
    injection Hrun as <- _; exact Hroom.
Qed.

(** X5. [AddFinalRowBatch] attaches the batch to the context as the final
    one, queues it at the scan node and leaves the scanner without a batch.
    Afterwards [GetMemory] and [CommitRows] do not return (their assertion
    fails in a debug build, and a release build goes on to dereference the
    NULL batch), and a second [AddFinalRowBatch] fails its assertion in a
    debug build. *)
Theorem AddFinalRowBatch_ends_the_batch `{Build}
    (s : HdfsScanner) (b : RowBatch.t) (ctx : ScannerContext) :
  batch_ s = Some b ->
  context_ s = Some ctx ->
  exists s',
    AddFinalRowBatch s = Ret s' /\
    batch_ s' = None /\
    context_ s' = Some (AttachCompletedResources ctx b true) /\
    materialized_row_batches (scan_node_ s')
    = materialized_row_batches (scan_node_ s) ++ [b] /\
    (exists e, GetMemory s' = Trap e) /\
    (forall n, exists e, CommitRows s' n = Trap e) /\
    (dchecks_enabled = true -> AddFinalRowBatch s' = Trap DCheckFailed).
Proof.
  intros Hbatch Hctx. unfold AddFinalRowBatch at 1.
  rewrite DCHECK_ok by (rewrite Hbatch; reflexivity). bind_step.
  rewrite Hbatch, Hctx. bind_step.
  eexists. split; [reflexivity |]. repeat split.
  - unfold GetMemory. cbn [batch_ set_batch_]. unfold DCHECK.
    destruct dchecks_enabled; simpl; eauto.
  - intros n. unfold CommitRows. cbn [batch_ set_batch_]. unfold DCHECK.
    destruct dchecks_enabled; simpl; eauto.
  - intros Hd. unfold AddFinalRowBatch. cbn [batch_ set_batch_]. unfold DCHECK.
    rewrite Hd. reflexivity.
Qed.

(** ** Life cycle *)

(** X6. [Close] releases the conjuncts to the scan node once: a second
    [Close] changes nothing. *)
Theorem Close_releases_conjuncts_once (s : HdfsScanner) :
  Close (Close s) = Close s /\
  conjuncts_ (Close s) = None /\
  released_conjuncts (scan_node_ (Close s))
  = released_conjuncts (scan_node_ s)
    ++ match conjuncts_ s with Some c => [c] | None => [] end.
Proof.
  unfold Close. destruct (conjuncts_ s) as [c |] eqn:Hc.
  - repeat split.
  - rewrite Hc, app_nil_r. repeat split.
Qed.

(** X7. The destructor's assertions along the life of a scanner.  They
    hold for a scanner that was only constructed.  After [Prepare] the
    scanner holds a batch and the conjuncts, and the destructor would fail;
    it still fails after [AddFinalRowBatch] alone, and its assertions hold
    again once [AddFinalRowBatch] and [Close] have both run. *)
Theorem destructor_needs_final_batch_and_close `{Build}
    (node : HdfsScanNode) (state : RuntimeState) (converter : TextConverter)
    (log_row : option (Z -> string)) (m : Memory) (context : ScannerContext) :
  let s0 := HdfsScanner_new node state converter log_row m in
  let s1 := fst (Prepare s0 context) in
  HdfsScanner_delete s0 = Ret tt /\
  snd (Prepare s0 context) = OK /\
  (dchecks_enabled = true -> HdfsScanner_delete s1 = Trap DCheckFailed) /\
  exists s2,
    AddFinalRowBatch s1 = Ret s2 /\
    (dchecks_enabled = true -> HdfsScanner_delete s2 = Trap DCheckFailed) /\
    HdfsScanner_delete (Close s2) = Ret tt.
Proof.
  intros s0 s1. split; [| split; [reflexivity | split]].
  - unfold HdfsScanner_delete, DCHECK. destruct dchecks_enabled; reflexivity.
  - intros Hd. unfold HdfsScanner_delete, DCHECK. rewrite Hd. reflexivity.
  - unfold AddFinalRowBatch, DCHECK.
    exists (set_batch_ None
              (set_scan_node_
                 (AddMaterializedRowBatch node
                    (RowBatch.new (num_tuples_per_row node) (batch_size state)))
                 (set_context_
                    (Some (AttachCompletedResources context
                             (RowBatch.new (num_tuples_per_row node) (batch_size state))
                             true)) s1))).
    split; [destruct dchecks_enabled; reflexivity |]. split.
    + intros Hd. unfold HdfsScanner_delete, DCHECK. rewrite Hd. reflexivity.
    + unfold HdfsScanner_delete, DCHECK. destruct dchecks_enabled; reflexivity.
Qed.

(** X8. When the scan node holds a generated function for the file format,
    no string slot has to be copied (there are no string slots, or the
    partition has no escape character and the stream does not compact) and
    the runtime state has its code generator, [InitializeWriteTuplesFn]
    installs the jitted function: [write_tuples_fn_] is set to it, the
    codegen-enabled counter goes up by one, the codegen-disabled counter
    stays, and the status is OK. *)
Theorem InitializeWriteTuplesFn_installs_generated_code
    (s : HdfsScanner) (partition : HdfsPartitionDescriptor) (type : THdfsFileFormat)
    (scanner_name : string) (fn : DriverFn) (jit : LlvmCodeGen) :
  GetCodegenFn (scan_node_ s) type = Some fn ->
  codegen (state_ s) = Some jit ->
  string_slots (tuple_desc (scan_node_ s)) = [] \/
  (escape_char partition = 0 /\
   exists st, stream_ s = Some st /\ stream_compact_data st = false) ->
  exists s',
    InitializeWriteTuplesFn s partition type scanner_name = Ret (s', OK) /\
    write_tuples_fn_ s' = Some (JitFunction jit fn) /\
    codegen_fn_ s' = Some fn /\
    num_scanners_codegen_enabled (scan_node_ s')
    = num_scanners_codegen_enabled (scan_node_ s) + 1 /\
    num_scanners_codegen_disabled (scan_node_ s')
    = num_scanners_codegen_disabled (scan_node_ s) /\
    parse_status_ s' = parse_status_ s.
Proof.
  intros Hfn Hjit Hcopy. unfold InitializeWriteTuplesFn. cbv zeta.
  cbn [codegen_fn_ set_codegen_fn_ scan_node_ stream_ state_]. rewrite Hfn.
  destruct Hcopy as [Hnone | (Hesc & st & Hst & Hcompact)].
  - rewrite Hnone, Hjit. cbn. eexists. split; [reflexivity |]. repeat split.
  - destruct (bool_decide (string_slots (tuple_desc (scan_node_ s)) = [])).
    + rewrite Hjit. cbn. eexists. split; [reflexivity |]. repeat split.
    + rewrite Hesc, Hst, Hjit. cbn. rewrite Hcompact.
      eexists. split; [reflexivity |]. repeat split.
Qed.

(** ** The interpreted tuple writer *)

(** X9. [WriteCompleteTuple] writes the error flags of the materialized
    slots and no other: the flag array keeps its length and the flags
    beyond the slots keep their values.  It stores the tuple in the row at
    the scan node's tuple index, and the value of [*error_in_row] on entry
    does not matter: it is reset before the first slot. *)
Theorem WriteCompleteTuple_flags_only_its_slots
    (s : HdfsScanner) (fields : list FieldLocation)
    (tuple : Z) (tuple_row : TupleRow) (template_tuple : option Z)
    (error_fields : list Z) (error_in_row : Z)
    (t : list Z) (st : Stream) (exprs : list Expr) :
  WriteCompleteTuple_ready s fields tuple tuple_row template_tuple error_fields t st exprs ->
  exists s' r,
    WriteCompleteTuple s fields tuple tuple_row template_tuple error_fields error_in_row
    = Ret (s', r) /\
    length (error_fields_out r) = length error_fields /\
    (forall k : nat,
       (length (materialized_slots (scan_node_ s)) <= k)%nat ->
       error_fields_out r !! k = error_fields !! k) /\
    row_out r = <[tuple_idx (scan_node_ s) := tuple]> tuple_row /\
    forall other : Z,
      WriteCompleteTuple s fields tuple tuple_row template_tuple error_fields other
      = Ret (s', r).
Proof.
  intros Hready.
  pose proof (WriteCompleteTuple_spec s fields tuple tuple_row template_tuple
                error_fields error_in_row t st exprs Hready) as Hrun.
  cbv zeta in Hrun. eexists _, _. split; [exact Hrun |].
  cbn [error_fields_out row_out].
  split; [| split; [| split]].
  - apply length_store_flags.
  - intros k Hk. apply store_flags_after.
    rewrite length_convert_slots by exact (ready_fields _ _ _ _ _ _ _ _ _ Hready). lia.
  - reflexivity.
  - intros other.
    exact (WriteCompleteTuple_spec s fields tuple tuple_row template_tuple
             error_fields other t st exprs Hready).
Qed.

(** X16. A scanner that has been prepared is ready for its first row: it
    holds the scan node's conjuncts and their number, and with a positive
    batch size [GetMemory] hands out row 0 of a fresh batch and the start of
    the tuple buffer allocated for it, with room for [batch_size] rows. *)
Theorem prepared_scanner_hands_out_first_row `{Build}
    (s : HdfsScanner) (context : ScannerContext) :
  0 < batch_size (state_ s) <= INT_MAX ->
  let s1 := fst (Prepare s context) in
  snd (Prepare s context) = OK /\
  conjuncts_ s1 = Some (GetConjuncts (scan_node_ s)) /\
  num_conjuncts_ s1 = Z.of_nat (length (GetConjuncts (scan_node_ s))) /\
  stream_ s1 = Some (GetStream context) /\
  tuples (mem s1) = tuples (mem s) /\
  exists s2,
    GetMemory s1 = Ret (s2, brk (mem s), 0, batch_size (state_ s)) /\
    batch_ s2
    = Some (RowBatch.set_has_in_flight_row true
              (RowBatch.new (num_tuples_per_row (scan_node_ s))
                 (batch_size (state_ s)))).
Proof.
  intros Hsize s1. repeat (split; [reflexivity |]).
  pose proof (GetMemory_spec_room s1
                (RowBatch.new (num_tuples_per_row (scan_node_ s))
                   (batch_size (state_ s))) eq_refl) as Hget.
  cbn [RowBatch.num_rows RowBatch.capacity RowBatch.new] in Hget.
  rewrite Hget by lia. rewrite Z.sub_0_r.
  eexists. split; reflexivity.
Qed.

(** ** Parse error reporting for any number of flagged slots *)

(** One column report appends at most one message, none when the log is
    full, and never grows the log past [max_errors]. *)
Lemma ReportColumnParseError_appends (s : HdfsScanner) (desc : SlotDescriptor)
    (data : string) (len : Z) :
  exists msgs : list string,
    error_log (state_ (ReportColumnParseError s desc data len))
    = error_log (state_ s) ++ msgs /\
    (length msgs <= 1)%nat /\
    Z.of_nat (length (error_log (state_ s) ++ msgs))
    <= Z.max (Z.of_nat (length (error_log (state_ s)))) (max_errors (state_ s)).
Proof.
  unfold ReportColumnParseError, LogError.
  destruct (LogHasSpace (state_ s)) eqn:Hspace; cbn [orb].
  - eexists [_]. split; [| split].
    + destruct (abort_on_error _ && ok _); reflexivity.
    + simpl. lia.
    + unfold LogHasSpace in Hspace. apply Z.ltb_lt in Hspace.
      rewrite length_app. simpl. lia.
  - exists []. rewrite app_nil_r. split; [| split; [simpl; lia | lia]].
    destruct (abort_on_error (state_ s)); [| reflexivity].
    cbn [orb andb]. destruct (ok (parse_status_ s)); reflexivity.
Qed.

Lemma ReportColumnParseError_sets_status (s : HdfsScanner) (desc : SlotDescriptor)
    (data : string) (len : Z) :
  INT_MIN < len ->
  abort_on_error (state_ s) = true ->
  ok (parse_status_ s) = true ->
  parse_status_ (ReportColumnParseError s desc data len)
  = ERROR (column_error_message s desc data (Z.abs len)).
Proof.
  intros Hlo Habort Hok. rewrite ReportColumnParseError_abs by exact Hlo.
  unfold ReportColumnParseError, LogError.
  replace (Z.abs len <? 0) with false by (symmetry; apply Z.ltb_ge; lia).
  rewrite Habort, orb_true_r.
  destruct (LogHasSpace (state_ s)).
  - change (abort_on_error (state_ (set_state_ _ s))) with (abort_on_error (state_ s)).
    change (parse_status_ (set_state_ _ s)) with (parse_status_ s).
    rewrite Habort, Hok. reflexivity.
  - rewrite Habort, Hok. reflexivity.
Qed.

Section ReportingAll.
Context `{Build}.

(** The slot loop returns whenever the arrays cover the slots; it clears
    the flags of these slots and no other, appends at most one message per
    flagged slot, and leaves everything but the log and the parse status
    alone. *)
Lemma report_slots_clears (slots : list SlotDescriptor) :
  forall (i : nat) (s : HdfsScanner) (fields : list FieldLocation) (errors : list Z),
    (i + length slots <= length errors)%nat ->
    (i + length slots <= length fields)%nat ->
    exists (s' : HdfsScanner) (errors' : list Z) (msgs : list string),
      report_slots s slots i fields errors = Ret (s', errors') /\
      length errors' = length errors /\
      (forall k : nat, (i <= k < i + length slots)%nat -> errors' !! k = Some 0) /\
      (forall k : nat, (k < i \/ i + length slots <= k)%nat ->
                       errors' !! k = errors !! k) /\
      error_log (state_ s') = error_log (state_ s) ++ msgs /\
      (length msgs <= length (flagged slots i errors))%nat /\
      Z.of_nat (length (error_log (state_ s')))
      <= Z.max (Z.of_nat (length (error_log (state_ s)))) (max_errors (state_ s)) /\
      stream_ s' = stream_ s /\
      LogRowParseError_override s' = LogRowParseError_override s /\
      num_errors_in_file_ s' = num_errors_in_file_ s /\
      abort_on_error (state_ s') = abort_on_error (state_ s) /\
      max_errors (state_ s') = max_errors (state_ s) /\
      file_errors (state_ s') = file_errors (state_ s) /\
      scan_node_ s' = scan_node_ s.
Proof.
  induction slots as [| desc slots IH]; intros i s fields errors Herrors Hfields.
  - exists s, errors, []. rewrite app_nil_r. simpl.
    repeat split; try reflexivity; try lia.
  - simpl in Herrors, Hfields.
    destruct (lookup_lt_is_Some_2 errors i) as [e He]; [lia |].
    destruct (lookup_lt_is_Some_2 fields i) as [f Hf]; [lia |].
    simpl report_slots. simpl flagged. rewrite He.
    rewrite (array_get_Some _ _ _ He). bind_step.
    destruct (u8_true e) eqn:Hflag.
    + rewrite (array_get_Some _ _ _ Hf). bind_step.
      rewrite array_set_lt by lia. bind_step.
      set (s1 := ReportColumnParseError s desc (start f) (len f)).
      destruct (IH (S i) s1 fields (<[i := u8_of_bool false]> errors))
        as (s' & errors' & msgs & Hrun & Hlen & Hclear & Hkeep & Hlog & Hmsgs
            & Hbound & Hframe); [rewrite length_insert; lia | lia |].
      destruct (ReportColumnParseError_appends s desc (start f) (len f))
        as (msgs1 & Hlog1 & Hmsgs1 & Hbound1).
      destruct (ReportColumnParseError_frame s desc (start f) (len f))
        as (F1 & F2 & F3 & F4 & F5 & F6 & F7).
      fold s1 in Hlog1, F1, F2, F3, F4, F5, F6, F7.
      destruct Hframe as (G1 & G2 & G3 & G4 & G5 & G6 & G7).
      exists s', errors', (msgs1 ++ msgs).
      split; [exact Hrun |]. split; [rewrite Hlen; apply length_insert |].
      split.
      { intros k Hk. simpl in Hk. destruct (decide (k = i)) as [-> | Hne].
        - rewrite Hkeep by lia. apply list_lookup_insert_eq. lia.
        - apply Hclear. lia. }
      split.
      { intros k Hk. simpl in Hk. rewrite Hkeep by lia. apply list_lookup_insert_ne. lia. }
      split; [rewrite Hlog, Hlog1, app_assoc; reflexivity |].
      split.
      { rewrite length_app. simpl.
        assert (Hsame : flagged slots (S i) (<[i := u8_of_bool false]> errors)
                        = flagged slots (S i) errors).
        { clear. generalize (S i) (Nat.lt_succ_diag_r i).
          induction slots as [| d slots IHs]; intros j Hj; [reflexivity |].
          simpl. rewrite list_lookup_insert_ne by lia.
          rewrite IHs by lia. reflexivity. }
        rewrite Hsame in Hmsgs. lia. }
      split.
      { rewrite Hlog1, F5 in Hbound. lia. }
      repeat split; congruence.
    + destruct (IH (S i) s fields errors)
        as (s' & errors' & msgs & Hrun & Hlen & Hclear & Hkeep & Hlog & Hmsgs
            & Hbound & Hframe); [lia | lia |].
      exists s', errors', msgs.
      split; [exact Hrun |]. split; [exact Hlen |].
      split.
      { intros k Hk. simpl in Hk. destruct (decide (k = i)) as [-> | Hne].
        - rewrite Hkeep by lia. rewrite He. f_equal.
          unfold u8_true in Hflag. apply negb_false_iff, Z.eqb_eq in Hflag. exact Hflag.
        - apply Hclear. lia. }
      split; [intros k Hk; simpl in Hk; apply Hkeep; lia |].
      repeat split; tauto || assumption.
Qed.

(** The first flagged slot decides the parse status under abort-on-error. *)
Lemma report_slots_first_error (slots : list SlotDescriptor) :
  forall (i i0 : nat) (s : HdfsScanner) (fields : list FieldLocation)
         (errors : list Z) (r : HdfsScanner * list Z)
         (desc : SlotDescriptor) (f : FieldLocation) (e : Z),
    report_slots s slots i fields errors = Ret r ->
    (i <= i0)%nat ->
    slots !! (i0 - i)%nat = Some desc ->
    fields !! i0 = Some f ->
    errors !! i0 = Some e ->
    e <> 0 ->
    (forall k : nat, (i <= k < i0)%nat -> errors !! k = Some 0) ->
    INT_MIN < len f ->
    abort_on_error (state_ s) = true ->
    ok (parse_status_ s) = true ->
    parse_status_ (fst r)
    = ERROR (column_error_message s desc (start f) (Z.abs (len f))).
Proof.
  induction slots as [| d slots IH];
    intros i i0 s fields errors r desc f e Hrun Hle Hdesc Hf He Hne Hzero Hlo
           Habort Hok; [discriminate |].
  simpl in Hrun. destruct (decide (i = i0)) as [-> | Hlt].
  - rewrite Nat.sub_diag in Hdesc. injection Hdesc as ->.
    rewrite (array_get_Some _ _ _ He) in Hrun.
    cbn [mbind Res_mbind Res_bind] in Hrun.
    replace (u8_true e) with true in Hrun
      by (symmetry; unfold u8_true; apply negb_true_iff, Z.eqb_neq; exact Hne).
    rewrite (array_get_Some _ _ _ Hf) in Hrun.
    cbn [mbind Res_mbind Res_bind] in Hrun.
    apply bind_Ret_inv in Hrun. destruct Hrun as (errors1 & _ & Hrun).
    pose proof (ReportColumnParseError_sets_status s desc (start f) (len f)
                  Hlo Habort Hok) as Hset.
    rewrite (report_slots_parse_status _ _ _ _ _ _ Hrun), Hset; [reflexivity |].
    rewrite Hset. reflexivity.
  - rewrite (array_get_Some _ _ _ (Hzero i ltac:(lia))) in Hrun.
    cbn [mbind Res_mbind Res_bind u8_true Z.eqb negb] in Hrun.
    apply (IH (S i) i0 s fields errors r desc f e); try assumption.
    + lia.
    + replace (i0 - i)%nat with (S (i0 - S i)) in Hdesc by lia. exact Hdesc.
    + intros k Hk. apply Hzero. lia.
Qed.

(** Without abort-on-error the slot loop leaves the parse status alone. *)
Lemma report_slots_status_without_abort (slots : list SlotDescriptor) :
  forall (i : nat) (s : HdfsScanner) (fields : list FieldLocation)
         (errors : list Z) (r : HdfsScanner * list Z),
    report_slots s slots i fields errors = Ret r ->
    abort_on_error (state_ s) = false ->
    parse_status_ (fst r) = parse_status_ s.
Proof.
  induction slots as [| d slots IH]; intros i s fields errors r Hrun Habort;
    simpl in Hrun.
  - injection Hrun as <-. reflexivity.
  - apply bind_Ret_inv in Hrun. destruct Hrun as (e & _ & Hrun).
    destruct (u8_true e).
    + apply bind_Ret_inv in Hrun. destruct Hrun as (f & _ & Hrun).
      apply bind_Ret_inv in Hrun. destruct Hrun as (errs1 & _ & Hrun).
      apply IH in Hrun.
      * rewrite Hrun.
        apply (ReportColumnParseError_status s d (start f) (len f)). exact Habort.
      * rewrite <- Habort.
        apply (ReportColumnParseError_frame s d (start f) (len f)).
    + apply IH in Hrun; assumption.
Qed.

End ReportingAll.

(** X10. Without abort-on-error a row is counted once, whatever the number
    of flagged slots: [ReportTupleParseError] returns, every flag of a
    materialized slot is false afterwards and the flags beyond are kept,
    the per-file error counter goes up by exactly 1, the log has grown by
    at most one message per flagged slot and one for the row and never past
    [max_errors], and the parse status is left alone: the value returned
    is whether it was OK before. *)
Theorem ReportTupleParseError_counts_a_row_once `{Build}
    (s : HdfsScanner) (fields : list FieldLocation) (errors : list Z) (row_idx : Z)
    (st : Stream) (describe : Z -> string) :
  (length (materialized_slots (scan_node_ s)) <= length errors)%nat ->
  (length (materialized_slots (scan_node_ s)) <= length fields)%nat ->
  stream_ s = Some st ->
  LogRowParseError_override s = Some describe ->
  0 <= num_errors_in_file_ s < INT_MAX ->
  abort_on_error (state_ s) = false ->
  exists s' errors' msgs,
    ReportTupleParseError s fields errors row_idx
    = Ret (s', errors', ok (parse_status_ s)) /\
    (forall k : nat,
       (k < length (materialized_slots (scan_node_ s)))%nat -> errors' !! k = Some 0) /\
    (forall k : nat,
       (length (materialized_slots (scan_node_ s)) <= k)%nat ->
       errors' !! k = errors !! k) /\
    num_errors_in_file_ s' = num_errors_in_file_ s + 1 /\
    error_log (state_ s') = error_log (state_ s) ++ msgs /\
    (length msgs
     <= length (flagged (materialized_slots (scan_node_ s)) 0 errors) + 1)%nat /\
    Z.of_nat (length (error_log (state_ s')))
    <= Z.max (Z.of_nat (length (error_log (state_ s)))) (max_errors (state_ s)) /\
    parse_status_ s' = parse_status_ s /\
    file_errors (state_ s') = file_errors (state_ s).
Proof.
  intros Herrors Hfields Hstream Hdescribe Hcount Habort.
  destruct (report_slots_clears (materialized_slots (scan_node_ s)) 0 s fields errors
              Herrors Hfields)
    as (s1 & errors1 & msgs & Hrun & Hlen & Hclear & Hkeep & Hlog & Hmsgs & Hbound
        & F1 & F2 & F3 & F4 & F5 & F6 & F7).
  pose proof (report_slots_status_without_abort _ _ _ _ _ _ Hrun Habort) as Hstatus.
  cbn [fst] in Hstatus.
  unfold ReportTupleParseError. rewrite Hrun. bind_step.
  assert (Hnext : int_add (num_errors_in_file_ s1) 1 = num_errors_in_file_ s + 1).
  { rewrite F3. apply int_add_id. unfold is_int, INT_MIN, INT_MAX in *. lia. }
  destruct (LogHasSpace (state_ s1)) eqn:Hspace.
  - rewrite F1, Hstream. bind_step. unfold LogRowParseError. rewrite F2, Hdescribe.
    bind_step. cbn [state_ set_state_ set_num_errors_in_file_ abort_on_error].
    unfold LogError. rewrite Hspace. cbn [abort_on_error set_error_log].
    rewrite F4, Habort. bind_step.
    eexists _, errors1, (msgs ++ [_]).
    rewrite <- Hstatus. split; [reflexivity |].
    split; [intros k Hk; apply Hclear; lia |].
    split; [intros k Hk; apply Hkeep; lia |].
    cbn [num_errors_in_file_ set_num_errors_in_file_ state_ set_state_
         error_log set_error_log file_errors].
    split; [exact Hnext |].
    split; [rewrite Hlog, app_assoc; reflexivity |].
    split; [rewrite length_app; simpl; lia |].
    split.
    { unfold LogHasSpace in Hspace. apply Z.ltb_lt in Hspace.
      rewrite length_app. simpl. rewrite F5 in Hspace. lia. }
    split; [reflexivity | exact F6].
  - bind_step. cbn [state_ set_num_errors_in_file_]. rewrite F4, Habort. bind_step.
    eexists _, errors1, msgs.
    rewrite <- Hstatus. split; [reflexivity |].
    split; [intros k Hk; apply Hclear; lia |].
    split; [intros k Hk; apply Hkeep; lia |].
    cbn [num_errors_in_file_ set_num_errors_in_file_ state_].
    split; [exact Hnext |].
    split; [exact Hlog |].
    split; [lia |].
    split; [exact Hbound |].
    split; [reflexivity | exact F6].
Qed.

(** X11. Under abort-on-error the first flagged slot decides the parse
    status: from an OK status, [ReportTupleParseError] leaves the status
    holding the message of the first flagged column, however many slots
    are flagged after it, registers one error for the file, and returns
    false. *)
Theorem abort_keeps_first_column_error `{Build}
    (s : HdfsScanner) (fields : list FieldLocation) (errors : list Z) (row_idx : Z)
    (i0 : nat) (desc : SlotDescriptor) (f : FieldLocation) (e : Z)
    (st : Stream) (describe : Z -> string) :
  (length (materialized_slots (scan_node_ s)) <= length errors)%nat ->
  (length (materialized_slots (scan_node_ s)) <= length fields)%nat ->
  materialized_slots (scan_node_ s) !! i0 = Some desc ->
  fields !! i0 = Some f ->
  errors !! i0 = Some e ->
  e <> 0 ->
  (forall k : nat, (k < i0)%nat -> errors !! k = Some 0) ->
  INT_MIN < len f ->
  stream_ s = Some st ->
  LogRowParseError_override s = Some describe ->
  abort_on_error (state_ s) = true ->
  ok (parse_status_ s) = true ->
  exists s' errors',
    ReportTupleParseError s fields errors row_idx = Ret (s', errors', false) /\
    parse_status_ s'
    = ERROR (column_error_message s desc (start f) (Z.abs (len f))) /\
    file_errors (state_ s') = file_errors (state_ s) ++ [(filename st, 1)] /\
    (forall k : nat,
       (k < length (materialized_slots (scan_node_ s)))%nat -> errors' !! k = Some 0).
Proof.
  intros Herrors Hfields Hdesc Hf He Hne Hzero Hlo Hstream Hdescribe Habort Hok.
  destruct (report_slots_clears (materialized_slots (scan_node_ s)) 0 s fields errors
              Herrors Hfields)
    as (s1 & errors1 & msgs & Hrun & Hlen & Hclear & Hkeep & Hlog & Hmsgs & Hbound
        & F1 & F2 & F3 & F4 & F5 & F6 & F7).
  pose proof (report_slots_first_error _ 0 i0 s fields errors _ desc f e Hrun
                ltac:(lia) ltac:(rewrite Nat.sub_0_r; exact Hdesc) Hf He Hne
                ltac:(intros k Hk; apply Hzero; lia) Hlo Habort Hok) as Hstatus.
  cbn [fst] in Hstatus.
  unfold ReportTupleParseError. rewrite Hrun. bind_step.
  assert (Hfinish :
    forall s2 : HdfsScanner,
      stream_ s2 = Some st ->
      abort_on_error (state_ s2) = true ->
      parse_status_ s2
      = ERROR (column_error_message s desc (start f) (Z.abs (len f))) ->
      file_errors (state_ s2) = file_errors (state_ s) ->
      exists s' errors',
        (s3 ← (if abort_on_error
                    (state_ (set_num_errors_in_file_
                               (int_add (num_errors_in_file_ s2) 1) s2))
               then
                 st0 ← deref (stream_ (set_num_errors_in_file_
                                         (int_add (num_errors_in_file_ s2) 1) s2));
                 let s4 := set_state_
                             (ReportFileErrors
                                (state_ (set_num_errors_in_file_
                                           (int_add (num_errors_in_file_ s2) 1) s2))
                                (filename st0) 1)
                             (set_num_errors_in_file_
                                (int_add (num_errors_in_file_ s2) 1) s2) in
                 _ ← DCHECK (negb (ok (parse_status_ s4)));
                 Ret s4
               else Ret (set_num_errors_in_file_
                           (int_add (num_errors_in_file_ s2) 1) s2));
         Ret (s3, errors1, ok (parse_status_ s3)))
        = Ret (s', errors', false) /\
        parse_status_ s'
        = ERROR (column_error_message s desc (start f) (Z.abs (len f))) /\
        file_errors (state_ s') = file_errors (state_ s) ++ [(filename st, 1)] /\
        (forall k : nat,
           (k < length (materialized_slots (scan_node_ s)))%nat ->
           errors' !! k = Some 0)).
  { intros s2 Hst2 Hab2 Hps2 Hfe2.
    change (abort_on_error (state_ (set_num_errors_in_file_ _ s2)))
      with (abort_on_error (state_ s2)).
    change (stream_ (set_num_errors_in_file_ _ s2)) with (stream_ s2).
    rewrite Hab2, Hst2. bind_step. cbv zeta.
    rewrite DCHECK_ok
      by (change (parse_status_ (set_state_ _ (set_num_errors_in_file_ _ s2)))
            with (parse_status_ s2); rewrite Hps2; reflexivity).
    bind_step.
    change (parse_status_ (set_state_ _ (set_num_errors_in_file_ _ s2)))
      with (parse_status_ s2).
    rewrite Hps2. eexists _, errors1. split; [reflexivity |].
    split; [exact Hps2 |]. split.
    - cbn [state_ set_state_ set_num_errors_in_file_ ReportFileErrors
           file_errors set_file_errors]. rewrite Hfe2. reflexivity.
    - intros k Hk. apply Hclear. lia. }
  destruct (LogHasSpace (state_ s1)) eqn:Hspace.
  - rewrite F1, Hstream. bind_step. unfold LogRowParseError. rewrite F2, Hdescribe.
    bind_step. apply Hfinish.
    + exact (eq_trans F1 Hstream).
    + unfold LogError. rewrite Hspace. exact (eq_trans F4 Habort).
    + exact Hstatus.
    + unfold LogError. rewrite Hspace. exact F6.
  - bind_step. apply Hfinish.
    + exact (eq_trans F1 Hstream).
    + exact (eq_trans F4 Habort).
    + exact Hstatus.
    + exact F6.
Qed.

(** X12. Under abort-on-error [ReportTupleParseError] asserts that the
    parse status is an error when it is done.  Called for a row with no
    flagged slot while the status is OK, it fails that assertion in a debug
    build; a release build counts the row and the file error all the same
    and returns true. *)
Theorem ReportTupleParseError_expects_a_failure_under_abort `{Build}
    (s : HdfsScanner) (fields : list FieldLocation) (errors : list Z) (row_idx : Z)
    (st : Stream) :
  (forall k : nat,
     (k < length (materialized_slots (scan_node_ s)))%nat -> errors !! k = Some 0) ->
  stream_ s = Some st ->
  LogHasSpace (state_ s) = false ->
  abort_on_error (state_ s) = true ->
  ok (parse_status_ s) = true ->
  ReportTupleParseError s fields errors row_idx
  = if dchecks_enabled then Trap DCheckFailed
    else Ret (set_state_ (ReportFileErrors (state_ s) (filename st) 1)
                (set_num_errors_in_file_ (int_add (num_errors_in_file_ s) 1) s),
              errors, true).
Proof.
  intros Hzero Hstream Hspace Habort Hok. unfold ReportTupleParseError.
  rewrite report_slots_none by (intros k Hk; apply Hzero; lia). bind_step.
  rewrite Hspace. bind_step.
  change (abort_on_error (state_ (set_num_errors_in_file_ _ s)))
    with (abort_on_error (state_ s)).
  change (stream_ (set_num_errors_in_file_ _ s)) with (stream_ s).
  rewrite Habort, Hstream. bind_step. cbv zeta.
  change (parse_status_ (set_state_ _ (set_num_errors_in_file_ _ s)))
    with (parse_status_ s).
  rewrite Hok. unfold DCHECK. cbn [negb andb].
  destruct dchecks_enabled; [reflexivity |].
  cbn [andb]. bind_step.
  change (parse_status_ (set_state_ _ (set_num_errors_in_file_ _ s)))
    with (parse_status_ s).
  rewrite Hok. reflexivity.
Qed.

(** X13. The base class does not describe rows.  A scanner that does not
    override [LogRowParseError] fails the assertion of the base-class
    function in a debug build whenever it reports a row, with any number
    of flagged slots, and the error log still has space once the flagged
    columns have been reported. *)
Theorem base_LogRowParseError_is_not_to_be_reached `{Build}
    (s : HdfsScanner) (fields : list FieldLocation) (errors : list Z) (row_idx : Z)
    (st : Stream) :
  (length (materialized_slots (scan_node_ s)) <= length errors)%nat ->
  (length (materialized_slots (scan_node_ s)) <= length fields)%nat ->
  stream_ s = Some st ->
  LogRowParseError_override s = None ->
  Z.of_nat (length (error_log (state_ s)))
  + Z.of_nat (length (flagged (materialized_slots (scan_node_ s)) 0 errors))
  < max_errors (state_ s) ->
  dchecks_enabled = true ->
  ReportTupleParseError s fields errors row_idx = Trap DCheckFailed.
Proof.
  intros Herrors Hfields Hstream Hbase Hspace Hd.
  destruct (report_slots_clears (materialized_slots (scan_node_ s)) 0 s fields errors
              Herrors Hfields)
    as (s1 & errors1 & msgs & Hrun & Hlen & Hclear & Hkeep & Hlog & Hmsgs & Hbound
        & F1 & F2 & F3 & F4 & F5 & F6 & F7).
  unfold ReportTupleParseError. rewrite Hrun. bind_step.
  assert (Hspace1 : LogHasSpace (state_ s1) = true).
  { unfold LogHasSpace. apply Z.ltb_lt. rewrite Hlog, F5, length_app. lia. }
  rewrite Hspace1, F1, Hstream. bind_step.
  unfold LogRowParseError. rewrite F2, Hbase.
  rewrite DCHECK_fails by (exact Hd || reflexivity). reflexivity.
Qed.

(** ** The shape of the generated function *)

Lemma converted_slots_app (fn1 fn2 : FusedFn) :
  converted_slots (fn1 ++ fn2) = converted_slots fn1 ++ converted_slots fn2.
Proof. unfold converted_slots. apply flat_map_app. Qed.

Lemma conjunct_branches_app (fn1 fn2 : FusedFn) :
  conjunct_branches (fn1 ++ fn2) = conjunct_branches fn1 ++ conjunct_branches fn2.
Proof. unfold conjunct_branches. apply flat_map_app. Qed.

(** The instructions generated for in-range slots convert exactly these
    slots. *)
Lemma converted_slot_instrs (fns : list SlotFn) (l : list nat) (tail : list Instr)
    (t : Terminator) :
  (forall j : nat, j ∈ l -> (j < length fns)%nat) ->
  (forall i : Instr, i ∈ tail ->
     match i with CallWriteSlot _ _ => False | _ => True end) ->
  converted_slots [{| body := slot_instrs fns l ++ tail; term := t |}] = l.
Proof.
  intros Hl Htail. unfold converted_slots. simpl. rewrite app_nil_r, flat_map_app.
  assert (Hnone : flat_map (fun i => match i with
                                     | CallWriteSlot slot_idx _ => [slot_idx]
                                     | _ => []
                                     end) tail = []).
  { induction tail as [| i tail IH]; [reflexivity |]. simpl.
    rewrite IH by (intros i' Hi'; apply Htail; apply elem_of_cons; right; exact Hi').
    specialize (Htail i ltac:(apply elem_of_cons; left; reflexivity)).
    destruct i; try reflexivity. contradiction. }
  rewrite Hnone, app_nil_r.
  induction l as [| j l IH]; [reflexivity |].
  destruct (lookup_lt_is_Some_2 fns j) as [fn Hfn];
    [apply Hl; apply elem_of_cons; left; reflexivity |].
  unfold slot_instrs. simpl. rewrite Hfn. simpl. f_equal.
  apply IH. intros j' Hj'. apply Hl. apply elem_of_cons. right. exact Hj'.
Qed.

Section GeneratedShape.
Context `{Build}.

(** The parse blocks convert the slots of [schedule], branch on the
    compiled conjuncts in their order, and are one more than the
    conjuncts. *)
Lemma codegen_conjuncts_shape (order : list Z) (fns : list SlotFn)
    (conjuncts : list Expr) :
  forall (k : Z) (blocks : list BasicBlock),
    codegen_conjuncts order fns conjuncts k = Ret blocks ->
    (length order <= length fns)%nat ->
    converted_slots blocks = schedule order k (S (length conjuncts)) /\
    map Some (conjunct_branches blocks) = map codegen_fn conjuncts /\
    length blocks = S (length conjuncts).
Proof.
  assert (Hrange : forall (k : Z) (j : nat),
            (length order <= length fns)%nat ->
            j ∈ scheduled order k 0 -> (j < length fns)%nat).
  { intros k j Hlen Hj. apply scheduled_elem in Hj. destruct Hj as [_ Hj].
    apply lookup_lt_Some in Hj. lia. }
  induction conjuncts as [| c rest IH]; intros k blocks Hgen Hlen; simpl in Hgen.
  - rewrite codegen_slots_spec in Hgen by (simpl; lia).
    cbn [mbind Res_mbind Res_bind] in Hgen. injection Hgen as <-.
    split; [| split; reflexivity].
    rewrite converted_slot_instrs.
    + simpl. rewrite app_nil_r. reflexivity.
    + intros j Hj. exact (Hrange k j Hlen Hj).
    + intros i Hi. apply list_elem_of_singleton in Hi. subst i. exact I.
  - rewrite codegen_slots_spec in Hgen by (simpl; lia).
    cbn [mbind Res_mbind Res_bind] in Hgen.
    destruct (codegen_fn c) as [fn |] eqn:Hfn; [| discriminate].
    cbn [mbind Res_mbind Res_bind deref] in Hgen.
    destruct (codegen_conjuncts order fns rest (k + 1)) as [tail | e] eqn:Htail;
      [| discriminate].
    cbn [mbind Res_mbind Res_bind] in Hgen. injection Hgen as <-.
    destruct (IH (k + 1) tail Htail Hlen) as (Hslots & Hbranches & Hblocks).
    split; [| split].
    + change ({| body := slot_instrs fns (scheduled order k 0);
                 term := CondBrConjunct fn |} :: tail)
        with ([{| body := slot_instrs fns (scheduled order k 0);
                  term := CondBrConjunct fn |}] ++ tail).
      rewrite converted_slots_app, Hslots.
      rewrite <- (app_nil_r (slot_instrs fns (scheduled order k 0))).
      rewrite converted_slot_instrs.
      * reflexivity.
      * intros j Hj. exact (Hrange k j Hlen Hj).
      * intros i Hi. apply elem_of_nil in Hi. contradiction.
    + simpl. f_equal; [symmetry; exact Hfn | exact Hbranches].
    + simpl. f_equal. exact Hblocks.
Qed.

Lemma conjuncts_compiled_Forall (conjuncts : list Expr) :
  Forall (fun c => codegen_fn c <> None /\ scratch_buffer_size c = 0) conjuncts ->
  conjuncts_compiled conjuncts = Ret true.
Proof.
  induction 1 as [| c rest [Hfn Hscratch] Hrest IH]; [reflexivity |].
  simpl. destruct (codegen_fn c); [| contradiction].
  rewrite DCHECK_ok by (apply Z.eqb_eq; exact Hscratch). exact IH.
Qed.

Lemma codegen_conjuncts_returns (order : list Z) (fns : list SlotFn)
    (conjuncts : list Expr) :
  Forall (fun c => codegen_fn c <> None /\ scratch_buffer_size c = 0) conjuncts ->
  (length order <= length fns)%nat ->
  forall k : Z, exists blocks, codegen_conjuncts order fns conjuncts k = Ret blocks.
Proof.
  intros Hall Hlen. induction Hall as [| c rest [Hfn _] Hrest IH]; intros k; simpl.
  - rewrite codegen_slots_spec by (simpl; lia). eexists. reflexivity.
  - rewrite codegen_slots_spec by (simpl; lia). bind_step.
    destruct (codegen_fn c); [| contradiction]. bind_step.
    destruct (IH (k + 1)) as [blocks ->]. eexists. reflexivity.
Qed.

End GeneratedShape.

Lemma codegen_slot_fns_None (codegen : LlvmCodeGen) (slots : list SlotDescriptor) :
  Exists (fun desc => CodegenWriteSlot codegen desc = None) slots ->
  codegen_slot_fns codegen slots = None.
Proof.
  induction 1 as [desc rest Hdesc | desc rest Hrest IH]; simpl.
  - rewrite Hdesc. reflexivity.
  - destruct (CodegenWriteSlot codegen desc); [| reflexivity]. rewrite IH. reflexivity.
Qed.

Lemma codegen_slot_fns_Some (codegen : LlvmCodeGen) (slots : list SlotDescriptor) :
  Forall (fun desc => CodegenWriteSlot codegen desc <> None) slots ->
  exists fns, codegen_slot_fns codegen slots = Some fns.
Proof.
  induction 1 as [| desc rest Hdesc Hrest [fns IH]]; simpl.
  - eexists. reflexivity.
  - destruct (CodegenWriteSlot codegen desc); [| contradiction].
    rewrite IH. eexists. reflexivity.
Qed.

(** What the blocks around the parse blocks contribute. *)
Lemma generated_function_shape (node : HdfsScanNode) (blocks : list BasicBlock) :
  let entry :=
    {| body :=
         (if num_materialized_partition_keys node =? 0
          then map ZeroNullByte (seq 0 (Z.to_nat (num_null_bytes (tuple_desc node))))
          else [MemcpyTemplate (byte_size (tuple_desc node))])
         ++ [StoreTupleInRow (tuple_idx node)];
       term := Br |} in
  let eval_fail := {| body := []; term := RetFalse |} in
  converted_slots (entry :: blocks ++ [eval_fail]) = converted_slots blocks /\
  conjunct_branches (entry :: blocks ++ [eval_fail]) = conjunct_branches blocks /\
  length (entry :: blocks ++ [eval_fail]) = (length blocks + 2)%nat /\
  last (entry :: blocks ++ [eval_fail]) = Some eval_fail.
Proof.
  intros entry eval_fail.
  assert (Hentry : converted_slots [entry] = []).
  { apply (converted_slot_instrs [] [] (body entry) Br).
    - intros j Hj. apply elem_of_nil in Hj. contradiction.
    - intros i Hi. apply elem_of_app in Hi. destruct Hi as [Hi | Hi].
      + destruct (num_materialized_partition_keys node =? 0).
        * apply list_elem_of_fmap in Hi. destruct Hi as (k & -> & _). exact I.
        * apply list_elem_of_singleton in Hi. subst i. exact I.
      + apply list_elem_of_singleton in Hi. subst i. exact I. }
  split; [| split; [| split]].
  - change (entry :: blocks ++ [eval_fail]) with ([entry] ++ blocks ++ [eval_fail]).
    rewrite !converted_slots_app, Hentry. simpl. apply app_nil_r.
  - change (entry :: blocks ++ [eval_fail]) with ([entry] ++ blocks ++ [eval_fail]).
    rewrite !conjunct_branches_app. simpl. apply app_nil_r.
  - simpl. rewrite length_app. simpl. lia.
  - rewrite app_comm_cons. apply last_snoc.
Qed.

(** X14. The generated function converts every materialized slot exactly
    once, whatever the materialization order (each order value being a
    conjunct index or the number of conjuncts), and branches on the
    compiled conjuncts, once each and in their order.  Its blocks are the
    entry block, one parse block per conjunct and one for the slots no
    conjunct references, and last the [eval_fail] block, which only returns
    false. *)
Theorem generated_code_converts_each_slot_once `{Build}
    (node : HdfsScanNode) (codegen : LlvmCodeGen) (conjuncts : list Expr)
    (fn : FusedFn) :
  CodegenWriteCompleteTuple node codegen conjuncts = Ret (Some fn) ->
  length (ComputeSlotMaterializationOrder node) = length (materialized_slots node) ->
  (forall (j : nat) (o : Z),
     ComputeSlotMaterializationOrder node !! j = Some o ->
     0 <= o <= Z.of_nat (length conjuncts)) ->
  Permutation (converted_slots fn) (seq 0 (length (materialized_slots node))) /\
  map Some (conjunct_branches fn) = map codegen_fn conjuncts /\
  length fn = (length conjuncts + 3)%nat /\
  last fn = Some {| body := []; term := RetFalse |}.
Proof.
  intros Hgen Hlen Hrange.
  apply CodegenWriteCompleteTuple_Some in Hgen.
  destruct Hgen as (fns & blocks & _ & Hfns & Hblocks & ->).
  destruct (codegen_slot_fns_spec _ _ _ Hfns) as [Hfns_len _].
  destruct (codegen_conjuncts_shape _ _ _ _ _ Hblocks ltac:(lia))
    as (Hslots & Hbranches & Hcount).
  destruct (generated_function_shape node blocks) as (Gslots & Gbranches & Glen & Glast).
  cbv zeta in Gslots, Gbranches, Glen, Glast.
  rewrite Gslots, Gbranches, Glen, Glast, Hslots, Hbranches, Hcount.
  split; [| split; [reflexivity | split; [lia | reflexivity]]].
  rewrite <- Hlen. apply schedule_complete. exact Hrange.
Qed.

(** X15. Beyond ineligibility, construction falls back when a slot has
    no compiled converter and when the tuple's struct cannot be generated:
    [CodegenWriteCompleteTuple] returns NULL.  Otherwise, for an eligible
    configuration, it generates the function that converts the slots in
    schedule order and branches on the compiled conjuncts in their order,
    and returns it if it verifies and NULL if it does not. *)
Theorem CodegenWriteCompleteTuple_construction_failures `{Build}
    (node : HdfsScanNode) (codegen : LlvmCodeGen) (conjuncts : list Expr) :
  has_timestamp_slot (materialized_slots node) = false ->
  compact_data node && negb (bool_decide (string_slots (tuple_desc node) = [])) = false ->
  Forall (fun c => codegen_fn c <> None /\ scratch_buffer_size c = 0) conjuncts ->
  (length (ComputeSlotMaterializationOrder node)
   <= length (materialized_slots node))%nat ->
  (Exists (fun desc => CodegenWriteSlot codegen desc = None) (materialized_slots node) ->
   CodegenWriteCompleteTuple node codegen conjuncts = Ret None) /\
  (GenerateLlvmStruct codegen = false ->
   CodegenWriteCompleteTuple node codegen conjuncts = Ret None) /\
  (Forall (fun desc => CodegenWriteSlot codegen desc <> None) (materialized_slots node) ->
   GenerateLlvmStruct codegen = true ->
   exists fused : FusedFn,
     CodegenWriteCompleteTuple node codegen conjuncts
     = Ret (if verify_fused codegen fused then Some fused else None) /\
     converted_slots fused
     = schedule (ComputeSlotMaterializationOrder node) 0 (S (length conjuncts)) /\
     map Some (conjunct_branches fused) = map codegen_fn conjuncts /\
     length fused = (length conjuncts + 3)%nat /\
     last fused = Some {| body := []; term := RetFalse |}).
Proof.
  intros Htimestamp Hcompact Hconjuncts Horder.
  unfold CodegenWriteCompleteTuple.
  rewrite Htimestamp, Hcompact, (conjuncts_compiled_Forall _ Hconjuncts).
  cbn [mbind Res_mbind Res_bind negb]. cbv zeta.
  split; [| split].
  - intros Hslot. rewrite (codegen_slot_fns_None _ _ Hslot). reflexivity.
  - intros Hstruct. rewrite Hstruct.
    destruct (codegen_slot_fns codegen (materialized_slots node)); reflexivity.
  - intros Hslots Hstruct. rewrite Hstruct.
    destruct (codegen_slot_fns_Some _ _ Hslots) as [fns Hfns]. rewrite Hfns.
    destruct (codegen_slot_fns_spec _ _ _ Hfns) as [Hfns_len _].
    destruct (codegen_conjuncts_returns (ComputeSlotMaterializationOrder node) fns
                conjuncts Hconjuncts ltac:(lia) 0) as [blocks Hblocks].
    destruct (codegen_conjuncts_shape _ _ _ _ _ Hblocks ltac:(lia))
      as (Hsched & Hbranches & Hcount).
    destruct (generated_function_shape node blocks)
      as (Gslots & Gbranches & Glen & Glast).
    cbv zeta in Gslots, Gbranches, Glen, Glast.
    cbn [negb]. rewrite Hblocks. bind_step.
    eexists. split; [reflexivity |].
    rewrite Gslots, Gbranches, Glen, Glast, Hsched, Hbranches, Hcount.
    split; [reflexivity |]. split; [reflexivity |]. split; [lia | reflexivity].
Qed.

(** ** The further properties on the example configurations *)

(** X1: three rows of the template: three are committed, two reported. *)
Lemma WriteEmptyTuples_batch_reports_predecessor_witness :
  exists s' b',
    @WriteEmptyTuples_batch debug_build template_scanner (RowBatch.new 1 4) 3
    = Ret (s', b', 3 - 1) /\
    RowBatch.num_rows b' = 0 + 3.
Proof.
  refine (@WriteEmptyTuples_batch_reports_predecessor debug_build template_scanner
            200 [toy_conjunct] (RowBatch.new 1 4) [0] 3
            _ eq_refl eq_refl _ _ _ _ _ eq_refl eq_refl).
  - lia.
  - simpl. lia.
  - simpl. lia.
  - vm_compute. discriminate.
  - vm_compute. discriminate.
  - vm_compute. repeat constructor.
Defined.

(** X2: two rows without a template; the conjunct rejects the cursor
    row. *)
Lemma WriteEmptyTuples_without_template_witness :
  (exists b',
     @WriteEmptyTuples_batch debug_build toy_scanner (RowBatch.new 1 4) 2
     = Ret (toy_scanner, b', 2) /\
     RowBatch.num_rows b' = 0 + 2 /\
     RowBatch.has_in_flight_row b' = false /\
     RowBatch.tuple_ptrs b' = [[0]; [0]; [0]; [0]]) /\
  @WriteEmptyTuples_rows debug_build toy_scanner (toy_context_with false None)
    [[100]] 0 2
  = Ret (set_trace (trace toy_scanner ++ [EvalConjunctsCall [100]]) toy_scanner,
         [[100]], 0).
Proof.
  refine (@WriteEmptyTuples_without_template debug_build toy_scanner [toy_conjunct]
            (RowBatch.new 1 4) (toy_context_with false None) [[100]] 0 [100] 2
            _ eq_refl eq_refl _ eq_refl).
  - lia.
  - simpl. lia.
Defined.

(** X3: the first row of the example scanner's batch. *)
Lemma GetMemory_hands_out_next_row_witness :
  @GetMemory debug_build toy_scanner
  = Ret (set_batch_ (Some (RowBatch.set_has_in_flight_row true (RowBatch.new 1 4)))
           toy_scanner, 1000, 0, 4 - 0) /\
  1 <= 4 - 0.
Proof.
  refine (@GetMemory_hands_out_next_row debug_build toy_scanner (RowBatch.new 1 4)
            eq_refl _ _).
  - simpl. lia.
  - vm_compute. discriminate.
Defined.

(** X4: after four rows filled the batch of capacity four. *)
Lemma CommitRows_leaves_room_witness :
  exists b',
    batch_ committed_scanner = Some b' /\
    RowBatch.IsFull b' = false.
Proof.
  refine (@CommitRows_leaves_room debug_build toy_scanner committed_scanner 4 OK
            eq_refl _).
  vm_compute. discriminate.
Defined.

(** X5: the example scanner hands off its batch. *)
Lemma AddFinalRowBatch_ends_the_batch_witness :
  exists s',
    @AddFinalRowBatch debug_build toy_scanner = Ret s' /\
    batch_ s' = None /\
    context_ s'
    = Some (AttachCompletedResources (toy_context_with false None)
              (RowBatch.new 1 4) true) /\
    materialized_row_batches (scan_node_ s') = [] ++ [RowBatch.new 1 4] /\
    (exists e, @GetMemory debug_build s' = Trap e) /\
    (forall n, exists e, @CommitRows debug_build s' n = Trap e) /\
    (@dchecks_enabled debug_build = true ->
     @AddFinalRowBatch debug_build s' = Trap DCheckFailed).
Proof.
  exact (@AddFinalRowBatch_ends_the_batch debug_build toy_scanner (RowBatch.new 1 4)
           (toy_context_with false None) eq_refl eq_refl).
Defined.

(** X8: a scan node with a generated routine, no escape character and a
    stream that does not compact. *)
Lemma InitializeWriteTuplesFn_installs_generated_code_witness :
  exists s',
    InitializeWriteTuplesFn codegen_scanner toy_partition TEXT "HdfsTextScanner"
    = Ret (s', OK) /\
    write_tuples_fn_ s' = Some (JitFunction toy_codegen toy_driver) /\
    codegen_fn_ s' = Some toy_driver /\
    num_scanners_codegen_enabled (scan_node_ s') = 0 + 1 /\
    num_scanners_codegen_disabled (scan_node_ s') = 0 /\
    parse_status_ s' = OK.
Proof.
  refine (InitializeWriteTuplesFn_installs_generated_code codegen_scanner
            toy_partition TEXT "HdfsTextScanner" toy_driver toy_codegen
            eq_refl eq_refl _).
  right. split; [reflexivity |]. exists toy_stream. split; reflexivity.
Defined.

(** X9: the example row, with a flag array one longer than the slots. *)
Lemma WriteCompleteTuple_flags_only_its_slots_witness :
  exists s' r,
    WriteCompleteTuple toy_scanner toy_fields_accepted 100 [0] None [0; 0; 0; 7] 0
    = Ret (s', r) /\
    length (error_fields_out r) = 4%nat /\
    (forall k : nat, (3 <= k)%nat -> error_fields_out r !! k = [0; 0; 0; 7] !! k) /\
    row_out r = [100] /\
    forall other : Z,
      WriteCompleteTuple toy_scanner toy_fields_accepted 100 [0] None [0; 0; 0; 7] other
      = Ret (s', r).
Proof.
  refine (WriteCompleteTuple_flags_only_its_slots toy_scanner toy_fields_accepted
            100 [0] None [0; 0; 0; 7] 0 [0; 0; 0; 0] toy_stream [toy_conjunct] _).
  constructor; try reflexivity; vm_compute; lia.
Defined.

(** X10: a row with two flagged slots. *)
Lemma ReportTupleParseError_counts_a_row_once_witness :
  exists s' errors' msgs,
    @ReportTupleParseError debug_build toy_scanner toy_fields_rejected [1; 0; 1] 7
    = Ret (s', errors', true) /\
    (forall k : nat, (k < 3)%nat -> errors' !! k = Some 0) /\
    (forall k : nat, (3 <= k)%nat -> errors' !! k = [1; 0; 1] !! k) /\
    num_errors_in_file_ s' = 0 + 1 /\
    error_log (state_ s') = [] ++ msgs /\
    (length msgs <= 2 + 1)%nat /\
    Z.of_nat (length (error_log (state_ s'))) <= Z.max 0 10 /\
    parse_status_ s' = OK /\
    file_errors (state_ s') = [].
Proof.
  refine (@ReportTupleParseError_counts_a_row_once debug_build toy_scanner
            toy_fields_rejected [1; 0; 1] 7 toy_stream toy_log_row
            _ _ eq_refl eq_refl _ eq_refl).
  - vm_compute. lia.
  - vm_compute. lia.
  - vm_compute. split; [discriminate | reflexivity].
Defined.

(** X11: the second and third slots are flagged; the second decides. *)
Lemma abort_keeps_first_column_error_witness :
  exists s' errors',
    @ReportTupleParseError debug_build aborting_scanner toy_fields_rejected
      [0; 1; 1] 7
    = Ret (s', errors', false) /\
    parse_status_ s'
    = ERROR (column_error_message aborting_scanner string_col1 "abc" 3) /\
    file_errors (state_ s') = [] ++ [("part-00000", 1)] /\
    (forall k : nat, (k < 3)%nat -> errors' !! k = Some 0).
Proof.
  refine (@abort_keeps_first_column_error debug_build aborting_scanner
            toy_fields_rejected [0; 1; 1] 7 1 string_col1
            {| start := "abc"; len := 3 |} 1 toy_stream toy_log_row
            _ _ eq_refl eq_refl eq_refl _ _ _ eq_refl eq_refl eq_refl eq_refl).
  - vm_compute. lia.
  - vm_compute. lia.
  - discriminate.
  - intros [| k] Hk; [reflexivity | lia].
  - vm_compute. reflexivity.
Defined.

(** X12: no flagged slot, in a debug build. *)
Lemma ReportTupleParseError_expects_a_failure_under_abort_witness :
  @ReportTupleParseError debug_build aborting_full_log_scanner toy_fields_accepted
    [0; 0; 0] 7
  = Trap DCheckFailed.
Proof.
  refine (@ReportTupleParseError_expects_a_failure_under_abort debug_build
            aborting_full_log_scanner toy_fields_accepted [0; 0; 0] 7 toy_stream
            _ eq_refl eq_refl eq_refl eq_refl).
  intros [| [| [| k]]] Hk; simpl in *; try reflexivity; lia.
Defined.

(** X13: a base-class scanner reports a row with one flagged slot, in a
    debug build. *)
Lemma base_LogRowParseError_is_not_to_be_reached_witness :
  @ReportTupleParseError debug_build base_class_scanner toy_fields_rejected
    [0; 0; 1] 7
  = Trap DCheckFailed.
Proof.
  refine (@base_LogRowParseError_is_not_to_be_reached debug_build base_class_scanner
            toy_fields_rejected [0; 0; 1] 7 toy_stream _ _ eq_refl eq_refl _ eq_refl).
  - vm_compute. lia.
  - vm_compute. lia.
  - vm_compute. reflexivity.
Defined.

(** X14: the function generated for the example scan node. *)
Lemma generated_code_converts_each_slot_once_witness :
  Permutation (converted_slots toy_fused) (seq 0 3) /\
  map Some (conjunct_branches toy_fused) = [Some int_col0_gt_5] /\
  length toy_fused = (1 + 3)%nat /\
  last toy_fused = Some {| body := []; term := RetFalse |}.
Proof.
  refine (@generated_code_converts_each_slot_once debug_build toy_node toy_codegen
            [toy_conjunct] toy_fused eq_refl eq_refl _).
  intros [| [| [| j]]] o Ho; try discriminate; injection Ho as <-; simpl; lia.
Defined.

(** X15: the example configuration, which is eligible. *)
Lemma CodegenWriteCompleteTuple_construction_failures_witness :
  (Exists (fun desc => CodegenWriteSlot toy_codegen desc = None)
     [int_col0; string_col1; int_col2] ->
   @CodegenWriteCompleteTuple debug_build toy_node toy_codegen [toy_conjunct]
   = Ret None) /\
  (GenerateLlvmStruct toy_codegen = false ->
   @CodegenWriteCompleteTuple debug_build toy_node toy_codegen [toy_conjunct]
   = Ret None) /\
  (Forall (fun desc => CodegenWriteSlot toy_codegen desc <> None)
     [int_col0; string_col1; int_col2] ->
   GenerateLlvmStruct toy_codegen = true ->
   exists fused : FusedFn,
     @CodegenWriteCompleteTuple debug_build toy_node toy_codegen [toy_conjunct]
     = Ret (if verify_fused toy_codegen fused then Some fused else None) /\
     converted_slots fused = schedule [0; 1; 1] 0 2 /\
     map Some (conjunct_branches fused) = [Some int_col0_gt_5] /\
     length fused = (1 + 3)%nat /\
     last fused = Some {| body := []; term := RetFalse |}).
Proof.
  refine (@CodegenWriteCompleteTuple_construction_failures debug_build toy_node
            toy_codegen [toy_conjunct] eq_refl eq_refl _ _).
  - repeat constructor. discriminate.
  - simpl. lia.
Defined.

(** X16: the example scanner, as prepared. *)
Lemma prepared_scanner_hands_out_first_row_witness :
  let s := HdfsScanner_new toy_node (toy_state_with false 10) toy_converter
             (Some toy_log_row) toy_memory in
  let s1 := fst (Prepare s (toy_context_with false None)) in
  snd (Prepare s (toy_context_with false None)) = OK /\
  conjuncts_ s1 = Some [toy_conjunct] /\
  num_conjuncts_ s1 = 1 /\
  stream_ s1 = Some toy_stream /\
  tuples (mem s1) = tuples toy_memory /\
  exists s2,
    @GetMemory debug_build s1 = Ret (s2, 1000, 0, 4) /\
    batch_ s2
    = Some (RowBatch.set_has_in_flight_row true (RowBatch.new 1 4)).
Proof.
  refine (@prepared_scanner_hands_out_first_row debug_build
            (HdfsScanner_new toy_node (toy_state_with false 10) toy_converter
               (Some toy_log_row) toy_memory)
            (toy_context_with false None) _).
  vm_compute. split; [reflexivity | discriminate].
Defined.
